(** * cedar-sqlizer: residual-to-SQL translation and policy combination

    A shallow embedding of [sqlizer/sqlizer.go], [utils] and [authorize.go]
    of jaredzhou/cedar-sqlizer.  Go strings are byte strings ([string]),
    [interface{}] values are the inductive [any], functions that return
    [(T, error)] return [res T], and the three-valued return of
    [Sqlizer.ToSql] is [rendering].  A Go panic is an outcome of its own. *)

From Stdlib Require Import String Ascii List ZArith Lia Bool Arith.
Import ListNotations.
Open Scope string_scope.
Open Scope list_scope.

(** ** Errors, panics and results *)

(** The errors the package builds with [fmt.Errorf], and those handed back by
    its collaborators (evaluator, field mapper). *)
Inductive error : Type :=
| ErrType (expected : string)          (* eval.ErrType, from ValueToType / ValueToGoValue *)
| ErrUnsupportedValue                  (* "unsupported value type for SQL" *)
| ErrUnsupportedNode                   (* "unsupported node type" *)
| ErrJsonLeft                          (* "cotains containsAny containsAll left side must be a sql column" *)
| ErrInRight                           (* "right side of in must be a variable as sql column" *)
| ErrPartPred                          (* "expected string or Sqlizer" *)
| ErrConcatPart                        (* "is not a string or Sqlizer" *)
| ErrInvalidFieldName (name : string)  (* sqlizer.ErrInvalidFieldName, wrapped by a mapper *)
| ErrExternal (msg : string).          (* any error of the evaluator *)

Inductive panic : Type :=
| PanicExprArity (expected got : nat) (sql : string)  (* panic in Expr *)
| PanicNilDeref.                                      (* method call on a nil interface *)

(** A Go function [func f(...) (T, error)] whose value is dropped by every
    caller when the error is set. *)
Inductive res (A : Type) : Type :=
| Ok (a : A)
| Err (e : error)
| Panic (p : panic).
Arguments Ok {A} a.
Arguments Err {A} e.
Arguments Panic {A} p.

Definition bind {A B : Type} (m : res A) (k : A -> res B) : res B :=
  match m with
  | Ok a => k a
  | Err e => Err e
  | Panic p => Panic p
  end.

Notation "x <- m ;; k" := (bind m (fun x => k))
  (at level 61, m at next level, right associativity).

(** ** Byte-level string helpers *)

Definition qm : ascii := "?"%char.

Definition is_qm (c : ascii) : bool := Ascii.eqb c qm.

(** Number of ['?'] bytes of a string. *)
Fixpoint count_qm (s : string) : nat :=
  match s with
  | EmptyString => 0
  | String c rest => (if is_qm c then 1 else 0) + count_qm rest
  end.

(** [sql[i]] with the bounds test of the loop written by the caller. *)
Definition byte_at (s : string) (i : nat) : ascii :=
  match String.get i s with
  | Some c => c
  | None => zero
  end.

(** [strings.Join]. *)
Fixpoint Join (elems : list string) (sep : string) : string :=
  match elems with
  | [] => ""
  | [e] => e
  | e :: rest => e ++ sep ++ Join rest sep
  end.

(** ** The fragment algebra *)

(** Go's [interface{}] as the package uses it: bind values produced by
    [utils.ValueToGoValue], plain and Cedar strings handed to [ConcatExpr],
    and the four [Sqlizer] structs.  [Nil] is the nil interface; a field of
    type [Sqlizer] holds [Nil] or one of the four structs. *)
#[warning="-register-all"]
Inductive any : Type :=
| Nil
| Str (s : string)                 (* string *)
| CedarStr (s : string)            (* cedar.String *)
| Int64 (z : Z)                    (* int64 *)
| GoBool (b : bool)                (* bool *)
| Time (millis : Z)                (* time.Time *)
| Slice (elems : list any)         (* []interface{} *)
| expr (sql : string) (args : list any)
| part (pred : any) (args : list any)
| concatExpr (parts : list any)
| conj (parts : list any) (sep : string) (defaultExpr : string).

(** The type assertion [x.(Sqlizer)]. *)
Definition isSqlizer (x : any) : bool :=
  match x with
  | expr _ _ | part _ _ | concatExpr _ | conj _ _ _ => true
  | _ => false
  end.

(** What [Sqlizer.ToSql] hands back: [(sql, args, nil)], [(sql, args, err)]
    with [err != nil], or a panic.  A nil and an empty slice are both [[]]. *)
Inductive rendering : Type :=
| Rendered (sql : string) (args : list any)
| Failed (sql : string) (args : list any) (e : error)
| Crashed (p : panic).

Definition sqlTrue : string := "1 = 1".
Definition sqlFalse : string := "1 = 0".
Definition AndSep : string := " AND ".
Definition OrSep : string := " OR ".

(** [countPlaceholders]: the [for i := 0; i < len(sql); i++] loop, with the
    index and the counter as loop state; [fuel] bounds the iterations. *)
Fixpoint countLoop (fuel i count : nat) (sql : string) : nat :=
  match fuel with
  | 0 => count
  | S fuel' =>
      if Nat.ltb i (String.length sql) then
        if is_qm (byte_at sql i) then
          if Nat.ltb (i + 1) (String.length sql) && is_qm (byte_at sql (i + 1))
          then countLoop fuel' (i + 2) count sql        (* i++; continue *)
          else countLoop fuel' (i + 1) (count + 1) sql
        else countLoop fuel' (i + 1) count sql
      else count
  end.

Definition countPlaceholders (sql : string) : nat :=
  countLoop (String.length sql) 0 0 sql.

(** The spec's wording of the same number: the ['?'] bytes of the template
    read left to right, a pair ["??"] counting for none. *)
Fixpoint unescapedCount (s : string) : nat :=
  match s with
  | EmptyString => 0
  | String c rest =>
      if is_qm c then
        match rest with
        | String c' rest' => if is_qm c' then unescapedCount rest' else S (unescapedCount rest)
        | EmptyString => 1
        end
      else unescapedCount rest
  end.

(** [Expr]: the constructor checks the arity and panics on a mismatch. *)
Definition Expr (sql : string) (args : list any) : res any :=
  let expectedCount := countPlaceholders sql in
  if Nat.eqb (List.length args) expectedCount
  then Ok (expr sql args)
  else Panic (PanicExprArity expectedCount (List.length args) sql).

(** [processEscapedSQL]: [strings.ReplaceAll(sql, "??", "?")]. *)
Fixpoint processEscapedSQL (sql : string) : string :=
  match sql with
  | EmptyString => EmptyString
  | String c rest =>
      if is_qm c then
        match rest with
        | String c' rest' =>
            if is_qm c' then String qm (processEscapedSQL rest')
            else String c (processEscapedSQL rest)
        | EmptyString => String c EmptyString
        end
      else String c (processEscapedSQL rest)
  end.

(** The loop of [expr.ToSql] once some argument is a [Sqlizer].  [sp] is the
    rest of the template, [ap] the rest of the arguments, each paired with
    what its own [ToSql] returns (looked at only when the argument is a
    [Sqlizer] and a placeholder consumes it).  [strings.Index(sp, "?")] cuts
    [sp] at its first ['?']; the bytes before it go to the buffer unchanged,
    so the loop is written byte by byte. *)
Fixpoint exprLoop (sp : string) (ap : list (any * rendering))
         (buf : string) (args : list any) {struct sp} : rendering :=
  match ap with
  | [] => Rendered (buf ++ sp) args                          (* len(ap) == 0 *)
  | (a, ra) :: ap' =>
      match sp with
      | EmptyString => Rendered buf (args ++ map fst ap)     (* len(sp) == 0 *)
      | String c rest =>
          if is_qm c then
            match rest with
            | String c' rest' =>
                if is_qm c'
                then exprLoop rest' ap (buf ++ "?") args     (* escaped "??" *)
                else
                  if isSqlizer a then
                    match ra with
                    | Rendered isql iargs => exprLoop rest ap' (buf ++ isql) (args ++ iargs)
                    | Failed isql iargs e =>
                        Failed (buf ++ isql ++ rest) ((args ++ iargs) ++ map fst ap') e
                    | Crashed p => Crashed p
                    end
                  else exprLoop rest ap' (buf ++ "?") (args ++ [a])
            | EmptyString =>
                if isSqlizer a then
                  match ra with
                  | Rendered isql iargs => exprLoop rest ap' (buf ++ isql) (args ++ iargs)
                  | Failed isql iargs e =>
                      Failed (buf ++ isql ++ rest) ((args ++ iargs) ++ map fst ap') e
                  | Crashed p => Crashed p
                  end
                else exprLoop rest ap' (buf ++ "?") (args ++ [a])
            end
          else exprLoop rest ap (buf ++ String c "") args
      end
  end.

(** The loop of [concatExpr.ToSql]; an error of a part drops what was built. *)
Fixpoint concatLoop (ce : list (any * rendering)) (sql : string) (args : list any)
  : rendering :=
  match ce with
  | [] => Rendered sql args
  | (p, rp) :: rest =>
      match p with
      | Str s => concatLoop rest (sql ++ s) args
      | CedarStr s => concatLoop rest (sql ++ s) args
      | _ =>
          if isSqlizer p then
            match rp with
            | Rendered pSql pArgs => concatLoop rest (sql ++ pSql) (args ++ pArgs)
            | Failed _ _ e => Failed "" [] e
            | Crashed q => Crashed q
            end
          else Failed "" [] ErrConcatPart
      end
  end.

(** The loop of [conj.ToSql] over the parts, each given by what its [ToSql]
    returns; parts that render to the empty string are skipped. *)
Fixpoint conjLoop (parts : list rendering) (sqlParts : list string) (args : list any)
  : res (list string * list any) :=
  match parts with
  | [] => Ok (sqlParts, args)
  | Rendered partSQL partArgs :: rest =>
      if String.eqb partSQL ""
      then conjLoop rest sqlParts args
      else conjLoop rest (sqlParts ++ [partSQL]) (args ++ partArgs)
  | Failed _ _ e :: _ => Err e
  | Crashed p :: _ => Panic p
  end.

(** [ToSql] of the four [Sqlizer] implementations.  Calling it on the nil
    interface is a nil dereference; the remaining constructors of [any] are
    not [Sqlizer]s and no caller reaches them. *)
Fixpoint ToSql_ (s : any) : rendering :=
  match s with
  | expr sql args =>
      if forallb (fun a => negb (isSqlizer a)) args
      then Rendered (processEscapedSQL sql) args
      else exprLoop sql (map (fun a => (a, ToSql_ a)) args) "" []
  | part pred args =>
      match pred with
      | Nil => Rendered "" []
      | Str p => Rendered p args
      | _ => if isSqlizer pred then ToSql_ pred else Failed "" [] ErrPartPred
      end
  | concatExpr parts => concatLoop (map (fun a => (a, ToSql_ a)) parts) "" []
  | conj parts sep defaultExpr =>
      match parts with
      | [] => Rendered defaultExpr []
      | _ =>
          match conjLoop (map ToSql_ parts) [] [] with
          | Ok (sqlParts, args) =>
              match sqlParts with
              | [] => Rendered "" args
              | _ =>
                  if String.eqb sep AndSep
                  then Rendered (Join sqlParts sep) args
                  else Rendered ("(" ++ Join sqlParts sep ++ ")") args
              end
          | Err e => Failed "" [] e
          | Panic p => Crashed p
          end
      end
  | _ => Crashed PanicNilDeref
  end.

Definition newPart (pred : any) (args : list any) : any := part pred args.
Definition ConcatExpr (parts : list any) : any := concatExpr parts.
Definition AndExpr (parts : list any) : any := conj parts AndSep sqlTrue.
Definition OrExpr (parts : list any) : any := conj parts OrSep sqlFalse.

(** ** Cedar values, residual nodes and the request environment *)

(** [cedar.Value]; [VNil] is the nil interface.  A decimal is kept by its
    canonical text, a datetime by its milliseconds, a set and a record in
    iteration order. *)
#[warning="-register-all"]
Inductive Value : Type :=
| VNil
| VString (s : string)
| VLong (n : Z)
| VBoolean (b : bool)
| VDecimal (text : string)
| VDatetime (millis : Z)
| VEntityUID (type id : string)
| VSet (elems : list Value)
| VRecord (attrs : list (string * Value))
| VIPAddr (text : string).

(** The kinds that [toSqlBinary] handles, one per node type of its switch. *)
Inductive BinKind : Type :=
| KAnd | KOr
| KEquals | KNotEquals
| KGreaterThan | KGreaterThanOrEqual | KLessThan | KLessThanOrEqual
| KAdd | KSub | KMult
| KContains | KContainsAll | KContainsAny.

(** [ast.IsNode].  [NodeBinary k l r] is the node type of kind [k] with its
    [Left] and [Right]; [NodeOther] stands for every node type that the
    switch of [toSqlOrValue] does not list. *)
#[warning="-register-all"]
Inductive Node : Type :=
| NodeValue (v : Value)
| NodeTypeVariable (name : string)
| NodeTypeAccess (arg : Node) (field : string)
| NodeTypeHas (arg : Node) (field : string)
| NodeTypeNot (arg : Node)
| NodeTypeNegate (arg : Node)
| NodeTypeIsEmpty (arg : Node)
| NodeBinary (k : BinKind) (left right : Node)
| NodeTypeIn (left right : Node)
| NodeTypeIs (left : Node) (entityType : string)
| NodeTypeIsIn (left : Node) (entityType : string) (entity : Node)
| NodeTypeGetTag (left right : Node)
| NodeTypeLike (arg : Node) (pattern : string)
| NodeTypeIfThenElse (c t e : Node)
| NodeTypeRecord (elements : list (string * Node))
| NodeTypeSet (elements : list Node)
| NodeTypeExtensionCall (name : string) (args : list Node)
| NodeOther (tag : string).

Definition NodeTypeAnd := NodeBinary KAnd.
Definition NodeTypeOr := NodeBinary KOr.
Definition NodeTypeEquals := NodeBinary KEquals.
Definition NodeTypeContains := NodeBinary KContains.
Definition NodeTypeContainsAll := NodeBinary KContainsAll.
Definition NodeTypeContainsAny := NodeBinary KContainsAny.

(** [ast.True()], [ast.False()]. *)
Definition ast_True : Node := NodeValue (VBoolean true).
Definition ast_False : Node := NodeValue (VBoolean false).

Inductive Effect : Type := Permit | Forbid.

(** Modelled from the spec: the reserved entity type of cedar-go's
    [eval.Variable], which is not part of this repository.  The spec names
    it ["__variable__"]. *)
Definition variableEntityType : string := "__variable__".

(** Modelled from the spec: [eval.Variable(name)], an entity id of the
    reserved type standing for an unknown subject. *)
Definition eval_Variable (name : string) : Value := VEntityUID variableEntityType name.

(** Modelled from the spec: [eval.ToVariable], the name of a sentinel value. *)
Definition ToVariable (v : Value) : option string :=
  match v with
  | VEntityUID ty id => if String.eqb ty variableEntityType then Some id else None
  | _ => None
  end.

(** [eval.Env], over the type of the entity store. *)
Record Env (EntityGetter : Type) : Type := {
  Entities : EntityGetter;
  Principal : Value;
  Action : Value;
  Resource : Value;
  Context : Value
}.
Arguments Entities {EntityGetter} _.
Arguments Principal {EntityGetter} _.
Arguments Action {EntityGetter} _.
Arguments Resource {EntityGetter} _.
Arguments Context {EntityGetter} _.

(** The collaborators of cedar-go that the package calls and that are not
    part of it: the entity store, parsed policies, the evaluator of closed
    subtrees and the partial evaluator of policies. *)
Record Cedar : Type := {
  EntityGetter : Type;
  astPolicy : Type;
  eval_Eval : Node -> Env EntityGetter -> res Value;      (* eval.Eval *)
  ToPartialError : Node -> option error;                  (* eval.ToPartialError *)
  PartialPolicy : Env EntityGetter -> astPolicy -> option astPolicy;  (* keep = Some *)
  PolicyToNode : astPolicy -> Node
}.

(** [FieldMapper.Map]; the nil interface is [None]. *)
Definition FieldMapper : Type := string -> res string.

Definition DefaultFieldMapper : FieldMapper := fun name => Ok name.

(** ** utils *)

(** [utils.ValueToType[cedar.Boolean]]. *)
Definition ValueToType_Boolean (v : Value) : res bool :=
  match v with
  | VBoolean b => Ok b
  | _ => Err (ErrType "Boolean")
  end.

(** [utils.ValueToGoValue]; the set case is the loop over [v.All()]. *)
Fixpoint ValueToGoValue (v : Value) : res any :=
  match v with
  | VString s => Ok (Str s)
  | VEntityUID _ id => Ok (Str id)
  | VLong n => Ok (Int64 n)
  | VBoolean b => Ok (GoBool b)
  | VDecimal text => Ok (Str text)
  | VDatetime millis => Ok (Time millis)
  | VIPAddr _ => Err ErrUnsupportedValue
  | VSet elems =>
      args <- (fix items (l : list Value) : res (list any) :=
                 match l with
                 | [] => Ok []
                 | item :: rest =>
                     arg <- ValueToGoValue item ;;
                     args <- items rest ;;
                     Ok (arg :: args)
                 end) elems ;;
      Ok (Slice args)
  | VRecord _ => Err ErrUnsupportedValue
  | VNil => Err (ErrType "string")
  end.

(** ** The residual reducer *)

(** The struct [result]: a concrete value or a SQL fragment. *)
Record result : Type := mkResult {
  isValue : bool;
  value : Value;
  sqlizer : any
}.

(** [valueToResult]: a value that is a variable sentinel becomes the fragment
    [Expr(name)]. *)
Definition valueToResult (isValue : bool) (value : Value) (sqlizer : any) : res result :=
  match ToVariable value with
  | Some variable =>
      s <- Expr variable [] ;;
      Ok (mkResult false value s)
  | None => Ok (mkResult isValue value sqlizer)
  end.

(** [result.ToSql]. *)
Definition result_ToSql (r : result) : rendering := ToSql_ (sqlizer r).

(** [result.Arg]. *)
Definition Arg (left : result) : res any := ValueToGoValue (value left).

Definition valueIsTrue (v : Value) : res bool :=
  val <- ValueToType_Boolean v ;; Ok (Bool.eqb val true).

Definition valueIsFalse (v : Value) : res bool :=
  val <- ValueToType_Boolean v ;; Ok (Bool.eqb val false).

(** [result.And]. *)
Definition And (left right : result) : res result :=
  leftTrue <- (if isValue left then valueIsTrue (value left) else Ok false) ;;
  if leftTrue then Ok right
  else if isValue right then
    val <- valueIsTrue (value right) ;;
    if val then Ok left
    else valueToResult false VNil (AndExpr [sqlizer left; sqlizer right])
  else valueToResult false VNil (AndExpr [sqlizer left; sqlizer right]).

(** [result.Or]. *)
Definition Or (left right : result) : res result :=
  leftFalse <- (if isValue left then valueIsFalse (value left) else Ok false) ;;
  if leftFalse then Ok right
  else
    rightFalse <- (if isValue right then valueIsFalse (value right) else Ok false) ;;
    if rightFalse then Ok left
    else valueToResult false VNil (OrExpr [sqlizer left; sqlizer right]).

(** [result.Compare]. *)
Definition Compare (left right : result) (exprStr : string) : res result :=
  if isValue left then
    arg <- Arg left ;;
    s <- Expr exprStr [arg; sqlizer right] ;;
    valueToResult false VNil s
  else if isValue right then
    arg <- Arg right ;;
    s <- Expr exprStr [sqlizer left; arg] ;;
    valueToResult false VNil s
  else
    s <- Expr exprStr [sqlizer left; sqlizer right] ;;
    valueToResult false VNil s.

(** [result.JsonCompareText]. *)
Definition JsonCompareText (left right : result) (exprStr : string) : res result :=
  if isValue left then Err ErrJsonLeft
  else if isValue right then
    arg <- Arg right ;;
    s <- Expr exprStr [sqlizer left; arg] ;;
    valueToResult false VNil s
  else
    s <- Expr exprStr [sqlizer left; sqlizer right] ;;
    valueToResult false VNil s.

(** [getBinaryFields], the operator text only (no caller uses it). *)
Definition getBinaryFields_op (k : BinKind) : string :=
  match k with
  | KAnd => "AND" | KOr => "OR"
  | KEquals => "=" | KNotEquals => "!="
  | KGreaterThan => ">" | KGreaterThanOrEqual => ">="
  | KLessThan => "<" | KLessThanOrEqual => "<="
  | KAdd => "+" | KSub => "-" | KMult => "*"
  | KContains => "??" | KContainsAll => "??&" | KContainsAny => "??|"
  end.

(** The second switch of [toSqlBinary], once the operands are not both
    values. *)
Definition binaryDispatch (k : BinKind) (leftResult rightResult : result) : res result :=
  match k with
  | KAnd => And leftResult rightResult
  | KOr => Or leftResult rightResult
  | KEquals => Compare leftResult rightResult "? = ?"
  | KNotEquals => Compare leftResult rightResult "? != ?"
  | KGreaterThan => Compare leftResult rightResult "? > ?"
  | KGreaterThanOrEqual => Compare leftResult rightResult "? >= ?"
  | KLessThan => Compare leftResult rightResult "? < ?"
  | KLessThanOrEqual => Compare leftResult rightResult "? <= ?"
  | KAdd => Compare leftResult rightResult "? + ?"
  | KSub => Compare leftResult rightResult "? - ?"
  | KMult => Compare leftResult rightResult "? * ?"
  | KContains => JsonCompareText leftResult rightResult "? ?? ?"
  | KContainsAll => JsonCompareText leftResult rightResult "? ??| ?"
  | KContainsAny => JsonCompareText leftResult rightResult "? ??& ?"
  end.

(** What a call of [Sqlizer.ToSql] gives to a caller that tests [err]. *)
Definition checked (r : rendering) : res (string * list any) :=
  match r with
  | Rendered sql args => Ok (sql, args)
  | Failed _ _ e => Err e
  | Crashed p => Panic p
  end.

Section Reducer.

Variable lib : Cedar.
Variable env : Env (EntityGetter lib).
Variable mapper : option FieldMapper.

(** [nodeToValue]. *)
Definition nodeToValue (n : Node) : res Value := eval_Eval lib n env.

(** The dotted path of [toAccess] and [toSqlHas]:
    [ConcatExpr(sqlizer, ".", field).ToSql()], then the mapper if there
    is one. *)
Definition mappedPath (argSqlizer : any) (field : string) : res (string * list any) :=
  sa <- checked (ToSql_ (ConcatExpr [argSqlizer; Str "."; CedarStr field])) ;;
  match mapper with
  | Some m => mapped <- m (fst sa) ;; Ok (mapped, snd sa)
  | None => Ok sa
  end.

Section Cases.

(** The recursive call [toSqlOrValue(child, env, mapper)]. *)
Variable rec : Node -> res result.

Definition toAccess (arg : Node) (field : string) : res result :=
  argResult <- rec arg ;;
  if isValue argResult then
    val <- eval_Eval lib (NodeTypeAccess (NodeValue (value argResult)) field) env ;;
    valueToResult true val Nil
  else
    sa <- mappedPath (sqlizer argResult) field ;;
    valueToResult false VNil (newPart (Str (fst sa)) (snd sa)).

Definition toSqlNot (arg : Node) : res result :=
  argResult <- rec arg ;;
  if isValue argResult then
    val <- eval_Eval lib (NodeTypeNot (NodeValue (value argResult))) env ;;
    valueToResult true val Nil
  else
    s <- Expr "NOT (?)" [sqlizer argResult] ;;
    valueToResult false VNil s.

Definition toSqlEmpty (arg : Node) : res result :=
  argResult <- rec arg ;;
  if isValue argResult then
    val <- eval_Eval lib (NodeTypeIsEmpty (NodeValue (value argResult))) env ;;
    valueToResult true val Nil
  else
    s <- Expr "? IS NULL" [sqlizer argResult] ;;
    valueToResult false VNil s.

Definition toSqlHas (arg : Node) (field : string) : res result :=
  argResult <- rec arg ;;
  if isValue argResult then
    val <- eval_Eval lib (NodeTypeHas (NodeValue (value argResult)) field) env ;;
    valueToResult true val Nil
  else
    sa <- mappedPath (sqlizer argResult) field ;;
    inner <- Expr (fst sa) (snd sa) ;;
    s <- Expr "? IS NOT NULL" [inner] ;;
    valueToResult false VNil s.

Definition toSqlBinary (k : BinKind) (left right : Node) : res result :=
  leftResult <- rec left ;;
  rightResult <- rec right ;;
  if isValue leftResult && isValue rightResult then
    val <- nodeToValue (NodeBinary k left right) ;;
    valueToResult true val Nil
  else binaryDispatch k leftResult rightResult.

Definition toSqlIn (left right : Node) : res result :=
  leftResult <- rec left ;;
  rightResult <- rec right ;;
  if isValue leftResult && isValue rightResult then
    val <- eval_Eval lib (NodeTypeIn (NodeValue (value leftResult))
                                (NodeValue (value rightResult))) env ;;
    valueToResult true val Nil
  else if isValue leftResult then
    leftArg <- Arg leftResult ;;
    s <- Expr "? ?? ?" [sqlizer rightResult; leftArg] ;;
    valueToResult false VNil s
  else if isValue rightResult then Err ErrInRight
  else
    s <- Expr "? ?? ?" [sqlizer rightResult; sqlizer leftResult] ;;
    valueToResult false VNil s.

End Cases.

(** [toSqlVariable]. *)
Definition toSqlVariable (name : string) : res result :=
  val <- eval_Eval lib (NodeTypeVariable name) env ;;
  valueToResult true val Nil.

(** The nodes that only the evaluator understands. *)
Definition evalOnly (n : Node) : res result :=
  val <- nodeToValue n ;;
  valueToResult true val Nil.

(** [toSqlOrValue] (with [Debug] off, as the package sets it). *)
Fixpoint toSqlOrValue (node : Node) : res result :=
  match node with
  | NodeTypeAccess arg field => toAccess toSqlOrValue arg field
  | NodeValue v => valueToResult true v Nil
  | NodeTypeNot arg => toSqlNot toSqlOrValue arg
  | NodeTypeVariable name => toSqlVariable name
  | NodeTypeIn l r => toSqlIn toSqlOrValue l r
  | NodeBinary k l r => toSqlBinary toSqlOrValue k l r
  | NodeTypeIsEmpty arg => toSqlEmpty toSqlOrValue arg
  | NodeTypeExtensionCall _ _ =>
      match ToPartialError lib node with
      | Some terr => Err terr
      | None => evalOnly node
      end
  | NodeTypeHas arg field => toSqlHas toSqlOrValue arg field
  | NodeTypeGetTag _ _ | NodeTypeLike _ _ | NodeTypeIfThenElse _ _ _
  | NodeTypeIs _ _ | NodeTypeIsIn _ _ _ | NodeTypeNegate _
  | NodeTypeRecord _ | NodeTypeSet _ => evalOnly node
  | NodeOther _ => Err ErrUnsupportedNode
  end.

(** [ToSql], the entry point of the package. *)
Definition ToSql (node : Node) : rendering :=
  match toSqlOrValue node with
  | Err e => Failed "" [] e
  | Panic p => Crashed p
  | Ok result =>
      if isValue result then
        match ValueToType_Boolean (value result) with
        | Err e => Failed "" [] e
        | Panic p => Crashed p
        | Ok val => if val then Rendered sqlTrue [] else Rendered sqlFalse []
        end
      else result_ToSql result
  end.

End Reducer.

(** ** The policy combiner *)

Definition PolicyID : Type := string.

(** A policy of the set: its effect and its parsed form. *)
Record Policy (lib : Cedar) : Type := mkPolicy {
  Effect_ : Effect;
  AST : astPolicy lib
}.
Arguments Effect_ {lib} _.
Arguments AST {lib} _.

(** [AuthorizeSQLRequest]; a nil [Context] is [VNil], a nil [FieldMapper] is
    [None]. *)
Record AuthorizeSQLRequest : Type := mkRequest {
  req_Principal : Value;
  req_Action : Value;
  req_Context : Value;
  req_FieldMapper : option FieldMapper
}.

(** [m[pid] = isNode] on a Go map, kept as an association list in insertion
    order.  Go leaves the iteration order of a map open; the list fixes one. *)
Fixpoint mapSet (m : list (PolicyID * Node)) (pid : PolicyID) (isNode : Node)
  : list (PolicyID * Node) :=
  match m with
  | [] => [(pid, isNode)]
  | (k, v) :: rest =>
      if String.eqb k pid then (k, isNode) :: rest
      else (k, v) :: mapSet rest pid isNode
  end.

(** The four collections that the loop of [AuthorizeSQL] fills. *)
Record buckets : Type := mkBuckets {
  forbids : list PolicyID;
  permits : list PolicyID;
  permitsRemains : list (PolicyID * Node);
  forbidsRemains : list (PolicyID * Node)
}.

Definition emptyBuckets : buckets := mkBuckets [] [] [] [].

(** [permitsNode.Or(...)] over the remainders, starting from the node the
    accumulator holds; [None] is a nil [AsIsNode()]. *)
Definition orInto (acc : option Node) (isNode : Node) : option Node :=
  match acc with
  | None => Some isNode
  | Some n => Some (NodeTypeOr n isNode)
  end.

Definition andInto (node : Node) (rhs : option Node) (wrap : Node -> Node) : Node :=
  match rhs with
  | Some n => NodeTypeAnd node (wrap n)
  | None => node
  end.

Section Combiner.

Variable lib : Cedar.

(** [partial]: satisfied, or the node that remains, or neither. *)
Definition partial (env : Env (EntityGetter lib)) (p : astPolicy lib)
  : res (bool * option Node) :=
  match PartialPolicy lib env p with
  | None => Ok (false, None)
  | Some p' =>
      let node := PolicyToNode lib p' in
      match node with
      | NodeValue v =>
          match ToVariable v with
          | Some _ => Ok (false, Some node)
          | None =>
              boolVal <- ValueToType_Boolean v ;;
              Ok (boolVal, None)
          end
      | _ => Ok (false, Some node)
      end
  end.

(** One round of the loop over [policies.All()]. *)
Definition classifyStep (env : Env (EntityGetter lib)) (b : buckets)
           (pid : PolicyID) (p : Policy lib) : res buckets :=
  sn <- partial env (AST p) ;;
  let b1 :=
    if fst sn then
      match Effect_ p with
      | Permit => mkBuckets (forbids b) (permits b ++ [pid]) (permitsRemains b) (forbidsRemains b)
      | Forbid => mkBuckets (forbids b ++ [pid]) (permits b) (permitsRemains b) (forbidsRemains b)
      end
    else b in
  match snd sn with
  | Some isNode =>
      match Effect_ p with
      | Permit => Ok (mkBuckets (forbids b1) (permits b1)
                                (mapSet (permitsRemains b1) pid isNode) (forbidsRemains b1))
      | Forbid => Ok (mkBuckets (forbids b1) (permits b1)
                                (permitsRemains b1) (mapSet (forbidsRemains b1) pid isNode))
      end
  | None => Ok b1
  end.

Fixpoint classify (env : Env (EntityGetter lib)) (policies : list (PolicyID * Policy lib))
         (b : buckets) : res buckets :=
  match policies with
  | [] => Ok b
  | (pid, p) :: rest =>
      b' <- classifyStep env b pid p ;;
      classify env rest b'
  end.

(** The residual that [AuthorizeSQL] hands to [ToSql]. *)
Definition finalNode (b : buckets) : Node :=
  match forbids b with
  | _ :: _ => ast_False
  | [] =>
      match permits b with
      | _ :: _ => ast_True
      | [] =>
          let permitsNode := fold_left orInto (map snd (permitsRemains b)) (Some ast_False) in
          let forbidsNode := fold_left orInto (map snd (forbidsRemains b)) (Some ast_False) in
          let node := andInto ast_True permitsNode (fun n => n) in
          andInto node forbidsNode NodeTypeNot
      end
  end.

(** The environment that [AuthorizeSQL] builds: the resource is unknown,
    the context is unknown unless the request gives one. *)
Definition requestEnv (entities : EntityGetter lib) (req : AuthorizeSQLRequest)
  : Env (EntityGetter lib) :=
  let context :=
    match req_Context req with
    | VNil => eval_Variable "context"
    | c => c
    end in
  {| Entities := entities;
     Principal := req_Principal req;
     Action := req_Action req;
     Resource := eval_Variable "resource";
     Context := context |}.

(** [AuthorizeSQL]. *)
Definition AuthorizeSQL (policies : list (PolicyID * Policy lib))
           (entities : EntityGetter lib) (req : AuthorizeSQLRequest) : rendering :=
  let env := requestEnv entities req in
  match classify env policies emptyBuckets with
  | Err e => Failed "" [] e
  | Panic p => Crashed p
  | Ok b =>
      let mapper :=
        match req_FieldMapper req with
        | Some m => m
        | None => DefaultFieldMapper
        end in
      ToSql lib env (Some mapper) (finalNode b)
  end.

End Combiner.

(** ** A small instance of the collaborators

    Enough of an evaluator to run the package on concrete requests: constants,
    the four request variables, negation and the boolean connectives.  A
    policy is given by what partial evaluation leaves of it. *)
Module Demo.

Inductive policy : Type :=
| Dropped                 (* the policy cannot apply: [keep] is false *)
| Residual (n : Node).    (* the node that [PolicyToNode] returns *)

Definition asBool (v : Value) : res bool := ValueToType_Boolean v.

Fixpoint eval (n : Node) (env : Env unit) : res Value :=
  match n with
  | NodeValue v => Ok v
  | NodeTypeVariable name =>
      if String.eqb name "principal" then Ok (Principal env)
      else if String.eqb name "action" then Ok (Action env)
      else if String.eqb name "resource" then Ok (Resource env)
      else if String.eqb name "context" then Ok (Context env)
      else Err (ErrExternal "unknown variable")
  | NodeTypeNot arg =>
      v <- eval arg env ;; b <- asBool v ;; Ok (VBoolean (negb b))
  | NodeBinary KAnd l r =>
      v <- eval l env ;; b <- asBool v ;;
      if b then (w <- eval r env ;; c <- asBool w ;; Ok (VBoolean c))
      else Ok (VBoolean false)
  | NodeBinary KOr l r =>
      v <- eval l env ;; b <- asBool v ;;
      if b then Ok (VBoolean true)
      else (w <- eval r env ;; c <- asBool w ;; Ok (VBoolean c))
  | _ => Err (ErrExternal "not evaluated here")
  end.

Definition lib : Cedar := {|
  EntityGetter := unit;
  astPolicy := policy;
  eval_Eval := eval;
  ToPartialError := fun _ => None;
  PartialPolicy := fun _ p => match p with Dropped => None | Residual _ => Some p end;
  PolicyToNode := fun p => match p with Dropped => ast_False | Residual n => n end
|}.

Definition permit (p : policy) : Policy lib := mkPolicy lib Permit p.
Definition forbid (p : policy) : Policy lib := mkPolicy lib Forbid p.

(** The environment of the package tests: resource and context unknown. *)
Definition env (principal : Value) : Env unit := {|
  Entities := tt;
  Principal := principal;
  Action := VEntityUID "Action" "ViewDocument";
  Resource := eval_Variable "resource";
  Context := eval_Variable "context"
|}.

(** [docMapper] of the package tests, by the four paths it accepts: the
    document fields [owner] and [is_public] under [resource.], rewritten to
    [document.], and the user fields [id] and [block] under [users.]. *)
Definition docMapper : FieldMapper := fun name =>
  if String.eqb name "resource.owner" then Ok "document.owner"
  else if String.eqb name "resource.is_public" then Ok "document.is_public"
  else if String.eqb name "users.id" then Ok name
  else if String.eqb name "users.block" then Ok name
  else Err (ErrInvalidFieldName name).

Definition resource_attr (field : string) : Node :=
  NodeTypeAccess (NodeTypeVariable "resource") field.
Definition context_attr (field : string) : Node :=
  NodeTypeAccess (NodeTypeVariable "context") field.

Definition bob : Value := VEntityUID "User" "bob".

Definition request (principal : Value) : AuthorizeSQLRequest := {|
  req_Principal := principal;
  req_Action := VEntityUID "Action" "ViewDocument";
  req_Context := VRecord [("is_authenticated", VBoolean true)];
  req_FieldMapper := Some docMapper
|}.

End Demo.

(** ** utils: list intersection *)

Section Slices.

Variable T : Type.

(** [==] on the comparable type [T]. *)
Variable eq_op : T -> T -> bool.

(** [slices.Contains]: the first index at which [v == s[i]], if any. *)
Fixpoint slices_Contains (s : list T) (v : T) : bool :=
  match s with
  | [] => false
  | x :: rest => if eq_op v x then true else slices_Contains rest v
  end.

(** The loop of [utils.Intersect], with the slice [r] it appends to. *)
Fixpoint IntersectLoop (a b r : list T) : list T :=
  match a with
  | [] => r
  | v :: rest =>
      if slices_Contains b v
      then IntersectLoop rest b (r ++ [v])
      else IntersectLoop rest b r
  end.

(** [utils.Intersect]. *)
Definition Intersect (a b : list T) : list T := IntersectLoop a b [].

End Slices.
Arguments slices_Contains {T} eq_op s v.
Arguments IntersectLoop {T} eq_op a b r.
Arguments Intersect {T} eq_op a b.

(** ** The field mappers of the tests *)

(** [strings.HasPrefix]. *)
Fixpoint HasPrefix (s prefix : string) {struct prefix} : bool :=
  match prefix with
  | EmptyString => true
  | String p prefix' =>
      match s with
      | EmptyString => false
      | String c s' => Ascii.eqb c p && HasPrefix s' prefix'
      end
  end.

(** [s[n:]]. *)
Fixpoint dropBytes (n : nat) (s : string) : string :=
  match n with
  | 0 => s
  | S n' =>
      match s with
      | EmptyString => EmptyString
      | String _ s' => dropBytes n' s'
      end
  end.

(** [strings.TrimPrefix]. *)
Definition TrimPrefix (s prefix : string) : string :=
  if HasPrefix s prefix then dropBytes (String.length prefix) s else s.

(** [strings.Replace(s, old, new, 1)] for a non-empty [old]: the first
    instance of [old] is replaced. *)
Fixpoint ReplaceFirst (s old new : string) : string :=
  if HasPrefix s old then (new ++ dropBytes (String.length old) s)%string
  else
    match s with
    | EmptyString => EmptyString
    | String c s' => String c (ReplaceFirst s' old new)
    end.

(** [docMapper.Map] of [authorize_test.go], as it is written. *)
Definition docMapper_Map : FieldMapper := fun name =>
  let validDocFields := ["owner"; "is_public"] in
  let validUserFields := ["id"; "block"] in
  if HasPrefix name "resource." &&
     slices_Contains String.eqb validDocFields (TrimPrefix name "resource.")
  then Ok ("document." ++ TrimPrefix name "resource.")%string
  else if HasPrefix name "users." &&
          slices_Contains String.eqb validUserFields (TrimPrefix name "users.")
  then Ok name
  else Err (ErrInvalidFieldName name).

(** [fileMapper.Map] of the tests of the [sqlizer] package. *)
Definition fileMapper_Map : FieldMapper := fun name =>
  if HasPrefix name "resource."
  then Ok (ReplaceFirst name "resource." "files.")
  else Ok name.

(** ** Vocabulary of the properties *)

Open Scope string_scope.

(** What one part contributes to a conjunction: its text, not empty, and its
    arguments. *)
Definition rendersTo (p : any) (o : string * list any) : Prop :=
  ToSql_ p = Rendered (fst o) (snd o) /\ fst o <> "".

(** A concrete result and a fragment result, as operands of [And] and [Or]. *)
Definition concrete (v : Value) : result := mkResult true v Nil.
Definition fragment (s : any) : result := mkResult false VNil s.

(** The residual of scenario S2 for [principal]: owner or public. *)
Definition ownerOrPublic (principal : Value) : Node :=
  NodeTypeOr (NodeTypeEquals (NodeTypeAccess (NodeTypeVariable "resource") "owner")
                             (NodeValue principal))
             (NodeTypeEquals (NodeTypeAccess (NodeTypeVariable "resource") "is_public")
                             (NodeValue (VBoolean true))).

(** A bind value: not a [Sqlizer]. *)
Definition scalar (a : any) : Prop := isSqlizer a = false.

(** Rendering [s] never returns an error. *)
Definition nofail (s : any) : Prop :=
  forall sql args e, ToSql_ s <> Failed sql args e.

(** The arguments that [s] renders are bind values. *)
Definition scalarArgs (s : any) : Prop :=
  forall sql args, ToSql_ s = Rendered sql args -> Forall scalar args.

(** Rendering [s] gives no error, and only bind values. *)
Definition sound (s : any) : Prop := nofail s /\ scalarArgs s.

(** The arguments of an [expr], each with what its own [ToSql] returns. *)
Definition prerender (args : list any) : list (any * rendering) :=
  map (fun a => (a, ToSql_ a)) args.

(** A result of the reducer: its fragment renders without error and with
    bind values only, and a result that is not a value holds a [Sqlizer]. *)
Definition soundResult (r : result) : Prop :=
  sound (sqlizer r) /\ (isValue r = false -> isSqlizer (sqlizer r) = true).

(** Pairs ["??"] of a template, read left to right. *)
Fixpoint escapedPairs (s : string) : nat :=
  match s with
  | EmptyString => 0
  | String c rest =>
      if is_qm c then
        match rest with
        | String c' rest' => if is_qm c' then S (escapedPairs rest') else escapedPairs rest
        | EmptyString => 0
        end
      else escapedPairs rest
  end.

(** The text that [s] renders has as many ['?'] as [s] renders arguments. *)
Definition balanced (s : any) : Prop :=
  forall sql args, ToSql_ s = Rendered sql args -> count_qm sql = List.length args.

(** The ['?'] of a list of texts. *)
Definition sum_qm (l : list string) : nat := list_sum (map count_qm l).

(** A name (of a variable, of a field) without ['?']. *)
Definition cleanName (name : string) : Prop := count_qm name = 0.

(** A value that is no variable sentinel, or one with a clean name. *)
Definition cleanValue (v : Value) : Prop :=
  forall name, ToVariable v = Some name -> cleanName name.

(** The residuals for which the count is stated: no JSON-containment
    operator ([Contains], [ContainsAll], [ContainsAny], [In]) where the
    reducer walks, and no ['?'] in a field name or in the name of a variable
    sentinel. *)
Fixpoint plain (n : Node) : bool :=
  match n with
  | NodeValue v =>
      match ToVariable v with
      | Some name => Nat.eqb (count_qm name) 0
      | None => true
      end
  | NodeTypeAccess arg field | NodeTypeHas arg field =>
      plain arg && Nat.eqb (count_qm field) 0
  | NodeTypeNot arg | NodeTypeIsEmpty arg => plain arg
  | NodeBinary k l r =>
      match k with
      | KContains | KContainsAll | KContainsAny => false
      | _ => plain l && plain r
      end
  | NodeTypeIn _ _ => false
  | _ => true
  end.

(** No variable sentinel inside [v] has a ['?'] in its name. *)
Fixpoint deepClean (v : Value) : bool :=
  match v with
  | VEntityUID ty id =>
      if String.eqb ty variableEntityType then Nat.eqb (count_qm id) 0 else true
  | VSet elems => forallb deepClean elems
  | VRecord attrs => forallb (fun kv => deepClean (snd kv)) attrs
  | _ => true
  end.

(** No value inside [n] holds such a sentinel. *)
Fixpoint cleanNode (n : Node) : bool :=
  match n with
  | NodeValue v => deepClean v
  | NodeTypeVariable _ | NodeOther _ => true
  | NodeTypeAccess arg _ | NodeTypeHas arg _ | NodeTypeNot arg | NodeTypeNegate arg
  | NodeTypeIsEmpty arg | NodeTypeIs arg _ | NodeTypeLike arg _ => cleanNode arg
  | NodeBinary _ l r | NodeTypeIn l r | NodeTypeGetTag l r | NodeTypeIsIn l _ r =>
      cleanNode l && cleanNode r
  | NodeTypeIfThenElse c t e => cleanNode c && cleanNode t && cleanNode e
  | NodeTypeRecord elements => forallb (fun kv => cleanNode (snd kv)) elements
  | NodeTypeSet elements => forallb cleanNode elements
  | NodeTypeExtensionCall _ args => forallb cleanNode args
  end.

(** A result of the reducer on a plain residual. *)
Definition balancedResult (r : result) : Prop :=
  balanced (sqlizer r) /\ deepClean (value r) = true.

(** The values that have a bind argument: no record, no IP address and no
    nil, at any depth of a set. *)
Fixpoint marshallable (v : Value) : bool :=
  match v with
  | VNil | VRecord _ | VIPAddr _ => false
  | VSet elems => forallb marshallable elems
  | _ => true
  end.

(** [ValueToGoValue] on the elements of a set, in their order, up to the
    first error. *)
Fixpoint marshalItems (l : list Value) : res (list any) :=
  match l with
  | [] => Ok []
  | item :: rest =>
      arg <- ValueToGoValue item ;;
      args <- marshalItems rest ;;
      Ok (arg :: args)
  end.

(** The arguments that one argument of an [expr] contributes: those that a
    [Sqlizer] renders, or the bind value itself. *)
Definition renderedArgs (a : any) : list any :=
  if isSqlizer a then
    match ToSql_ a with
    | Rendered _ args => args
    | _ => []
    end
  else [a].

(** The parts of a conjunction that count: those with a text. *)
Definition keptParts (outs : list (string * list any)) : list (string * list any) :=
  filter (fun o => negb (String.eqb (fst o) "")) outs.

(** The kinds that [toSqlBinary] hands to [Compare]. *)
Definition isComparison (k : BinKind) : bool :=
  match k with
  | KAnd | KOr | KContains | KContainsAll | KContainsAny => false
  | _ => true
  end.

(** What an operand of a comparison puts in the text and in the arguments: a
    concrete operand a ['?'] and its bind value, a fragment what it renders. *)
Definition operandRenders (x : result) (text : string) (args : list any) : Prop :=
  if isValue x
  then exists arg, Arg x = Ok arg /\ text = "?" /\ args = [arg]
  else isSqlizer (sqlizer x) = true /\ ToSql_ (sqlizer x) = Rendered text args.

(** The same for one argument of an [expr]. *)
Definition slotRenders (x : any) (text : string) (args : list any) : Prop :=
  if isSqlizer x
  then ToSql_ x = Rendered text args
  else text = "?" /\ args = [x].

(** The mapper on a path; without a mapper the path is kept. *)
Definition mapPath (mapper : option FieldMapper) (path : string) : res string :=
  match mapper with
  | Some m => m path
  | None => Ok path
  end.

(** [node] reduces to a fragment, not to a value, and the fragment renders
    [text] with [args]. *)
Definition reducesTo (lib : Cedar) (env : Env (EntityGetter lib))
           (mapper : option FieldMapper) (node : Node)
           (text : string) (args : list any) : Prop :=
  exists r,
    toSqlOrValue lib env mapper node = Ok r
    /\ isValue r = false
    /\ result_ToSql r = Rendered text args.

(** The two shapes of a [result]: a value that is no sentinel and carries no
    fragment, or a fragment. *)
Definition wellFormed (r : result) : Prop :=
  if isValue r
  then sqlizer r = Nil /\ ToVariable (value r) = None
  else isSqlizer (sqlizer r) = true.

(** The mapper that [AuthorizeSQL] passes on: that of the request, or
    [DefaultFieldMapper]. *)
Definition requestMapper (req : AuthorizeSQLRequest) : FieldMapper :=
  match req_FieldMapper req with
  | Some m => m
  | None => DefaultFieldMapper
  end.

(** * Properties *)

(** ** Strings *)

Lemma length_append (a b : string) :
  String.length (a ++ b) = String.length a + String.length b.
Proof. induction a as [|c a IH]; simpl; [reflexivity | now rewrite IH]. Qed.

Lemma append_nil_r (a : string) : a ++ "" = a.
Proof. induction a as [|c a IH]; simpl; [reflexivity | now rewrite IH]. Qed.

Lemma append_assoc (a b c : string) : (a ++ b) ++ c = a ++ b ++ c.
Proof. induction a as [|x a IH]; simpl; [reflexivity | now rewrite IH]. Qed.

Lemma byte_at_append (pre : string) (c : ascii) (rest : string) :
  byte_at (pre ++ String c rest) (String.length pre) = c.
Proof.
  unfold byte_at. induction pre as [|x pre IH]; simpl; [reflexivity | exact IH].
Qed.

Lemma count_qm_append (a b : string) : count_qm (a ++ b) = count_qm a + count_qm b.
Proof. induction a as [|c a IH]; simpl; [reflexivity | rewrite IH; lia]. Qed.

(** The index loop of [countPlaceholders] computes [unescapedCount]: started
    at the end of [pre] with enough fuel it adds the count of the rest. *)
Lemma countLoop_unescaped (fuel : nat) :
  forall (pre s : string) (count : nat),
    String.length s <= fuel ->
    countLoop fuel (String.length pre) count (pre ++ s) = count + unescapedCount s.
Proof.
  induction fuel as [|fuel IH]; intros pre s count Hlen.
  - destruct s; simpl in Hlen; [simpl; lia | lia].
  - destruct s as [|c rest].
    + simpl. rewrite append_nil_r, Nat.ltb_irrefl. lia.
    + cbn [countLoop unescapedCount].
      assert (Hlt : Nat.ltb (String.length pre) (String.length (pre ++ String c rest)) = true).
      { apply Nat.ltb_lt. rewrite length_append. simpl. lia. }
      rewrite Hlt, byte_at_append.
      assert (Hstep : forall k, countLoop fuel (String.length pre + 1) k (pre ++ String c rest)
                                = k + unescapedCount rest).
      { intro k.
        replace (pre ++ String c rest) with ((pre ++ String c "") ++ rest)
          by (rewrite append_assoc; reflexivity).
        replace (String.length pre + 1) with (String.length (pre ++ String c ""))
          by (rewrite length_append; reflexivity).
        apply IH. simpl in Hlen. lia. }
      destruct (is_qm c) eqn:Hc.
      * destruct rest as [|c' rest'].
        -- replace (Nat.ltb (String.length pre + 1) (String.length (pre ++ String c "")))
             with false
             by (symmetry; apply Nat.ltb_ge; rewrite length_append; simpl; lia).
           simpl andb. cbv iota. rewrite Hstep. simpl. lia.
        -- replace (Nat.ltb (String.length pre + 1)
                            (String.length (pre ++ String c (String c' rest'))))
             with true
             by (symmetry; apply Nat.ltb_lt; rewrite length_append; simpl; lia).
           replace (byte_at (pre ++ String c (String c' rest')) (String.length pre + 1))
             with c'.
           2:{ replace (pre ++ String c (String c' rest'))
                 with ((pre ++ String c "") ++ String c' rest')
                 by (rewrite append_assoc; reflexivity).
               replace (String.length pre + 1) with (String.length (pre ++ String c ""))
                 by (rewrite length_append; reflexivity).
               now rewrite byte_at_append. }
           simpl andb. destruct (is_qm c') eqn:Hc'.
           ++ replace (pre ++ String c (String c' rest'))
                with ((pre ++ String c (String c' "")) ++ rest')
                by (rewrite append_assoc; reflexivity).
              replace (String.length pre + 2)
                with (String.length (pre ++ String c (String c' "")))
                by (rewrite length_append; reflexivity).
              apply IH. simpl in Hlen. lia.
           ++ rewrite Hstep. lia.
      * apply Hstep.
Qed.

Lemma unescapedCount_qm_qm (c c' : ascii) (r : string) :
  is_qm c = true -> is_qm c' = true ->
  unescapedCount (String c (String c' r)) = unescapedCount r.
Proof. intros Hc Hc'. cbn [unescapedCount]. now rewrite Hc, Hc'. Qed.

Lemma unescapedCount_qm_other (c c' : ascii) (r : string) :
  is_qm c = true -> is_qm c' = false ->
  unescapedCount (String c (String c' r)) = S (unescapedCount (String c' r)).
Proof. intros Hc Hc'. cbn [unescapedCount]. now rewrite Hc, Hc'. Qed.

Lemma unescapedCount_qm_end (c : ascii) :
  is_qm c = true -> unescapedCount (String c "") = 1.
Proof. intros Hc. cbn [unescapedCount]. now rewrite Hc. Qed.

Lemma unescapedCount_other (c : ascii) (r : string) :
  is_qm c = false -> unescapedCount (String c r) = unescapedCount r.
Proof. intros Hc. cbn [unescapedCount]. now rewrite Hc. Qed.

Lemma countPlaceholders_unescaped (sql : string) :
  countPlaceholders sql = unescapedCount sql.
Proof.
  unfold countPlaceholders.
  exact (@countLoop_unescaped (String.length sql) "" sql 0 (le_n _)).
Qed.

(** ** The fragment algebra *)

Lemma Expr_unescaped (sql : string) (args : list any) :
  Expr sql args =
  if Nat.eqb (unescapedCount sql) (List.length args)
  then Ok (expr sql args)
  else Panic (PanicExprArity (unescapedCount sql) (List.length args) sql).
Proof.
  unfold Expr. rewrite countPlaceholders_unescaped, (Nat.eqb_sym (List.length args)).
  reflexivity.
Qed.

(** C10. [Expr] builds the fragment exactly when the number of unescaped
    ['?'] of the template (a pair ["??"] counting for none) is the number of
    arguments; on any mismatch the constructor itself panics. *)
Theorem Expr_arity_fail_fast (sql : string) (args : list any) :
  Expr sql args =
  (if Nat.eqb (unescapedCount sql) (List.length args)
   then Ok (expr sql args)
   else Panic (PanicExprArity (unescapedCount sql) (List.length args) sql))
  /\ ((exists s, Expr sql args = Ok s) <-> unescapedCount sql = List.length args).
Proof.
  unfold Expr. rewrite countPlaceholders_unescaped.
  destruct (Nat.eqb_spec (List.length args) (unescapedCount sql)) as [E|E];
    destruct (Nat.eqb_spec (unescapedCount sql) (List.length args)) as [E'|E'];
    try congruence; split; try reflexivity; split; try congruence; eauto.
  intros [s Hs]. discriminate Hs.
Qed.

Lemma conjLoop_rendered (parts : list any) (outs : list (string * list any)) :
  Forall2 rendersTo parts outs ->
  forall sqlParts args,
    conjLoop (map ToSql_ parts) sqlParts args
    = Ok ((sqlParts ++ map fst outs)%list, (args ++ concat (map snd outs))%list).
Proof.
  induction 1 as [|p o parts outs [Hp Hne] _ IH]; intros sqlParts args; simpl.
  - now rewrite !app_nil_r.
  - rewrite Hp. apply String.eqb_neq in Hne. rewrite Hne, IH.
    now rewrite <- !app_assoc.
Qed.

(** C8, as the code has it.  Without parts [AndExpr] renders ["1 = 1"] and
    [OrExpr] ["1 = 0"], with no arguments.  With parts that render to
    non-empty texts, [OrExpr] joins them by [" OR "] inside parentheses;
    [AndExpr] joins them by [" AND "] and adds no parentheses. *)
Theorem conj_rendering (parts : list any) (outs : list (string * list any)) :
  Forall2 rendersTo parts outs ->
  ToSql_ (AndExpr parts)
  = Rendered (match outs with
              | [] => "1 = 1"
              | _ => Join (map fst outs) " AND "
              end) (concat (map snd outs))
  /\ ToSql_ (OrExpr parts)
     = Rendered (match outs with
                 | [] => "1 = 0"
                 | _ => "(" ++ Join (map fst outs) " OR " ++ ")"
                 end) (concat (map snd outs)).
Proof.
  intro H. pose proof (conjLoop_rendered parts outs H [] []) as Hloop. simpl in Hloop.
  destruct H as [|p o parts outs Hp Hrest].
  - split; reflexivity.
  - unfold AndExpr, OrExpr. cbn [ToSql_]. cbn [map] in Hloop |- *. rewrite Hloop.
    split; reflexivity.
Qed.

Lemma conj_rendering_witness :
  ToSql_ (AndExpr [expr "a = ?" [Int64 1]; expr "b = ?" [Int64 2]])
  = Rendered "a = ? AND b = ?" [Int64 1; Int64 2]
  /\ ToSql_ (OrExpr [expr "a = ?" [Int64 1]; expr "b = ?" [Int64 2]])
     = Rendered "(a = ? OR b = ?)" [Int64 1; Int64 2].
Proof.
  apply (@conj_rendering [expr "a = ?" [Int64 1]; expr "b = ?" [Int64 2]]
                         [("a = ?", [Int64 1]); ("b = ?", [Int64 2])]).
  repeat constructor; simpl; discriminate.
Defined.

(** C8 as stated fails: the binary [AndExpr] of [a] and [b] is not rendered
    in parentheses. *)
Lemma AndExpr_binary_not_parenthesized :
  ToSql_ (AndExpr [expr "a" []; expr "b" []]) = Rendered "a AND b" []
  /\ ToSql_ (AndExpr [expr "a" []; expr "b" []]) <> Rendered "(a AND b)" [].
Proof. split; [reflexivity | discriminate]. Qed.

(** ** Short-circuit of [And] and [Or] *)

Lemma And_true_left (r : result) : And (concrete (VBoolean true)) r = Ok r.
Proof. reflexivity. Qed.

Lemma And_true_right (s : any) :
  And (fragment s) (concrete (VBoolean true)) = Ok (fragment s).
Proof. reflexivity. Qed.

Lemma Or_false_left (r : result) : Or (concrete (VBoolean false)) r = Ok r.
Proof. reflexivity. Qed.

Lemma Or_false_right (s : any) :
  Or (fragment s) (concrete (VBoolean false)) = Ok (fragment s).
Proof. reflexivity. Qed.

Lemma And_type_error (v : Value) (s : any) :
  (forall b, v <> VBoolean b) ->
  And (concrete v) (fragment s) = Err (ErrType "Boolean")
  /\ And (fragment s) (concrete v) = Err (ErrType "Boolean")
  /\ Or (concrete v) (fragment s) = Err (ErrType "Boolean")
  /\ Or (fragment s) (concrete v) = Err (ErrType "Boolean").
Proof.
  intro Hv. destruct v; try (repeat split; reflexivity).
  exfalso. eapply Hv. reflexivity.
Qed.

(** C7, the absorbing operands.  With a fragment on the other side,
    [And] of a concrete [false] and [Or] of a concrete [true] do not return
    the concrete value: they build a conjunction over the nil [sqlizer] of
    the concrete side, and rendering it dereferences nil. *)
Theorem absorbing_operand_builds_nil_part (s : any) :
  And (concrete (VBoolean false)) (fragment s) = Ok (fragment (AndExpr [Nil; s]))
  /\ And (fragment s) (concrete (VBoolean false)) = Ok (fragment (AndExpr [s; Nil]))
  /\ Or (concrete (VBoolean true)) (fragment s) = Ok (fragment (OrExpr [Nil; s]))
  /\ Or (fragment s) (concrete (VBoolean true)) = Ok (fragment (OrExpr [s; Nil]))
  /\ result_ToSql (fragment (AndExpr [Nil; s])) = Crashed PanicNilDeref
  /\ result_ToSql (fragment (OrExpr [Nil; s])) = Crashed PanicNilDeref
  /\ ToSql Demo.lib (Demo.env Demo.bob) (Some DefaultFieldMapper)
           (NodeTypeAnd ast_False
                        (NodeTypeEquals (Demo.resource_attr "owner") (NodeValue Demo.bob)))
     = Crashed PanicNilDeref.
Proof. repeat split; reflexivity. Qed.

(** C6, the operators.  [Contains] renders [?]; [ContainsAll] renders [?|]
    and [ContainsAny] renders [?&], the reverse of [getBinaryFields] and of
    the specification. *)
Theorem containsAll_containsAny_operators :
  let tags := Demo.resource_attr "tags" in
  let wanted := NodeValue (VSet [VString "a"; VString "b"]) in
  let run := ToSql Demo.lib (Demo.env Demo.bob) (Some DefaultFieldMapper) in
  run (NodeTypeContains tags (NodeValue (VString "a")))
  = Rendered "resource.tags ? ?" [Str "a"]
  /\ run (NodeTypeContainsAll tags wanted)
     = Rendered "resource.tags ?| ?" [Slice [Str "a"; Str "b"]]
  /\ run (NodeTypeContainsAny tags wanted)
     = Rendered "resource.tags ?& ?" [Slice [Str "a"; Str "b"]]
  /\ getBinaryFields_op KContainsAll = "??&"
  /\ getBinaryFields_op KContainsAny = "??|".
Proof. repeat split; reflexivity. Qed.

Lemma JsonCompareText_concrete_left (v : Value) (right : result) (exprStr : string) :
  JsonCompareText (concrete v) right exprStr = Err ErrJsonLeft.
Proof. reflexivity. Qed.

(** ** The policy combiner *)

Section CombinerFacts.

Variable lib : Cedar.
Variable env : Env (EntityGetter lib).

Lemma classifyStep_forbids (b b' : buckets) (pid : PolicyID) (p : Policy lib) :
  classifyStep lib env b pid p = Ok b' ->
  forbids b <> [] -> forbids b' <> [].
Proof.
  unfold classifyStep. destruct (partial lib env (AST p)) as [[sat rem]| |]; simpl;
    try discriminate.
  destruct sat, rem, (Effect_ p); simpl; intros [= <-]; simpl; auto;
    intros Hne Happ; apply app_eq_nil in Happ; tauto.
Qed.

Lemma classifyStep_satisfied_forbid (b b' : buckets) (pid : PolicyID) (p : Policy lib) :
  Effect_ p = Forbid ->
  partial lib env (AST p) = Ok (true, None) ->
  classifyStep lib env b pid p = Ok b' ->
  forbids b' <> [].
Proof.
  unfold classifyStep. intros -> ->. simpl. intros [= <-]. simpl.
  intro Happ. apply app_eq_nil in Happ. destruct Happ; discriminate.
Qed.

Lemma classify_forbids (policies : list (PolicyID * Policy lib)) :
  forall b b', classify lib env policies b = Ok b' ->
               forbids b <> [] -> forbids b' <> [].
Proof.
  induction policies as [|[pid p] rest IH]; simpl; intros b b'.
  - now intros [= <-].
  - destruct (classifyStep lib env b pid p) as [b1| |] eqn:Hstep; simpl; try discriminate.
    intros Hrest Hne. eapply IH; [exact Hrest|].
    eapply classifyStep_forbids; eauto.
Qed.

Lemma classify_satisfied_forbid (policies : list (PolicyID * Policy lib))
      (pid : PolicyID) (p : Policy lib) :
  In (pid, p) policies ->
  Effect_ p = Forbid ->
  partial lib env (AST p) = Ok (true, None) ->
  forall b b', classify lib env policies b = Ok b' -> forbids b' <> [].
Proof.
  intros Hin Heff Hsat.
  induction policies as [|[pid0 p0] rest IH]; [destruct Hin|].
  simpl. intros b b'.
  destruct (classifyStep lib env b pid0 p0) as [b1| |] eqn:Hstep; simpl; try discriminate.
  intro Hrest. destruct Hin as [Heq | Hin].
  - injection Heq as -> ->.
    eapply classify_forbids; [exact Hrest|].
    eapply classifyStep_satisfied_forbid; eauto.
  - eapply IH; eauto.
Qed.

(** The loop fails only if [partial] fails on some policy. *)
Lemma classify_total (policies : list (PolicyID * Policy lib)) :
  (forall pid p, In (pid, p) policies -> exists sn, partial lib env (AST p) = Ok sn) ->
  forall b, exists b', classify lib env policies b = Ok b'.
Proof.
  induction policies as [|[pid p] rest IH]; intros Hok b; simpl.
  - now exists b.
  - destruct (Hok pid p (or_introl eq_refl)) as [[sat rem] Hsn].
    assert (Hstep : exists b1, classifyStep lib env b pid p = Ok b1).
    { unfold classifyStep. rewrite Hsn. simpl.
      destruct rem, (Effect_ p); eexists; reflexivity. }
    destruct Hstep as [b1 ->]. simpl.
    apply IH. intros pid' p' Hin. apply (Hok pid' p'). now right.
Qed.

Lemma finalNode_forbid_satisfied (b : buckets) :
  forbids b <> [] -> finalNode b = ast_False.
Proof. unfold finalNode. destruct (forbids b); [congruence | reflexivity]. Qed.

(** A satisfied permit decides alone once no forbid is satisfied: the
    forbid remainders are not looked at. *)
Lemma finalNode_permit_satisfied (b : buckets) :
  forbids b = [] -> permits b <> [] -> finalNode b = ast_True.
Proof.
  unfold finalNode. intros ->. destruct (permits b); [congruence | reflexivity].
Qed.

Lemma ToSql_False (mapper : option FieldMapper) :
  ToSql lib env mapper ast_False = Rendered "1 = 0" [].
Proof. reflexivity. Qed.

Lemma ToSql_True (mapper : option FieldMapper) :
  ToSql lib env mapper ast_True = Rendered "1 = 1" [].
Proof. reflexivity. Qed.

End CombinerFacts.

(** C1. Deny overrides: when partial evaluation goes through for every policy
    of the set and some forbid policy is satisfied outright, [AuthorizeSQL]
    returns ["1 = 0"] with no argument and no error, whatever the permits. *)
Theorem AuthorizeSQL_deny_overrides
        (lib : Cedar) (policies : list (PolicyID * Policy lib))
        (entities : EntityGetter lib) (req : AuthorizeSQLRequest)
        (pid : PolicyID) (p : Policy lib) :
  (forall pid' p', In (pid', p') policies ->
                   exists sn, partial lib (requestEnv lib entities req) (AST p') = Ok sn) ->
  In (pid, p) policies ->
  Effect_ p = Forbid ->
  partial lib (requestEnv lib entities req) (AST p) = Ok (true, None) ->
  AuthorizeSQL lib policies entities req = Rendered "1 = 0" [].
Proof.
  intros Hok Hin Heff Hsat. unfold AuthorizeSQL.
  destruct (classify_total lib (requestEnv lib entities req) policies Hok emptyBuckets)
    as [b Hb].
  rewrite Hb.
  rewrite (finalNode_forbid_satisfied b
             (classify_satisfied_forbid lib _ policies pid p Hin Heff Hsat _ _ Hb)).
  apply ToSql_False.
Qed.

Lemma AuthorizeSQL_deny_overrides_witness :
  AuthorizeSQL Demo.lib
    [("policy0", Demo.permit (Demo.Residual ast_True));
     ("policy1", Demo.permit (Demo.Residual (Demo.resource_attr "is_public")));
     ("policy2", Demo.forbid (Demo.Residual ast_True))]
    tt (Demo.request Demo.bob)
  = Rendered "1 = 0" [].
Proof.
  apply (AuthorizeSQL_deny_overrides Demo.lib _ tt (Demo.request Demo.bob)
           "policy2" (Demo.forbid (Demo.Residual ast_True))).
  - intros pid' p' Hin. simpl in Hin.
    destruct Hin as [H | [H | [H | []]]]; injection H as _ <-; eexists; reflexivity.
  - simpl. right. right. left. reflexivity.
  - reflexivity.
  - reflexivity.
Defined.

(** C2, the satisfied permit next to a forbid remainder.  With one permit
    satisfied outright and one forbid left as a remainder, the result is
    ["1 = 1"]: the forbid remainder is dropped.  The same forbid next to a
    permit remainder is negated into the result. *)
Theorem permit_satisfied_drops_forbid_remainder :
  let secret := NodeTypeEquals (Demo.resource_attr "is_public") (NodeValue (VBoolean true)) in
  let own := NodeTypeEquals (Demo.resource_attr "owner") (NodeValue Demo.bob) in
  AuthorizeSQL Demo.lib
    [("policy0", Demo.permit (Demo.Residual ast_True));
     ("policy1", Demo.forbid (Demo.Residual secret))]
    tt (Demo.request Demo.bob)
  = Rendered "1 = 1" []
  /\ AuthorizeSQL Demo.lib
       [("policy0", Demo.permit (Demo.Residual own));
        ("policy1", Demo.forbid (Demo.Residual secret))]
       tt (Demo.request Demo.bob)
     = Rendered "document.owner = ? AND NOT (document.is_public = ?)"
                [Str "bob"; GoBool true].
Proof. split; reflexivity. Qed.

(** C4, with a forbid remainder.  One forbid policy left as a remainder and
    no permit at all: the residual is [(true && false) && !(false || f)],
    [And] puts the nil [sqlizer] of the concrete [false] in a conjunction,
    and rendering it dereferences nil.  Without any remainder the result is
    ["1 = 0"]. *)
Theorem forbid_remainder_without_permit_crashes :
  let secret := NodeTypeEquals (Demo.resource_attr "is_public") (NodeValue (VBoolean true)) in
  AuthorizeSQL Demo.lib
    [("policy0", Demo.forbid (Demo.Residual secret))]
    tt (Demo.request Demo.bob)
  = Crashed PanicNilDeref
  /\ AuthorizeSQL Demo.lib
       [("policy0", Demo.permit Demo.Dropped); ("policy1", Demo.forbid Demo.Dropped)]
       tt (Demo.request Demo.bob)
     = Rendered "1 = 0" [].
Proof. split; reflexivity. Qed.

(** Nothing satisfied and nothing left: the residual that is reduced. *)
Lemma finalNode_all_dropped :
  finalNode emptyBuckets
  = NodeTypeAnd (NodeTypeAnd ast_True ast_False) (NodeTypeNot ast_False).
Proof. reflexivity. Qed.

(** C3. Scenario S2: four policies, principal [bob], authenticated context,
    [docMapper].  Partial evaluation keeps of the first permit the residual
    [resource.owner == User::"bob" || resource.is_public == true] and drops
    the admin permit, the unauthenticated permit and the forbid; the
    evaluator answers the unknown resource by its sentinel and negates the
    constant [false].  Then [AuthorizeSQL] returns the owner-or-public
    disjunction over the [document] columns with arguments ["bob"], [true]. *)
Theorem AuthorizeSQL_S2
        (lib : Cedar) (entities : EntityGetter lib)
        (id0 id1 id2 id3 : PolicyID)
        (ownerPermit adminPermit guestPermit blockedForbid kept : astPolicy lib) :
  let req := Demo.request Demo.bob in
  let env := requestEnv lib entities req in
  PartialPolicy lib env ownerPermit = Some kept ->
  PolicyToNode lib kept = ownerOrPublic Demo.bob ->
  PartialPolicy lib env adminPermit = None ->
  PartialPolicy lib env guestPermit = None ->
  PartialPolicy lib env blockedForbid = None ->
  eval_Eval lib (NodeTypeVariable "resource") env = Ok (eval_Variable "resource") ->
  eval_Eval lib (NodeTypeNot (NodeValue (VBoolean false))) env = Ok (VBoolean true) ->
  AuthorizeSQL lib
    [(id0, mkPolicy lib Permit ownerPermit);
     (id1, mkPolicy lib Permit adminPermit);
     (id2, mkPolicy lib Permit guestPermit);
     (id3, mkPolicy lib Forbid blockedForbid)]
    entities req
  = Rendered "(document.owner = ? OR document.is_public = ?)" [Str "bob"; GoBool true].
Proof.
  intros req env Hkeep Hnode Hadmin Hguest Hblocked Hres Hnot.
  unfold AuthorizeSQL. cbv zeta.
  change (requestEnv lib entities req) with env.
  change (req_FieldMapper req) with (Some Demo.docMapper).
  clearbody env. clear req.
  assert (Hclass :
            classify lib env
              [(id0, mkPolicy lib Permit ownerPermit);
               (id1, mkPolicy lib Permit adminPermit);
               (id2, mkPolicy lib Permit guestPermit);
               (id3, mkPolicy lib Forbid blockedForbid)] emptyBuckets
            = Ok (mkBuckets [] [] [(id0, ownerOrPublic Demo.bob)] [])).
  { cbn [classify]. unfold classifyStep, partial. cbn [AST Effect_].
    rewrite Hkeep, Hnode, Hadmin, Hguest, Hblocked. reflexivity. }
  rewrite Hclass.
  unfold ToSql, finalNode, ownerOrPublic.
  cbn [forbids permits permitsRemains forbidsRemains map snd fold_left orInto andInto
       toSqlOrValue toSqlBinary toAccess toSqlNot toSqlVariable NodeTypeAnd NodeTypeOr
       NodeTypeEquals ast_True ast_False].
  unfold NodeTypeAnd, NodeTypeOr, NodeTypeEquals, ast_True, ast_False.
  repeat (unfold toSqlBinary, toAccess, toSqlNot, toSqlVariable; cbn [toSqlOrValue]).
  rewrite Hres. cbn. rewrite Hnot.
  reflexivity.
Qed.

Lemma AuthorizeSQL_S2_witness :
  AuthorizeSQL Demo.lib
    [("policy0", Demo.permit (Demo.Residual (ownerOrPublic Demo.bob)));
     ("policy1", Demo.permit Demo.Dropped);
     ("policy2", Demo.permit Demo.Dropped);
     ("policy3", Demo.forbid Demo.Dropped)]
    tt (Demo.request Demo.bob)
  = Rendered "(document.owner = ? OR document.is_public = ?)" [Str "bob"; GoBool true].
Proof.
  apply (AuthorizeSQL_S2 Demo.lib tt "policy0" "policy1" "policy2" "policy3"
           (Demo.Residual (ownerOrPublic Demo.bob)) Demo.Dropped Demo.Dropped Demo.Dropped
           (Demo.Residual (ownerOrPublic Demo.bob)));
    reflexivity.
Defined.

(** ** What the reducer's fragments render to *)

Lemma bind_Ok {A B : Type} (m : res A) (k : A -> res B) (b : B) :
  bind m k = Ok b -> exists a, m = Ok a /\ k a = Ok b.
Proof. destruct m; simpl; try discriminate. intro H. eauto. Qed.

Ltac bind_inv :=
  repeat match goal with
         | H : bind ?m ?k = Ok _ |- _ =>
             let a := fresh "a" in
             let Ha := fresh "Ha" in
             apply bind_Ok in H; destruct H as (a & Ha & H)
         | H : Ok _ = Ok _ |- _ => injection H as H; try subst
         | H : Err _ = Ok _ |- _ => discriminate H
         | H : Panic _ = Ok _ |- _ => discriminate H
         end.

Lemma Expr_Ok (sql : string) (args : list any) (s : any) :
  Expr sql args = Ok s ->
  s = expr sql args /\ unescapedCount sql = List.length args.
Proof.
  rewrite Expr_unescaped.
  destruct (Nat.eqb (unescapedCount sql) (List.length args)) eqn:E; [|discriminate].
  intros [= <-]. split; [reflexivity | now apply Nat.eqb_eq].
Qed.

Lemma scalar_not_rendered (a : any) : scalar a -> sound a.
Proof.
  unfold scalar. intro Ha.
  split; [intros sql args e | intros sql args];
    destruct a; simpl in *; try discriminate.
Qed.

Lemma Forall_scalar_app (l1 l2 : list any) :
  Forall scalar l1 -> Forall scalar l2 -> Forall scalar (l1 ++ l2)%list.
Proof. intros H1 H2. apply Forall_app. now split. Qed.

(** The loop of [expr.ToSql] under the arity that [Expr] checked: no error
    if no consumed fragment gives one, and only bind values come out. *)
Lemma exprLoop_sound (n : nat) :
  forall (sp : string) (ap : list any) (buf : string) (args : list any),
    String.length sp <= n ->
    unescapedCount sp = List.length ap ->
    (forall a, In a ap -> isSqlizer a = true -> sound a) ->
    Forall scalar args ->
    match exprLoop sp (prerender ap) buf args with
    | Rendered _ out => Forall scalar out
    | Failed _ _ _ => False
    | Crashed _ => True
    end.
Proof.
  induction n as [|n IH]; intros sp ap buf args Hlen Hcount Hap Hargs.
  - destruct sp; [|simpl in Hlen; lia].
    destruct ap; simpl in *; [assumption | discriminate].
  - destruct ap as [|a ap'].
    + destruct sp; simpl; assumption.
    + destruct sp as [|c rest]; [simpl in Hcount; discriminate|].
      cbn [prerender map exprLoop]. fold (prerender ap').
      assert (Hconsume :
                unescapedCount rest = List.length ap' ->
                match
                  (if isSqlizer a
                   then match ToSql_ a with
                        | Rendered isql iargs =>
                            exprLoop rest (prerender ap') (buf ++ isql) (args ++ iargs)
                        | Failed isql iargs e =>
                            Failed (buf ++ isql ++ rest)
                                   ((args ++ iargs) ++ map fst (prerender ap')) e
                        | Crashed p => Crashed p
                        end
                   else exprLoop rest (prerender ap') (buf ++ "?") (args ++ [a]))
                with
                | Rendered _ out => Forall scalar out
                | Failed _ _ _ => False
                | Crashed _ => True
                end).
      { intro Hrest.
        assert (Hap' : forall x, In x ap' -> isSqlizer x = true -> sound x)
          by (intros x Hx; apply Hap; now right).
        destruct (isSqlizer a) eqn:Hsq.
        - destruct (Hap a (or_introl eq_refl) Hsq) as [Hnf Hsc].
          destruct (ToSql_ a) as [isql iargs | isql iargs e | p] eqn:Ha.
          + apply IH; auto; [simpl in Hlen; lia|].
            apply Forall_scalar_app; eauto.
          + exact (Hnf _ _ _ Ha).
          + exact I.
        - apply IH; auto; [simpl in Hlen; lia|].
          apply Forall_scalar_app; auto. }
      simpl in Hlen.
      destruct (is_qm c) eqn:Hc.
      * destruct rest as [|c' rest'].
        -- apply Hconsume. rewrite (unescapedCount_qm_end c Hc) in Hcount.
           simpl in *. lia.
        -- destruct (is_qm c') eqn:Hc'.
           ++ rewrite (unescapedCount_qm_qm c c' rest' Hc Hc') in Hcount.
              apply (IH rest' (a :: ap')); auto. simpl in Hlen. lia.
           ++ rewrite (unescapedCount_qm_other c c' rest' Hc Hc') in Hcount.
              apply Hconsume. cbn [List.length] in Hcount. lia.
      * rewrite (unescapedCount_other c rest Hc) in Hcount.
        apply (IH rest (a :: ap')); auto. lia.
Qed.

Lemma expr_sound (sql : string) (args : list any) :
  unescapedCount sql = List.length args ->
  (forall a, In a args -> isSqlizer a = true -> sound a) ->
  sound (expr sql args).
Proof.
  intros Hcount Hargs.
  pose proof (exprLoop_sound (String.length sql) sql args "" [] (le_n _) Hcount Hargs
                             (Forall_nil _)) as Hloop.
  fold (prerender args) in Hloop.
  split; [intros out oargs e | intros out oargs]; cbn [ToSql_];
    fold (prerender args);
    destruct (forallb (fun a => negb (isSqlizer a)) args) eqn:Hsimple.
  - discriminate.
  - intro H. rewrite H in Hloop. exact Hloop.
  - intros [= <- <-]. apply Forall_forall. intros a Ha.
    rewrite forallb_forall in Hsimple. specialize (Hsimple a Ha).
    unfold scalar. now destruct (isSqlizer a).
  - intro H. rewrite H in Hloop. exact Hloop.
Qed.

Lemma Expr_sound (sql : string) (args : list any) (s : any) :
  Expr sql args = Ok s ->
  (forall a, In a args -> isSqlizer a = true -> sound a) ->
  sound s /\ isSqlizer s = true.
Proof.
  intros H Hargs. apply Expr_Ok in H. destruct H as [-> Hcount].
  split; [now apply expr_sound | reflexivity].
Qed.

Lemma conjLoop_sound (parts : list any) :
  (forall p, In p parts -> sound p) ->
  forall sqlParts args,
    Forall scalar args ->
    match conjLoop (map ToSql_ parts) sqlParts args with
    | Ok (_, out) => Forall scalar out
    | Err _ => False
    | Panic _ => True
    end.
Proof.
  induction parts as [|p parts IH]; intros Hparts sqlParts args Hargs; simpl.
  - assumption.
  - destruct (Hparts p (or_introl eq_refl)) as [Hnf Hsc].
    assert (Hrest : forall q, In q parts -> sound q) by (intros q Hq; apply Hparts; now right).
    destruct (ToSql_ p) as [psql pargs | psql pargs e | q] eqn:Hp.
    + destruct (String.eqb psql "").
      * now apply IH.
      * apply IH; auto. apply Forall_scalar_app; eauto.
    + exact (Hnf _ _ _ Hp).
    + exact I.
Qed.

Lemma conj_sound (parts : list any) (sep defaultExpr : string) :
  (forall p, In p parts -> sound p) ->
  sound (conj parts sep defaultExpr).
Proof.
  intro Hparts.
  pose proof (conjLoop_sound parts Hparts [] [] (Forall_nil _)) as Hloop.
  split; [intros sql args e | intros sql args]; cbn [ToSql_];
    destruct parts as [|p parts]; try discriminate.
  - destruct (conjLoop (map ToSql_ (p :: parts)) [] []) as [[sqlParts out]|e'|q];
      [|contradiction|discriminate].
    destruct sqlParts; [discriminate|]. destruct (String.eqb sep AndSep); discriminate.
  - intros [= <- <-]. constructor.
  - destruct (conjLoop (map ToSql_ (p :: parts)) [] []) as [[sqlParts out]|e'|q];
      [|contradiction|discriminate].
    destruct sqlParts; [now intros [= <- <-]|].
    destruct (String.eqb sep AndSep); now intros [= <- <-].
Qed.

Lemma part_sound (p : string) (args : list any) :
  Forall scalar args -> sound (part (Str p) args).
Proof.
  intro Hargs. split; [intros sql oargs e | intros sql oargs]; simpl.
  - discriminate.
  - now intros [= <- <-].
Qed.

Lemma Nil_sound : sound Nil.
Proof. apply scalar_not_rendered. reflexivity. Qed.

Lemma ValueToGoValue_scalar (v : Value) (a : any) :
  ValueToGoValue v = Ok a -> scalar a.
Proof.
  destruct v; simpl; intro H; bind_inv; try reflexivity.
Qed.

Lemma valueToResult_sound (iv : bool) (v : Value) (s : any) (r : result) :
  valueToResult iv v s = Ok r ->
  sound s -> (iv = false -> isSqlizer s = true) ->
  soundResult r.
Proof.
  unfold valueToResult. intros H Hs Hiv.
  destruct (ToVariable v) as [name|].
  - bind_inv. apply Expr_sound in Ha; [|intros a0 []].
    destruct Ha as [Hsound Hsq]. split; simpl; auto.
  - bind_inv. split; simpl; auto.
Qed.

Lemma valueToResult_value_sound (v : Value) (r : result) :
  valueToResult true v Nil = Ok r -> soundResult r.
Proof.
  intro H. eapply valueToResult_sound; [exact H | apply Nil_sound | discriminate].
Qed.

Lemma valueToResult_fragment_sound (s : any) (r : result) :
  valueToResult false VNil s = Ok r ->
  sound s -> isSqlizer s = true -> soundResult r.
Proof. intros H Hs Hsq. eapply valueToResult_sound; eauto. Qed.

Lemma Expr_fragment_sound (sql : string) (args : list any) (s : any) (r : result) :
  Expr sql args = Ok s ->
  valueToResult false VNil s = Ok r ->
  (forall a, In a args -> isSqlizer a = true -> sound a) ->
  soundResult r.
Proof.
  intros HE Hr Hargs. destruct (Expr_sound _ _ _ HE Hargs) as [Hs Hsq].
  eapply valueToResult_fragment_sound; eauto.
Qed.

Ltac sound_args :=
  let a := fresh "a" in
  let Hin := fresh "Hin" in
  let Hsq := fresh "Hsq" in
  intros a Hin Hsq; simpl in Hin;
  repeat match goal with
         | H : _ \/ _ |- _ => destruct H
         | H : False |- _ => destruct H
         end;
  subst;
  try match goal with
      | H : ValueToGoValue _ = Ok ?x, Hs : isSqlizer ?x = true |- _ =>
          apply ValueToGoValue_scalar in H; unfold scalar in H; congruence
      | H : Arg _ = Ok ?x, Hs : isSqlizer ?x = true |- _ =>
          apply ValueToGoValue_scalar in H; unfold scalar in H; congruence
      end;
  try match goal with
      | H : soundResult ?r |- sound (sqlizer ?r) => exact (proj1 H)
      end.

Lemma And_sound (l r res : result) :
  And l r = Ok res -> soundResult l -> soundResult r -> soundResult res.
Proof.
  unfold And. intros H Hl Hr. bind_inv.
  assert (Hconj : forall x, valueToResult false VNil (AndExpr [sqlizer l; sqlizer r]) = Ok x ->
                            soundResult x).
  { intros x Hx. eapply valueToResult_fragment_sound; [exact Hx | | reflexivity].
    apply conj_sound. intros p [<- | [<- | []]]; [apply Hl | apply Hr]. }
  destruct a; [now bind_inv|].
  destruct (isValue r); [|auto].
  bind_inv. destruct a; [now bind_inv | auto].
Qed.

Lemma Or_sound (l r res : result) :
  Or l r = Ok res -> soundResult l -> soundResult r -> soundResult res.
Proof.
  unfold Or. intros H Hl Hr. bind_inv.
  destruct a; [now bind_inv|].
  bind_inv. destruct a; [now bind_inv|].
  eapply valueToResult_fragment_sound; [exact H | | reflexivity].
  apply conj_sound. intros p [<- | [<- | []]]; [apply Hl | apply Hr].
Qed.

Lemma Compare_sound (l r res : result) (exprStr : string) :
  Compare l r exprStr = Ok res -> soundResult l -> soundResult r -> soundResult res.
Proof.
  unfold Compare. intros H Hl Hr.
  destruct (isValue l); [|destruct (isValue r)]; bind_inv;
    (eapply Expr_fragment_sound; [eassumption | eassumption | sound_args]).
Qed.

Lemma JsonCompareText_sound (l r res : result) (exprStr : string) :
  JsonCompareText l r exprStr = Ok res -> soundResult l -> soundResult r -> soundResult res.
Proof.
  unfold JsonCompareText. intros H Hl Hr.
  destruct (isValue l); [discriminate|destruct (isValue r)]; bind_inv;
    (eapply Expr_fragment_sound; [eassumption | eassumption | sound_args]).
Qed.

Lemma binaryDispatch_sound (k : BinKind) (l r res : result) :
  binaryDispatch k l r = Ok res -> soundResult l -> soundResult r -> soundResult res.
Proof.
  destruct k; simpl; eauto using And_sound, Or_sound, Compare_sound, JsonCompareText_sound.
Qed.

Lemma concatLoop_sqlizer (s : any) (rs : rendering) (rest : list (any * rendering))
      (sql : string) (args : list any) :
  isSqlizer s = true ->
  concatLoop ((s, rs) :: rest) sql args
  = match rs with
    | Rendered pSql pArgs => concatLoop rest (sql ++ pSql) (args ++ pArgs)
    | Failed _ _ e => Failed "" [] e
    | Crashed q => Crashed q
    end.
Proof. destruct s; simpl; try discriminate; reflexivity. Qed.

(** The dotted path under a fragment: the text of the fragment, a dot and
    the field, mapped; the arguments are those of the fragment. *)
Lemma mappedPath_inv (mapper : option FieldMapper) (s : any) (field : string)
      (sa : string * list any) :
  mappedPath mapper s field = Ok sa ->
  isSqlizer s = true ->
  exists asql,
    ToSql_ s = Rendered asql (snd sa)
    /\ match mapper with
       | Some m => m (asql ++ "." ++ field) = Ok (fst sa)
       | None => fst sa = asql ++ "." ++ field
       end.
Proof.
  unfold mappedPath, ConcatExpr. intros H Hsq.
  change (ToSql_ (concatExpr [s; Str "."; CedarStr field]))
    with (concatLoop [(s, ToSql_ s); (Str ".", ToSql_ (Str "."));
                      (CedarStr field, ToSql_ (CedarStr field))] "" []) in H.
  rewrite (concatLoop_sqlizer s _ _ _ _ Hsq) in H.
  destruct (ToSql_ s) as [asql aargs | | ]; simpl in H; try discriminate.
  exists asql.
  destruct mapper as [m|]; bind_inv.
  - simpl. rewrite append_assoc in Ha. auto.
  - simpl. rewrite append_assoc. auto.
Qed.

Section ReducerSound.

Variable lib : Cedar.
Variable env : Env (EntityGetter lib).
Variable mapper : option FieldMapper.

Lemma toSqlOrValue_sound (node : Node) :
  forall r, toSqlOrValue lib env mapper node = Ok r -> soundResult r.
Proof.
  induction node; intros r H; cbn [toSqlOrValue] in H;
    try (unfold evalOnly, toSqlVariable in H; bind_inv;
         eapply valueToResult_value_sound; eassumption).
  - (* Access *)
    unfold toAccess in H. bind_inv. specialize (IHnode _ Ha).
    destruct (isValue a) eqn:Hv; bind_inv.
    + eapply valueToResult_value_sound; eassumption.
    + destruct IHnode as [[_ Hsc] Hsq].
      destruct (mappedPath_inv _ _ _ _ Ha0 (Hsq Hv)) as (asql & Hr & _).
      eapply valueToResult_fragment_sound; [eassumption | | reflexivity].
      apply part_sound. eapply Hsc; eassumption.
  - (* Has *)
    unfold toSqlHas in H. bind_inv. specialize (IHnode _ Ha).
    destruct (isValue a) eqn:Hv; bind_inv.
    + eapply valueToResult_value_sound; eassumption.
    + destruct IHnode as [[_ Hsc] Hsq].
      destruct (mappedPath_inv _ _ _ _ Ha0 (Hsq Hv)) as (asql & Hr & _).
      assert (Hinner : sound a1 /\ isSqlizer a1 = true).
      { apply (Expr_sound _ _ _ Ha1).
        intros x Hx Hxs. specialize (Hsc _ _ Hr).
        rewrite Forall_forall in Hsc. specialize (Hsc x Hx).
        unfold scalar in Hsc. congruence. }
      apply (Expr_fragment_sound _ _ _ _ Ha2 H).
      intros x [<- | []] _. apply Hinner.
  - (* Not *)
    unfold toSqlNot in H. bind_inv. specialize (IHnode _ Ha).
    destruct (isValue a) eqn:Hv; bind_inv.
    + eapply valueToResult_value_sound; eassumption.
    + eapply Expr_fragment_sound; [eassumption | eassumption | sound_args].
  - (* IsEmpty *)
    unfold toSqlEmpty in H. bind_inv. specialize (IHnode _ Ha).
    destruct (isValue a) eqn:Hv; bind_inv.
    + eapply valueToResult_value_sound; eassumption.
    + eapply Expr_fragment_sound; [eassumption | eassumption | sound_args].
  - (* Binary *)
    unfold toSqlBinary in H. bind_inv.
    specialize (IHnode1 _ Ha). specialize (IHnode2 _ Ha0).
    destruct (isValue a && isValue a0); bind_inv.
    + eapply valueToResult_value_sound; eassumption.
    + eapply binaryDispatch_sound; eassumption.
  - (* In *)
    unfold toSqlIn in H. bind_inv.
    specialize (IHnode1 _ Ha). specialize (IHnode2 _ Ha0).
    destruct (isValue a && isValue a0); bind_inv.
    + eapply valueToResult_value_sound; eassumption.
    + destruct (isValue a); [|destruct (isValue a0)]; bind_inv;
        (eapply Expr_fragment_sound; [eassumption | eassumption | sound_args]).
  - (* ExtensionCall *)
    destruct (ToPartialError lib (NodeTypeExtensionCall name args)); [discriminate|].
    unfold evalOnly in H. bind_inv. eapply valueToResult_value_sound; eassumption.
Qed.

End ReducerSound.

(** A fragment whose rendering fails gives back what it had built: the
    fragment algebra alone does return text next to an error. *)
Example expr_keeps_text_on_error :
  ToSql_ (expr "a = ? AND b" [part (Int64 1) []]) = Failed "a =  AND b" [] ErrPartPred.
Proof. reflexivity. Qed.

Lemma ToSql_failed_empty (lib : Cedar) (env : Env (EntityGetter lib))
      (mapper : option FieldMapper) (node : Node)
      (sql : string) (args : list any) (e : error) :
  ToSql lib env mapper node = Failed sql args e -> sql = "" /\ args = [].
Proof.
  unfold ToSql.
  destruct (toSqlOrValue lib env mapper node) as [r| |] eqn:Hr.
  - destruct (isValue r).
    + destruct (ValueToType_Boolean (value r)) as [[|]| |]; try discriminate.
      now intros [= <- <- _].
    + intro H. destruct (toSqlOrValue_sound lib env mapper node r Hr) as [[Hnf _] _].
      destruct (Hnf _ _ _ H).
  - now intros [= <- <- _].
  - discriminate.
Qed.

(** C9. An error of [ToSql] or of [AuthorizeSQL] comes with the empty text
    and no argument: the fragments that the reducer builds never fail while
    they render, so every error is one that the reducer or the policy loop
    returned itself. *)
Theorem failure_is_total
        (lib : Cedar) (env : Env (EntityGetter lib)) (mapper : option FieldMapper)
        (node : Node) (policies : list (PolicyID * Policy lib))
        (entities : EntityGetter lib) (req : AuthorizeSQLRequest)
        (sql : string) (args : list any) (e : error) :
  ToSql lib env mapper node = Failed sql args e
  \/ AuthorizeSQL lib policies entities req = Failed sql args e ->
  sql = "" /\ args = [].
Proof.
  intros [H | H].
  - eapply ToSql_failed_empty; eassumption.
  - unfold AuthorizeSQL in H. cbv zeta in H.
    destruct (classify lib (requestEnv lib entities req) policies emptyBuckets).
    + eapply ToSql_failed_empty; eassumption.
    + now injection H as <- <- _.
    + discriminate.
Qed.

Lemma failure_is_total_witness :
  ToSql Demo.lib (Demo.env Demo.bob) (Some Demo.docMapper)
        (NodeTypeEquals (Demo.resource_attr "title") (NodeValue (VString "x")))
  = Failed "" [] (ErrInvalidFieldName "resource.title")
  /\ ("" = "" /\ @nil any = []).
Proof.
  split; [reflexivity|].
  apply (failure_is_total Demo.lib (Demo.env Demo.bob) (Some Demo.docMapper)
           (NodeTypeEquals (Demo.resource_attr "title") (NodeValue (VString "x")))
           [] tt (Demo.request Demo.bob) "" [] (ErrInvalidFieldName "resource.title")).
  left. reflexivity.
Defined.

(** ** Placeholders and arguments *)

Lemma count_qm_cons (c : ascii) (r : string) :
  count_qm (String c r) = (if is_qm c then 1 else 0) + count_qm r.
Proof. reflexivity. Qed.

Lemma escapedPairs_qm_qm (c c' : ascii) (r : string) :
  is_qm c = true -> is_qm c' = true ->
  escapedPairs (String c (String c' r)) = S (escapedPairs r).
Proof. intros Hc Hc'. cbn [escapedPairs]. now rewrite Hc, Hc'. Qed.

Lemma escapedPairs_qm_other (c c' : ascii) (r : string) :
  is_qm c = true -> is_qm c' = false ->
  escapedPairs (String c (String c' r)) = escapedPairs (String c' r).
Proof. intros Hc Hc'. cbn [escapedPairs]. now rewrite Hc, Hc'. Qed.

Lemma escapedPairs_other (c : ascii) (r : string) :
  is_qm c = false -> escapedPairs (String c r) = escapedPairs r.
Proof. intros Hc. cbn [escapedPairs]. now rewrite Hc. Qed.

Lemma processEscapedSQL_qm_qm (c c' : ascii) (r : string) :
  is_qm c = true -> is_qm c' = true ->
  processEscapedSQL (String c (String c' r)) = String qm (processEscapedSQL r).
Proof. intros Hc Hc'. cbn [processEscapedSQL]. now rewrite Hc, Hc'. Qed.

Lemma processEscapedSQL_qm_other (c c' : ascii) (r : string) :
  is_qm c = true -> is_qm c' = false ->
  processEscapedSQL (String c (String c' r)) = String c (processEscapedSQL (String c' r)).
Proof. intros Hc Hc'. cbn [processEscapedSQL]. now rewrite Hc, Hc'. Qed.

Lemma processEscapedSQL_other (c : ascii) (r : string) :
  is_qm c = false -> processEscapedSQL (String c r) = String c (processEscapedSQL r).
Proof. intros Hc. cbn [processEscapedSQL]. now rewrite Hc. Qed.

(** Every ['?'] of a template is a placeholder or half of a pair; the simple
    path of [expr.ToSql] keeps one ['?'] of each pair. *)
Lemma count_qm_template (n : nat) :
  forall s, String.length s <= n ->
            count_qm s = unescapedCount s + 2 * escapedPairs s
            /\ count_qm (processEscapedSQL s) = unescapedCount s + escapedPairs s.
Proof.
  induction n as [|n IH]; intros s Hlen.
  - destruct s; [split; reflexivity | simpl in Hlen; lia].
  - destruct s as [|c rest]; [split; reflexivity|].
    simpl in Hlen.
    destruct (IH rest ltac:(lia)) as [IH1 IH2].
    destruct (is_qm c) eqn:Hc.
    + destruct rest as [|c' rest'].
      * cbn. rewrite Hc. cbn. rewrite Hc. split; reflexivity.
      * destruct (is_qm c') eqn:Hc'.
        -- simpl in Hlen. destruct (IH rest' ltac:(lia)) as [IH1' IH2'].
           rewrite (unescapedCount_qm_qm c c' rest' Hc Hc'),
             (escapedPairs_qm_qm c c' rest' Hc Hc'),
             (processEscapedSQL_qm_qm c c' rest' Hc Hc'), !count_qm_cons,
             Hc, Hc', IH1', IH2'.
           change (is_qm qm) with true. split; lia.
        -- rewrite (unescapedCount_qm_other c c' rest' Hc Hc'),
             (escapedPairs_qm_other c c' rest' Hc Hc'),
             (processEscapedSQL_qm_other c c' rest' Hc Hc'),
             (count_qm_cons c (String c' rest')),
             (count_qm_cons c (processEscapedSQL (String c' rest'))), Hc, IH1, IH2.
           split; lia.
    + rewrite (unescapedCount_other c rest Hc), (escapedPairs_other c rest Hc),
        (processEscapedSQL_other c rest Hc), !count_qm_cons, Hc, IH1, IH2.
      split; lia.
Qed.

Lemma count_qm_unescaped (s : string) :
  count_qm s = unescapedCount s + 2 * escapedPairs s.
Proof. exact (proj1 (count_qm_template (String.length s) s (le_n _))). Qed.

Lemma count_qm_processEscapedSQL (s : string) :
  count_qm (processEscapedSQL s) = unescapedCount s + escapedPairs s.
Proof. exact (proj2 (count_qm_template (String.length s) s (le_n _))). Qed.

Lemma exprLoop_balanced (n : nat) :
  forall (sp : string) (ap : list any) (buf : string) (args : list any),
    String.length sp <= n ->
    unescapedCount sp = List.length ap ->
    escapedPairs sp = 0 ->
    (forall a, In a ap -> isSqlizer a = true -> balanced a) ->
    match exprLoop sp (prerender ap) buf args with
    | Rendered sql out => count_qm sql + List.length args = count_qm buf + List.length out
    | _ => True
    end.
Proof.
  induction n as [|n IH]; intros sp ap buf args Hlen Hcount Hpairs Hap.
  - destruct sp; [|simpl in Hlen; lia].
    destruct ap; simpl in *; [|discriminate].
    rewrite append_nil_r. lia.
  - destruct ap as [|a ap'].
    + assert (H0 : count_qm sp = 0)
        by (rewrite count_qm_unescaped, Hcount, Hpairs; reflexivity).
      destruct sp; simpl; rewrite ?append_nil_r, ?count_qm_append; simpl in *; lia.
    + destruct sp as [|c rest]; [simpl in Hcount; discriminate|].
      cbn [prerender map exprLoop]. fold (prerender ap').
      assert (Hconsume :
                unescapedCount rest = List.length ap' ->
                escapedPairs rest = 0 ->
                match
                  (if isSqlizer a
                   then match ToSql_ a with
                        | Rendered isql iargs =>
                            exprLoop rest (prerender ap') (buf ++ isql) (args ++ iargs)
                        | Failed isql iargs e =>
                            Failed (buf ++ isql ++ rest)
                                   ((args ++ iargs) ++ map fst (prerender ap')) e
                        | Crashed p => Crashed p
                        end
                   else exprLoop rest (prerender ap') (buf ++ "?") (args ++ [a]))
                with
                | Rendered sql out =>
                    count_qm sql + List.length args = count_qm buf + List.length out
                | _ => True
                end).
      { intros Hrest Hprest.
        assert (Hap' : forall x, In x ap' -> isSqlizer x = true -> balanced x)
          by (intros x Hx; apply Hap; now right).
        simpl in Hlen.
        destruct (isSqlizer a) eqn:Hsq.
        - pose proof (Hap a (or_introl eq_refl) Hsq) as Hbal.
          destruct (ToSql_ a) as [isql iargs | isql iargs e | p] eqn:Ha; try exact I.
          specialize (Hbal _ _ Ha).
          pose proof (IH rest ap' (buf ++ isql) (args ++ iargs)%list
                         ltac:(lia) Hrest Hprest Hap') as Hloop.
          destruct (exprLoop rest (prerender ap') (buf ++ isql) (args ++ iargs));
            try exact I.
          rewrite count_qm_append, length_app in Hloop. lia.
        - pose proof (IH rest ap' (buf ++ "?") (args ++ [a])%list
                         ltac:(lia) Hrest Hprest Hap') as Hloop.
          destruct (exprLoop rest (prerender ap') (buf ++ "?") (args ++ [a]));
            try exact I.
          rewrite count_qm_append, length_app in Hloop. simpl in Hloop. lia. }
      simpl in Hlen.
      destruct (is_qm c) eqn:Hc.
      * destruct rest as [|c' rest'].
        -- apply Hconsume; [|reflexivity].
           rewrite (unescapedCount_qm_end c Hc) in Hcount. simpl in *. lia.
        -- destruct (is_qm c') eqn:Hc'.
           ++ rewrite (escapedPairs_qm_qm c c' rest' Hc Hc') in Hpairs. discriminate.
           ++ rewrite (unescapedCount_qm_other c c' rest' Hc Hc') in Hcount.
              rewrite (escapedPairs_qm_other c c' rest' Hc Hc') in Hpairs.
              apply Hconsume; [cbn [List.length] in Hcount; lia | exact Hpairs].
      * rewrite (unescapedCount_other c rest Hc) in Hcount.
        rewrite (escapedPairs_other c rest Hc) in Hpairs.
        pose proof (IH rest (a :: ap') (buf ++ String c "") args
                       ltac:(lia) Hcount Hpairs Hap) as Hloop.
        change (prerender (a :: ap')) with ((a, ToSql_ a) :: prerender ap') in Hloop.
        destruct (exprLoop rest ((a, ToSql_ a) :: prerender ap') (buf ++ String c "") args);
          try exact I.
        rewrite count_qm_append in Hloop. simpl in Hloop. rewrite Hc in Hloop. lia.
Qed.

Lemma expr_balanced (sql : string) (args : list any) :
  unescapedCount sql = List.length args ->
  escapedPairs sql = 0 ->
  (forall a, In a args -> isSqlizer a = true -> balanced a) ->
  balanced (expr sql args).
Proof.
  intros Hcount Hpairs Hargs out oargs. cbn [ToSql_]. fold (prerender args).
  destruct (forallb (fun a => negb (isSqlizer a)) args).
  - intros [= <- <-]. rewrite count_qm_processEscapedSQL. lia.
  - intro H.
    pose proof (exprLoop_balanced (String.length sql) sql args "" [] (le_n _)
                                  Hcount Hpairs Hargs) as Hloop.
    rewrite H in Hloop. simpl in Hloop. lia.
Qed.

Lemma Expr_balanced (sql : string) (args : list any) (s : any) :
  Expr sql args = Ok s ->
  escapedPairs sql = 0 ->
  (forall a, In a args -> isSqlizer a = true -> balanced a) ->
  balanced s.
Proof.
  intros H Hpairs Hargs. apply Expr_Ok in H. destruct H as [-> Hcount].
  now apply expr_balanced.
Qed.

Lemma count_qm_Join (l : list string) (sep : string) :
  count_qm sep = 0 -> count_qm (Join l sep) = sum_qm l.
Proof.
  intro Hsep. unfold sum_qm. induction l as [|e l IH]; [reflexivity|].
  destruct l as [|e' l'].
  - simpl. lia.
  - change (Join (e :: e' :: l') sep) with (e ++ sep ++ Join (e' :: l') sep).
    rewrite !count_qm_append, IH, Hsep. simpl. lia.
Qed.

Lemma conjLoop_balanced (parts : list any) :
  (forall p, In p parts -> balanced p) ->
  forall sqlParts args sqlParts' out,
    conjLoop (map ToSql_ parts) sqlParts args = Ok (sqlParts', out) ->
    sum_qm sqlParts' + List.length args = sum_qm sqlParts + List.length out.
Proof.
  induction parts as [|p parts IH]; intros Hparts sqlParts args sqlParts' out; simpl.
  - intros [= <- <-]. reflexivity.
  - assert (Hrest : forall q, In q parts -> balanced q)
      by (intros q Hq; apply Hparts; now right).
    pose proof (Hparts p (or_introl eq_refl)) as Hp.
    destruct (ToSql_ p) as [psql pargs| |] eqn:Hrp; try discriminate.
    specialize (Hp _ _ Hrp).
    destruct (String.eqb psql "").
    + now apply IH.
    + intro H. apply (IH Hrest) in H.
      unfold sum_qm in *. rewrite map_app, list_sum_app, length_app in H.
      simpl in H. lia.
Qed.

Lemma conj_balanced (parts : list any) (sep defaultExpr : string) :
  parts <> [] ->
  count_qm sep = 0 ->
  (forall p, In p parts -> balanced p) ->
  balanced (conj parts sep defaultExpr).
Proof.
  intros Hne Hsep Hparts sql args. cbn [ToSql_].
  destruct parts as [|p parts]; [congruence|].
  destruct (conjLoop (map ToSql_ (p :: parts)) [] []) as [[sqlParts out]| |] eqn:Hloop;
    try discriminate.
  apply (conjLoop_balanced (p :: parts) Hparts) in Hloop.
  unfold sum_qm at 2 in Hloop. simpl in Hloop.
  destruct sqlParts as [|s0 sqlParts].
  - intros [= <- <-]. unfold sum_qm in Hloop. simpl in *. lia.
  - destruct (String.eqb sep AndSep); intros [= <- <-].
    + change (count_qm (Join (s0 :: sqlParts) sep) = List.length out).
      rewrite (count_qm_Join (s0 :: sqlParts) sep Hsep). lia.
    + change (count_qm (String "("%char (Join (s0 :: sqlParts) sep ++ ")"))
              = List.length out).
      rewrite count_qm_cons, count_qm_append, (count_qm_Join (s0 :: sqlParts) sep Hsep).
      simpl. lia.
Qed.

Lemma part_balanced (p : string) (args : list any) :
  count_qm p = List.length args -> balanced (part (Str p) args).
Proof. intros H sql oargs. simpl. now intros [= <- <-]. Qed.

Lemma Nil_balanced : balanced Nil.
Proof. intros sql args. discriminate. Qed.

Lemma valueToResult_balanced (iv : bool) (v : Value) (s : any) (r : result) :
  valueToResult iv v s = Ok r ->
  cleanValue v -> balanced s ->
  balanced (sqlizer r).
Proof.
  unfold valueToResult. intros H Hv Hs.
  destruct (ToVariable v) as [name|] eqn:Hname; bind_inv; simpl; [|assumption].
  specialize (Hv name Hname). unfold cleanName in Hv.
  eapply Expr_balanced; [eassumption | | intros x []].
  pose proof (count_qm_unescaped name). lia.
Qed.

Lemma cleanValue_VNil : cleanValue VNil.
Proof. intros name. discriminate. Qed.

Lemma Expr_fragment_balanced (sql : string) (args : list any) (s : any) (r : result) :
  Expr sql args = Ok s ->
  valueToResult false VNil s = Ok r ->
  escapedPairs sql = 0 ->
  (forall a, In a args -> isSqlizer a = true -> balanced a) ->
  balanced (sqlizer r).
Proof.
  intros HE Hr Hpairs Hargs.
  eapply valueToResult_balanced; [exact Hr | apply cleanValue_VNil |].
  eapply Expr_balanced; eassumption.
Qed.

Lemma And_balanced (l r res : result) :
  And l r = Ok res ->
  balanced (sqlizer l) -> balanced (sqlizer r) -> balanced (sqlizer res).
Proof.
  unfold And. intros H Hl Hr. bind_inv.
  assert (Hconj : forall x, valueToResult false VNil (AndExpr [sqlizer l; sqlizer r]) = Ok x ->
                            balanced (sqlizer x)).
  { intros x Hx. eapply valueToResult_balanced; [exact Hx | apply cleanValue_VNil |].
    apply conj_balanced; [discriminate | reflexivity |].
    intros p [<- | [<- | []]]; assumption. }
  destruct a; [now bind_inv|].
  destruct (isValue r); [|auto].
  bind_inv. destruct a; [now bind_inv | auto].
Qed.

Lemma Or_balanced (l r res : result) :
  Or l r = Ok res ->
  balanced (sqlizer l) -> balanced (sqlizer r) -> balanced (sqlizer res).
Proof.
  unfold Or. intros H Hl Hr. bind_inv.
  destruct a; [now bind_inv|].
  bind_inv. destruct a; [now bind_inv|].
  eapply valueToResult_balanced; [exact H | apply cleanValue_VNil |].
  apply conj_balanced; [discriminate | reflexivity |].
  intros p [<- | [<- | []]]; assumption.
Qed.

Ltac balanced_args :=
  let a := fresh "a" in
  let Hin := fresh "Hin" in
  let Hsq := fresh "Hsq" in
  intros a Hin Hsq; simpl in Hin;
  repeat match goal with
         | H : _ \/ _ |- _ => destruct H
         | H : False |- _ => destruct H
         end;
  subst;
  try match goal with
      | H : Arg _ = Ok ?x, Hs : isSqlizer ?x = true |- _ =>
          apply ValueToGoValue_scalar in H; unfold scalar in H; congruence
      end;
  try assumption.

Lemma Compare_balanced (l r res : result) (exprStr : string) :
  Compare l r exprStr = Ok res ->
  escapedPairs exprStr = 0 ->
  balanced (sqlizer l) -> balanced (sqlizer r) -> balanced (sqlizer res).
Proof.
  unfold Compare. intros H Hpairs Hl Hr.
  destruct (isValue l); [|destruct (isValue r)]; bind_inv;
    (eapply Expr_fragment_balanced; [eassumption | eassumption | exact Hpairs
                                     | balanced_args]).
Qed.

Lemma mappedPath_count (mapper : option FieldMapper) (s : any) (field : string)
      (sa : string * list any) :
  (forall m, mapper = Some m ->
             forall name mapped, m name = Ok mapped -> count_qm mapped = count_qm name) ->
  mappedPath mapper s field = Ok sa ->
  isSqlizer s = true -> balanced s -> count_qm field = 0 ->
  count_qm (fst sa) = List.length (snd sa).
Proof.
  intros Hmap H Hsq Hbal Hfield.
  destruct (mappedPath_inv _ _ _ _ H Hsq) as (asql & Hr & Hm).
  specialize (Hbal _ _ Hr).
  assert (Hpath : count_qm (asql ++ "." ++ field) = List.length (snd sa)).
  { rewrite !count_qm_append, Hfield, Hbal. simpl. lia. }
  destruct mapper as [m|].
  - rewrite (Hmap m eq_refl _ _ Hm). exact Hpath.
  - rewrite Hm. exact Hpath.
Qed.

Lemma deepClean_cleanValue (v : Value) : deepClean v = true -> cleanValue v.
Proof.
  intros Hv name Hname. destruct v; simpl in *; try discriminate.
  destruct (String.eqb type variableEntityType); [|discriminate].
  injection Hname as <-. now apply Nat.eqb_eq.
Qed.

Lemma valueToResult_value (iv : bool) (v : Value) (s : any) (r : result) :
  valueToResult iv v s = Ok r -> value r = v.
Proof.
  unfold valueToResult. destruct (ToVariable v); intro H; bind_inv; reflexivity.
Qed.

(** [And], [Or] and the comparisons return one of their operands or a
    fragment without a value. *)
Lemma binaryDispatch_value (k : BinKind) (l r res : result) :
  binaryDispatch k l r = Ok res -> value res = VNil \/ res = l \/ res = r.
Proof.
  destruct k; cbn [binaryDispatch]; unfold And, Or, Compare, JsonCompareText; intro H;
    repeat (bind_inv;
            match goal with
            | H : (if ?b then _ else _) = Ok _ |- _ => destruct b
            | H : valueToResult false VNil _ = Ok _ |- _ =>
                apply valueToResult_value in H
            end);
    bind_inv; auto.
Qed.

Section ReducerBalanced.

Variable lib : Cedar.
Variable env : Env (EntityGetter lib).
Variable mapper : option FieldMapper.

(** From values without a ['?'] in a variable name the evaluator makes
    values without one. *)
Hypothesis Heval :
  forall n v, cleanNode n = true -> eval_Eval lib n env = Ok v -> deepClean v = true.

(** The mapper keeps the number of ['?'] of a path. *)
Hypothesis Hmap :
  forall m, mapper = Some m ->
            forall name mapped, m name = Ok mapped -> count_qm mapped = count_qm name.

Lemma evaluated_balanced (n : Node) (v : Value) (r : result) :
  cleanNode n = true ->
  eval_Eval lib n env = Ok v ->
  valueToResult true v Nil = Ok r ->
  balancedResult r.
Proof.
  intros Hn Hv Hr. pose proof (Heval n v Hn Hv) as Hclean. split.
  - eapply valueToResult_balanced;
      [exact Hr | now apply deepClean_cleanValue | apply Nil_balanced].
  - now rewrite (valueToResult_value _ _ _ _ Hr).
Qed.

Lemma fragment_balanced (s : any) (r : result) :
  valueToResult false VNil s = Ok r -> balanced s -> balancedResult r.
Proof.
  intros Hr Hs. split.
  - eapply valueToResult_balanced; [exact Hr | apply cleanValue_VNil | exact Hs].
  - now rewrite (valueToResult_value _ _ _ _ Hr).
Qed.

Lemma toSqlOrValue_balanced (node : Node) :
  plain node = true ->
  cleanNode node = true ->
  forall r, toSqlOrValue lib env mapper node = Ok r -> balancedResult r.
Proof.
  induction node; intros Hplain Hclean r H; cbn [toSqlOrValue] in H;
    cbn [plain] in Hplain; try discriminate;
    try (unfold evalOnly, toSqlVariable, nodeToValue in H; bind_inv;
         eapply evaluated_balanced; [exact Hclean | eassumption | eassumption]).
  - (* NodeValue *)
    cbn [cleanNode] in Hclean. split.
    + eapply valueToResult_balanced;
        [exact H | now apply deepClean_cleanValue | apply Nil_balanced].
    + now rewrite (valueToResult_value _ _ _ _ H).
  - (* Access *)
    apply andb_prop in Hplain. destruct Hplain as [Hparg Hfield].
    apply Nat.eqb_eq in Hfield. cbn [cleanNode] in Hclean.
    unfold toAccess in H. bind_inv.
    pose proof (toSqlOrValue_sound lib env mapper node a Ha) as [_ Hsq].
    destruct (IHnode Hparg Hclean _ Ha) as [Hbal Hval].
    destruct (isValue a) eqn:Hv; bind_inv.
    + eapply evaluated_balanced; [|eassumption|eassumption]. exact Hval.
    + apply (fragment_balanced _ _ H). apply part_balanced.
      eapply mappedPath_count; eauto.
  - (* Has *)
    apply andb_prop in Hplain. destruct Hplain as [Hparg Hfield].
    apply Nat.eqb_eq in Hfield. cbn [cleanNode] in Hclean.
    unfold toSqlHas in H. bind_inv.
    pose proof (toSqlOrValue_sound lib env mapper node a Ha) as [[_ Hsc] Hsq].
    destruct (IHnode Hparg Hclean _ Ha) as [Hbal Hval].
    destruct (isValue a) eqn:Hv; bind_inv.
    + eapply evaluated_balanced; [|eassumption|eassumption]. exact Hval.
    + specialize (Hsq eq_refl).
      pose proof (mappedPath_count mapper _ _ a0 Hmap Ha0 Hsq Hbal Hfield) as Hcount.
      destruct (mappedPath_inv _ _ _ _ Ha0 Hsq) as (asql & Hr & _).
      specialize (Hsc _ _ Hr).
      destruct (Expr_Ok _ _ _ Ha1) as [-> Harity].
      assert (Hinner : balanced (expr (fst a0) (snd a0))).
      { apply expr_balanced; [exact Harity | |].
        - pose proof (count_qm_unescaped (fst a0)). lia.
        - intros x Hx Hxs. rewrite Forall_forall in Hsc. specialize (Hsc x Hx).
          unfold scalar in Hsc. congruence. }
      apply (fragment_balanced _ _ H).
      apply (Expr_balanced _ _ _ Ha2 eq_refl).
      intros x [<- | []] _. exact Hinner.
  - (* Not *)
    cbn [cleanNode] in Hclean.
    unfold toSqlNot in H. bind_inv.
    destruct (IHnode Hplain Hclean _ Ha) as [Hbal Hval].
    destruct (isValue a) eqn:Hv; bind_inv.
    + eapply evaluated_balanced; [|eassumption|eassumption]. exact Hval.
    + apply (fragment_balanced _ _ H).
      apply (Expr_balanced _ _ _ Ha0 eq_refl). balanced_args.
  - (* IsEmpty *)
    cbn [cleanNode] in Hclean.
    unfold toSqlEmpty in H. bind_inv.
    destruct (IHnode Hplain Hclean _ Ha) as [Hbal Hval].
    destruct (isValue a) eqn:Hv; bind_inv.
    + eapply evaluated_balanced; [|eassumption|eassumption]. exact Hval.
    + apply (fragment_balanced _ _ H).
      apply (Expr_balanced _ _ _ Ha0 eq_refl). balanced_args.
  - (* Binary *)
    unfold toSqlBinary in H. bind_inv.
    assert (Hlr : plain node1 = true /\ plain node2 = true)
      by (destruct k; try discriminate; now apply andb_prop).
    destruct Hlr as [Hp1 Hp2].
    pose proof Hclean as Hclean'. cbn [cleanNode] in Hclean'.
    apply andb_prop in Hclean'. destruct Hclean' as [Hc1 Hc2].
    destruct (IHnode1 Hp1 Hc1 _ Ha) as [Hbal1 Hval1].
    destruct (IHnode2 Hp2 Hc2 _ Ha0) as [Hbal2 Hval2].
    destruct (isValue a && isValue a0); bind_inv.
    + eapply evaluated_balanced; [exact Hclean | eassumption | eassumption].
    + split.
      * destruct k; try discriminate; cbn [binaryDispatch] in H;
          eauto using And_balanced, Or_balanced;
          (eapply Compare_balanced; [exact H | reflexivity | assumption | assumption]).
      * destruct (binaryDispatch_value _ _ _ _ H) as [-> | [-> | ->]];
          auto.
  - (* ExtensionCall *)
    destruct (ToPartialError lib (NodeTypeExtensionCall name args)); [discriminate|].
    unfold evalOnly, nodeToValue in H. bind_inv.
    eapply evaluated_balanced; [exact Hclean | eassumption | eassumption].
Qed.

End ReducerBalanced.

(** C5, as the code has it.  For a residual without JSON-containment
    operator and without ['?'] in its names, an evaluator that brings no such
    name in, and a mapper that keeps the number of ['?'] of a path: the text
    that [ToSql] returns has exactly as many ['?'] as there are arguments. *)
Theorem placeholder_arity
        (lib : Cedar) (env : Env (EntityGetter lib)) (mapper : option FieldMapper)
        (node : Node) (sql : string) (args : list any) :
  (forall n v, cleanNode n = true -> eval_Eval lib n env = Ok v -> deepClean v = true) ->
  (forall m, mapper = Some m ->
             forall name mapped, m name = Ok mapped -> count_qm mapped = count_qm name) ->
  plain node = true ->
  cleanNode node = true ->
  ToSql lib env mapper node = Rendered sql args ->
  count_qm sql = List.length args.
Proof.
  intros Heval Hmap Hplain Hclean. unfold ToSql.
  destruct (toSqlOrValue lib env mapper node) as [r| |] eqn:Hr; try discriminate.
  destruct (isValue r).
  - destruct (ValueToType_Boolean (value r)) as [[|]| |]; try discriminate;
      now intros [= <- <-].
  - intro H.
    destruct (toSqlOrValue_balanced lib env mapper Heval Hmap node Hplain Hclean r Hr)
      as [Hbal _].
    exact (Hbal _ _ H).
Qed.

Lemma Demo_eval_clean (principal : Value) :
  deepClean principal = true ->
  forall n v, cleanNode n = true ->
              Demo.eval n (Demo.env principal) = Ok v -> deepClean v = true.
Proof.
  intros Hp n. induction n; intros w Hn H; simpl in H; try discriminate.
  - now injection H as <-.
  - repeat match type of H with
           | (if ?b then _ else _) = _ => destruct b
           end; try discriminate; injection H as <-; auto.
  - bind_inv. reflexivity.
  - destruct k; try discriminate; bind_inv;
      match goal with
      | H : (if ?b then _ else _) = Ok _ |- _ => destruct b
      end; bind_inv; reflexivity.
Qed.

Lemma docMapper_keeps_count (name mapped : string) :
  Demo.docMapper name = Ok mapped -> count_qm mapped = count_qm name.
Proof.
  unfold Demo.docMapper.
  repeat match goal with
         | |- (if String.eqb ?a ?b then _ else _) = _ -> _ =>
             destruct (String.eqb_spec a b) as [->|_]
         end; intro H; bind_inv; reflexivity.
Qed.

Lemma placeholder_arity_witness :
  ToSql Demo.lib (Demo.env Demo.bob) (Some Demo.docMapper) (ownerOrPublic Demo.bob)
  = Rendered "(document.owner = ? OR document.is_public = ?)" [Str "bob"; GoBool true]
  /\ count_qm "(document.owner = ? OR document.is_public = ?)"
     = List.length [Str "bob"; GoBool true].
Proof.
  split; [reflexivity|].
  apply (placeholder_arity Demo.lib (Demo.env Demo.bob) (Some Demo.docMapper)
                           (ownerOrPublic Demo.bob)).
  - apply Demo_eval_clean. reflexivity.
  - intros m [= <-]. apply docMapper_keeps_count.
  - reflexivity.
  - reflexivity.
  - reflexivity.
Defined.

(** C5 as stated fails: a rendered containment operator is a ['?'] of the
    text that no argument stands for, and so is a ['?'] of a field name. *)
Lemma placeholder_arity_fails_with_contains :
  ToSql Demo.lib (Demo.env Demo.bob) (Some DefaultFieldMapper)
        (NodeTypeContains (Demo.resource_attr "tags") (NodeValue (VString "a")))
  = Rendered "resource.tags ? ?" [Str "a"]
  /\ unescapedCount "resource.tags ? ?" <> List.length [Str "a"]
  /\ count_qm "resource.tags ? ?" <> List.length [Str "a"]
  /\ ToSql Demo.lib (Demo.env Demo.bob) (Some DefaultFieldMapper)
           (NodeTypeEquals (Demo.resource_attr "done?") (NodeValue (VBoolean true)))
     = Rendered "resource.done? = ?" [GoBool true]
  /\ count_qm "resource.done? = ?" <> List.length [GoBool true].
Proof. repeat split; simpl; discriminate. Qed.

(** ** The package's own tests, replayed *)

(** The escape test of the package: rendering ["? ??! ?"]. *)
Example double_question_escape :
  ToSql_ (expr "? ??! ?" [expr "document.viewACL" []; expr "?::jsonb" [Str "User::jared"]])
  = Rendered "document.viewACL ?! ?::jsonb" [Str "User::jared"].
Proof. reflexivity. Qed.

Example conj_and_two : ToSql_ (AndExpr [expr "1 = 1" []; expr "2 = 2" []])
  = Rendered "1 = 1 AND 2 = 2" [].
Proof. reflexivity. Qed.

Example conj_or_two : ToSql_ (OrExpr [expr "1 = 1" []; expr "2 = 2" []])
  = Rendered "(1 = 1 OR 2 = 2)" [].
Proof. reflexivity. Qed.

(** The cases of [TestToSql]. *)
Example test_empty :
  ToSql Demo.lib (Demo.env VNil) (Some DefaultFieldMapper)
        (NodeTypeIsEmpty (Demo.context_attr "foo"))
  = Rendered "context.foo IS NULL" [].
Proof. reflexivity. Qed.

Example test_equal :
  ToSql Demo.lib (Demo.env VNil) (Some DefaultFieldMapper)
        (NodeTypeEquals (Demo.context_attr "foo") (NodeValue (VString "bar")))
  = Rendered "context.foo = ?" [Str "bar"].
Proof. reflexivity. Qed.

Example test_and :
  ToSql Demo.lib (Demo.env VNil) (Some DefaultFieldMapper)
        (NodeTypeAnd (NodeTypeEquals (Demo.context_attr "foo") (NodeValue (VString "bar")))
                     (NodeTypeEquals (Demo.context_attr "baz") (NodeValue (VLong 50))))
  = Rendered "context.foo = ? AND context.baz = ?" [Str "bar"; Int64 50].
Proof. reflexivity. Qed.

Example test_equal_entity :
  ToSql Demo.lib (Demo.env VNil) (Some DefaultFieldMapper)
        (NodeTypeEquals (NodeTypeVariable "resource") (NodeValue (VEntityUID "doc" "123")))
  = Rendered "resource = ?" [Str "123"].
Proof. reflexivity. Qed.

Example test_resource_complex :
  ToSql Demo.lib (Demo.env (VEntityUID "user" "123")) (Some DefaultFieldMapper)
        (NodeTypeOr (NodeTypeEquals (Demo.resource_attr "owner") (NodeTypeVariable "principal"))
                    (NodeTypeEquals (Demo.resource_attr "is_public") (NodeValue (VBoolean true))))
  = Rendered "(resource.owner = ? OR resource.is_public = ?)" [Str "123"; GoBool true].
Proof. reflexivity. Qed.

(** The mapper of the tests rejects a field it does not know. *)
Example test_mapper_rejects :
  ToSql Demo.lib (Demo.env Demo.bob) (Some Demo.docMapper)
        (NodeTypeEquals (Demo.resource_attr "title") (NodeValue (VString "x")))
  = Failed "" [] (ErrInvalidFieldName "resource.title").
Proof. reflexivity. Qed.

(** * More of the package *)

(** ** utils.Intersect *)

Section SlicesFacts.

Variable T : Type.
Variable eq_op : T -> T -> bool.

(** [==] decides equality on [T] (as it does on strings, integers, entity
    ids; not on floating point with its NaN). *)
Hypothesis eq_op_spec : forall x y, eq_op x y = true <-> x = y.

Lemma slices_Contains_In (s : list T) (v : T) :
  slices_Contains eq_op s v = true <-> In v s.
Proof.
  induction s as [|x s IH]; simpl.
  - split; [discriminate | tauto].
  - destruct (eq_op v x) eqn:E.
    + apply eq_op_spec in E. subst. tauto.
    + rewrite IH. split; [tauto|]. intros [Hx | Hin]; [|exact Hin].
      subst. assert (eq_op v v = true) by now apply eq_op_spec. congruence.
Qed.

Lemma IntersectLoop_filter (a b r : list T) :
  IntersectLoop eq_op a b r = (r ++ filter (slices_Contains eq_op b) a)%list.
Proof.
  revert r. induction a as [|v a IH]; intro r; simpl.
  - now rewrite app_nil_r.
  - destruct (slices_Contains eq_op b v); rewrite IH; [|reflexivity].
    now rewrite <- app_assoc.
Qed.

Lemma Intersect_filter (a b : list T) :
  Intersect eq_op a b = filter (slices_Contains eq_op b) a.
Proof. unfold Intersect. now rewrite IntersectLoop_filter. Qed.

End SlicesFacts.

(** X1. [Intersect a b] holds exactly the elements that are in [a] and in
    [b]; it never grows [a]; intersecting a slice with itself gives it back,
    and intersecting again with [b] changes nothing. *)
Theorem Intersect_members (T : Type) (eq_op : T -> T -> bool) (a b : list T) :
  (forall x y, eq_op x y = true <-> x = y) ->
  (forall x, In x (Intersect eq_op a b) <-> In x a /\ In x b)
  /\ List.length (Intersect eq_op a b) <= List.length a
  /\ Intersect eq_op a a = a
  /\ Intersect eq_op (Intersect eq_op a b) b = Intersect eq_op a b.
Proof.
  intro Hspec. rewrite !(Intersect_filter).
  split; [|split; [|split]].
  - intro x. rewrite filter_In, (slices_Contains_In T eq_op Hspec). tauto.
  - apply filter_length_le.
  - apply forallb_filter_id. apply forallb_forall. intros x Hx.
    now apply (slices_Contains_In T eq_op Hspec).
  - apply forallb_filter_id. apply forallb_forall. intros x Hx.
    apply filter_In in Hx. tauto.
Qed.

Lemma Intersect_members_witness :
  Intersect String.eqb ["owner"; "id"; "owner"; "block"] ["block"; "owner"]
  = ["owner"; "owner"; "block"]
  /\ (forall x, In x (Intersect String.eqb ["owner"; "id"; "owner"; "block"]
                                 ["block"; "owner"])
                <-> In x ["owner"; "id"; "owner"; "block"] /\ In x ["block"; "owner"]).
Proof.
  split; [reflexivity|].
  apply (Intersect_members string String.eqb ["owner"; "id"; "owner"; "block"]
                           ["block"; "owner"]).
  intros x y. apply String.eqb_eq.
Defined.

(** X2. [Intersect] keeps the order and the repetitions of its first
    argument: the result is [a] with the elements that are not in [b] taken
    out, so a slice without an element of [b] gives the empty result and
    [Intersect] of a concatenation is the concatenation of the results. *)
Theorem Intersect_order (T : Type) (eq_op : T -> T -> bool) (a a' b : list T) :
  Intersect eq_op a b = filter (slices_Contains eq_op b) a
  /\ Intersect eq_op (a ++ a') b = (Intersect eq_op a b ++ Intersect eq_op a' b)%list
  /\ Intersect eq_op a [] = []
  /\ Intersect eq_op [] b = [].
Proof.
  rewrite !Intersect_filter. repeat split.
  - apply filter_app.
  - induction a as [|x a IH]; simpl; [reflexivity | exact IH].
Qed.

(** ** The field mappers of the tests *)

Lemma HasPrefix_split (s prefix : string) :
  HasPrefix s prefix = true ->
  s = prefix ++ dropBytes (String.length prefix) s.
Proof.
  revert s. induction prefix as [|p prefix IH]; intros s H; simpl in *.
  - reflexivity.
  - destruct s as [|c s]; [discriminate|].
    apply andb_prop in H. destruct H as [Hc Hs].
    apply Ascii.eqb_eq in Hc. subst. f_equal. now apply IH.
Qed.

Lemma HasPrefix_append (prefix rest : string) :
  HasPrefix (prefix ++ rest) prefix = true.
Proof.
  induction prefix as [|p prefix IH]; simpl; [reflexivity|].
  now rewrite Ascii.eqb_refl, IH.
Qed.

Lemma dropBytes_append (prefix rest : string) :
  dropBytes (String.length prefix) (prefix ++ rest) = rest.
Proof. induction prefix as [|p prefix IH]; simpl; [reflexivity | exact IH]. Qed.

(** X3. [docMapper] accepts exactly four paths: [resource.owner] and
    [resource.is_public], which it rewrites to the [document] table, and
    [users.id] and [users.block], which it keeps; every other path, also a
    known field under another prefix or a longer path, is rejected with
    [ErrInvalidFieldName]. *)
Theorem docMapper_accepts (name : string) :
  docMapper_Map name =
  if String.eqb name "resource.owner" then Ok "document.owner"
  else if String.eqb name "resource.is_public" then Ok "document.is_public"
  else if String.eqb name "users.id" then Ok "users.id"
  else if String.eqb name "users.block" then Ok "users.block"
  else Err (ErrInvalidFieldName name).
Proof.
  unfold docMapper_Map, TrimPrefix. cbv zeta.
  destruct (HasPrefix name "resource.") eqn:Hres.
  - apply HasPrefix_split in Hres.
    set (rest := dropBytes (String.length "resource.") name) in *.
    clearbody rest. subst name.
    replace (HasPrefix ("resource." ++ rest) "users.") with false by reflexivity.
    cbn [andb slices_Contains].
    change (String.eqb ("resource." ++ rest) "resource.owner")
      with (String.eqb rest "owner").
    change (String.eqb ("resource." ++ rest) "resource.is_public")
      with (String.eqb rest "is_public").
    change (String.eqb ("resource." ++ rest) "users.id") with false.
    change (String.eqb ("resource." ++ rest) "users.block") with false.
    destruct (String.eqb_spec rest "owner") as [->|_]; [reflexivity|].
    destruct (String.eqb_spec rest "is_public") as [->|_]; reflexivity.
  - cbn [andb].
    destruct (String.eqb_spec name "resource.owner") as [->|_]; [discriminate|].
    destruct (String.eqb_spec name "resource.is_public") as [->|_]; [discriminate|].
    destruct (HasPrefix name "users.") eqn:Husers.
    + apply HasPrefix_split in Husers.
      set (rest := dropBytes (String.length "users.") name) in *.
      clearbody rest. subst name.
      cbn [andb slices_Contains].
      change (String.eqb ("users." ++ rest) "users.id") with (String.eqb rest "id").
      change (String.eqb ("users." ++ rest) "users.block") with (String.eqb rest "block").
      destruct (String.eqb_spec rest "id") as [->|_]; [reflexivity|].
      destruct (String.eqb_spec rest "block") as [->|_]; reflexivity.
    + cbn [andb].
      destruct (String.eqb_spec name "users.id") as [->|_]; [discriminate|].
      destruct (String.eqb_spec name "users.block") as [->|_]; [discriminate|].
      reflexivity.
Qed.

Lemma docMapper_Map_Demo (name : string) : docMapper_Map name = Demo.docMapper name.
Proof.
  unfold docMapper_Map, TrimPrefix, Demo.docMapper. cbv zeta.
  destruct (HasPrefix name "resource.") eqn:Hres.
  - apply HasPrefix_split in Hres.
    set (rest := dropBytes (String.length "resource.") name) in *.
    clearbody rest. subst name.
    replace (HasPrefix ("resource." ++ rest) "users.") with false by reflexivity.
    cbn [andb slices_Contains].
    change (String.eqb ("resource." ++ rest) "resource.owner")
      with (String.eqb rest "owner").
    change (String.eqb ("resource." ++ rest) "resource.is_public")
      with (String.eqb rest "is_public").
    change (String.eqb ("resource." ++ rest) "users.id") with false.
    change (String.eqb ("resource." ++ rest) "users.block") with false.
    destruct (String.eqb_spec rest "owner") as [->|_]; [reflexivity|].
    destruct (String.eqb_spec rest "is_public") as [->|_]; reflexivity.
  - cbn [andb].
    destruct (String.eqb_spec name "resource.owner") as [->|_]; [discriminate|].
    destruct (String.eqb_spec name "resource.is_public") as [->|_]; [discriminate|].
    destruct (HasPrefix name "users.") eqn:Husers.
    + apply HasPrefix_split in Husers.
      set (rest := dropBytes (String.length "users.") name) in *.
      clearbody rest. subst name.
      cbn [andb slices_Contains].
      change (String.eqb ("users." ++ rest) "users.id") with (String.eqb rest "id").
      change (String.eqb ("users." ++ rest) "users.block") with (String.eqb rest "block").
      destruct (String.eqb_spec rest "id") as [->|_]; [reflexivity|].
      destruct (String.eqb_spec rest "block") as [->|_]; reflexivity.
    + cbn [andb].
      destruct (String.eqb_spec name "users.id") as [->|_]; [discriminate|].
      destruct (String.eqb_spec name "users.block") as [->|_]; [discriminate|].
      reflexivity.
Qed.

(** X4. [fileMapper] never rejects a path: a path under [resource.] moves
    under [files.] with the rest of it unchanged, any other path is kept;
    what it returns is a path it keeps, so mapping twice changes nothing. *)
Theorem fileMapper_rewrites (name : string) :
  fileMapper_Map name =
  Ok (if HasPrefix name "resource."
      then "files." ++ dropBytes (String.length "resource.") name
      else name)
  /\ (forall rest, fileMapper_Map ("resource." ++ rest) = Ok ("files." ++ rest))
  /\ (forall mapped, fileMapper_Map name = Ok mapped -> fileMapper_Map mapped = Ok mapped).
Proof.
  assert (Hshape : fileMapper_Map name =
                   Ok (if HasPrefix name "resource."
                       then "files." ++ dropBytes (String.length "resource.") name
                       else name)).
  { unfold fileMapper_Map. destruct (HasPrefix name "resource.") eqn:H; [|reflexivity].
    destruct name; [discriminate|]. cbn [ReplaceFirst]. now rewrite H. }
  split; [exact Hshape | split].
  - intro rest. reflexivity.
  - intros mapped H. rewrite Hshape in H.
    destruct (HasPrefix name "resource.") eqn:Hp; injection H as <-.
    + reflexivity.
    + unfold fileMapper_Map. now rewrite Hp.
Qed.

(** X5. The mappers of the package keep the number of ['?'] of the path
    they rewrite: the default mapper, [docMapper] and [fileMapper]. *)
Theorem mappers_keep_placeholders (name mapped : string) :
  DefaultFieldMapper name = Ok mapped
  \/ docMapper_Map name = Ok mapped
  \/ fileMapper_Map name = Ok mapped ->
  count_qm mapped = count_qm name.
Proof.
  intros [H | [H | H]].
  - now injection H as <-.
  - rewrite docMapper_Map_Demo in H. unfold Demo.docMapper in H.
    repeat match type of H with
           | (if String.eqb ?a ?b then _ else _) = _ =>
               destruct (String.eqb_spec a b) as [->|_]
           end; try discriminate; injection H as <-; reflexivity.
  - unfold fileMapper_Map in H.
    destruct (HasPrefix name "resource.") eqn:Hp; [|now injection H as <-].
    destruct name; [discriminate|]. cbn [ReplaceFirst] in H. rewrite Hp in H.
    injection H as <-. apply HasPrefix_split in Hp.
    pose proof (f_equal count_qm Hp) as Hc.
    rewrite Hc, !count_qm_append. reflexivity.
Qed.

Lemma mappers_keep_placeholders_witness :
  fileMapper_Map "resource.owner" = Ok "files.owner"
  /\ count_qm "files.owner" = count_qm "resource.owner".
Proof.
  split; [reflexivity|].
  apply (mappers_keep_placeholders "resource.owner" "files.owner").
  right. right. reflexivity.
Defined.

(** ** utils.ValueToGoValue *)

(** Induction on a value, through the elements of a set and the attributes
    of a record. *)
Lemma Value_nested_ind (P : Value -> Prop) :
  P VNil ->
  (forall s, P (VString s)) ->
  (forall n, P (VLong n)) ->
  (forall b, P (VBoolean b)) ->
  (forall text, P (VDecimal text)) ->
  (forall millis, P (VDatetime millis)) ->
  (forall type id, P (VEntityUID type id)) ->
  (forall elems, Forall P elems -> P (VSet elems)) ->
  (forall attrs, Forall (fun kv => P (snd kv)) attrs -> P (VRecord attrs)) ->
  (forall text, P (VIPAddr text)) ->
  forall v, P v.
Proof.
  intros HNil HString HLong HBoolean HDecimal HDatetime HEntity HSet HRecord HIP.
  fix IH 1. intro v. destruct v.
  - exact HNil.
  - apply HString.
  - apply HLong.
  - apply HBoolean.
  - apply HDecimal.
  - apply HDatetime.
  - apply HEntity.
  - apply HSet.
    exact ((fix go (l : list Value) : Forall P l :=
              match l with
              | [] => Forall_nil P
              | x :: rest => Forall_cons x (IH x) (go rest)
              end) elems).
  - apply HRecord.
    exact ((fix go (l : list (string * Value)) : Forall (fun kv => P (snd kv)) l :=
              match l with
              | [] => Forall_nil _
              | kv :: rest => Forall_cons kv (IH (snd kv)) (go rest)
              end) attrs).
  - apply HIP.
Qed.

Lemma ValueToGoValue_VSet (elems : list Value) :
  ValueToGoValue (VSet elems) = (args <- marshalItems elems ;; Ok (Slice args)).
Proof.
  induction elems as [|item rest IH]; reflexivity.
Qed.

(** X6. [ValueToGoValue] returns a bind argument exactly for the values
    without a record, an IP address or a nil, at any depth of a set; for the
    others it returns an error and no argument, and it never panics.  What it
    returns is never a [Sqlizer]. *)
Theorem ValueToGoValue_marshallable (v : Value) :
  match ValueToGoValue v with
  | Ok a => marshallable v = true /\ isSqlizer a = false
  | Err e => marshallable v = false /\ (e = ErrUnsupportedValue \/ e = ErrType "string")
  | Panic _ => False
  end.
Proof.
  induction v as [| | | | | | | elems IH | attrs _ |] using Value_nested_ind;
    try (simpl; auto; fail).
  rewrite ValueToGoValue_VSet. cbn [marshallable].
  induction IH as [|item rest Hitem _ IHrest]; [simpl; auto|].
  cbn [marshalItems forallb].
  destruct (ValueToGoValue item) as [a| e |p]; cbn [bind] in *.
  - destruct Hitem as [-> _]. cbn [andb].
    destruct (marshalItems rest) as [args| e |p]; cbn [bind] in *; tauto.
  - destruct Hitem as [-> He]. cbn [andb]. auto.
  - contradiction.
Qed.

(** X7. A set is marshalled element by element: the slice has one argument
    per element, in the order of the set, each the bind argument of its
    element. *)
Theorem ValueToGoValue_set_elementwise (elems : list Value) (a : any) :
  ValueToGoValue (VSet elems) = Ok a ->
  exists args, a = Slice args
               /\ Forall2 (fun item arg => ValueToGoValue item = Ok arg) elems args.
Proof.
  rewrite ValueToGoValue_VSet. intro H. bind_inv. exists a0. split; [reflexivity|].
  revert a0 Ha. induction elems as [|item rest IH]; intros args H; cbn [marshalItems] in H.
  - bind_inv. constructor.
  - bind_inv. constructor; [assumption | now apply IH].
Qed.

Lemma ValueToGoValue_set_elementwise_witness :
  exists args,
    Slice [Str "alice"; Int64 7; Slice [GoBool true]] = Slice args
    /\ Forall2 (fun item arg => ValueToGoValue item = Ok arg)
               [VEntityUID "User" "alice"; VLong 7; VSet [VBoolean true]] args.
Proof.
  apply (ValueToGoValue_set_elementwise
           [VEntityUID "User" "alice"; VLong 7; VSet [VBoolean true]]
           (Slice [Str "alice"; Int64 7; Slice [GoBool true]])).
  reflexivity.
Defined.

(** ** Templates and their rendering *)

Lemma processEscapedSQL_length (n : nat) :
  forall s, String.length s <= n ->
            String.length (processEscapedSQL s) + escapedPairs s = String.length s
            /\ (escapedPairs s = 0 -> processEscapedSQL s = s).
Proof.
  induction n as [|n IH]; intros s Hlen.
  - destruct s; [split; reflexivity | simpl in Hlen; lia].
  - destruct s as [|c rest]; [split; reflexivity|].
    simpl in Hlen. destruct (IH rest ltac:(lia)) as [IH1 IH2].
    destruct (is_qm c) eqn:Hc.
    + destruct rest as [|c' rest'].
      * cbn. rewrite Hc. cbn. split; reflexivity.
      * destruct (is_qm c') eqn:Hc'.
        -- simpl in Hlen. destruct (IH rest' ltac:(lia)) as [IH1' _].
           rewrite (escapedPairs_qm_qm c c' rest' Hc Hc'),
             (processEscapedSQL_qm_qm c c' rest' Hc Hc').
           split; [simpl; lia | discriminate].
        -- rewrite (escapedPairs_qm_other c c' rest' Hc Hc'),
             (processEscapedSQL_qm_other c c' rest' Hc Hc').
           split; [simpl in *; lia | intro H; now rewrite (IH2 H)].
    + rewrite (escapedPairs_other c rest Hc), (processEscapedSQL_other c rest Hc).
      split; [simpl; lia | intro H; now rewrite (IH2 H)].
Qed.

(** X8. Every ['?'] of a template is a placeholder that [countPlaceholders]
    counts or one half of an escaped pair; [processEscapedSQL] takes one
    byte out of each pair and nothing else, so its text has one ['?'] per
    placeholder and one per pair, and a template without a pair is left as
    it is. *)
Theorem template_accounting (sql : string) :
  count_qm sql = countPlaceholders sql + 2 * escapedPairs sql
  /\ count_qm (processEscapedSQL sql) = countPlaceholders sql + escapedPairs sql
  /\ String.length (processEscapedSQL sql) + escapedPairs sql = String.length sql
  /\ (escapedPairs sql = 0 -> processEscapedSQL sql = sql).
Proof.
  rewrite countPlaceholders_unescaped.
  destruct (processEscapedSQL_length (String.length sql) sql (le_n _)) as [Hlen Hnoop].
  repeat split.
  - apply count_qm_unescaped.
  - apply count_qm_processEscapedSQL.
  - exact Hlen.
  - exact Hnoop.
Qed.

Lemma renderedArgs_scalars (args : list any) :
  forallb (fun a => negb (isSqlizer a)) args = true ->
  flat_map renderedArgs args = args.
Proof.
  induction args as [|a args IH]; simpl; [reflexivity|].
  intro H. apply andb_prop in H. destruct H as [Ha Hrest].
  unfold renderedArgs at 1. destruct (isSqlizer a); [discriminate|].
  simpl. now rewrite IH.
Qed.

Lemma exprLoop_args (n : nat) :
  forall (sp : string) (ap : list any) (buf : string) (acc : list any),
    String.length sp <= n ->
    unescapedCount sp = List.length ap ->
    (forall a, In a ap -> isSqlizer a = true -> exists q qa, ToSql_ a = Rendered q qa) ->
    exists text,
      exprLoop sp (prerender ap) buf acc
      = Rendered text (acc ++ flat_map renderedArgs ap)%list.
Proof.
  induction n as [|n IH]; intros sp ap buf acc Hlen Hcount Hap.
  - destruct sp; [|simpl in Hlen; lia].
    destruct ap; simpl in *; [|discriminate].
    rewrite app_nil_r. eauto.
  - destruct ap as [|a ap'].
    + destruct sp; simpl; rewrite app_nil_r; eauto.
    + destruct sp as [|c rest]; [simpl in Hcount; discriminate|].
      cbn [prerender map exprLoop]. fold (prerender ap').
      assert (Hconsume :
                unescapedCount rest = List.length ap' ->
                exists text,
                  (if isSqlizer a
                   then match ToSql_ a with
                        | Rendered isql iargs =>
                            exprLoop rest (prerender ap') (buf ++ isql) (acc ++ iargs)
                        | Failed isql iargs e =>
                            Failed (buf ++ isql ++ rest)
                                   ((acc ++ iargs) ++ map fst (prerender ap')) e
                        | Crashed p => Crashed p
                        end
                   else exprLoop rest (prerender ap') (buf ++ "?") (acc ++ [a]))
                  = Rendered text (acc ++ flat_map renderedArgs (a :: ap'))%list).
      { intro Hrest.
        assert (Hap' : forall x, In x ap' -> isSqlizer x = true ->
                                 exists q qa, ToSql_ x = Rendered q qa)
          by (intros x Hx; apply Hap; now right).
        simpl in Hlen. cbn [flat_map]. unfold renderedArgs at 1.
        destruct (isSqlizer a) eqn:Hsq.
        - destruct (Hap a (or_introl eq_refl) Hsq) as (q & qa & Ha). rewrite Ha.
          destruct (IH rest ap' (buf ++ q) (acc ++ qa)%list ltac:(lia) Hrest Hap')
            as [text Htext].
          exists text. rewrite Htext. now rewrite <- app_assoc.
        - destruct (IH rest ap' (buf ++ "?") (acc ++ [a])%list ltac:(lia) Hrest Hap')
            as [text Htext].
          exists text. rewrite Htext. now rewrite <- app_assoc. }
      simpl in Hlen.
      destruct (is_qm c) eqn:Hc.
      * destruct rest as [|c' rest'].
        -- apply Hconsume. rewrite (unescapedCount_qm_end c Hc) in Hcount.
           simpl in *. lia.
        -- destruct (is_qm c') eqn:Hc'.
           ++ rewrite (unescapedCount_qm_qm c c' rest' Hc Hc') in Hcount.
              apply (IH rest' (a :: ap')); auto. simpl in Hlen. lia.
           ++ rewrite (unescapedCount_qm_other c c' rest' Hc Hc') in Hcount.
              apply Hconsume. cbn [List.length] in Hcount. lia.
      * rewrite (unescapedCount_other c rest Hc) in Hcount.
        apply (IH rest (a :: ap')); auto. lia.
Qed.

(** X9. An [expr] with as many arguments as placeholders, whose [Sqlizer]
    arguments all render, renders; its arguments are those of its own
    arguments from left to right, a bind value standing for itself and a
    [Sqlizer] for the arguments it renders.  No argument is lost, repeated or
    reordered. *)
Theorem expr_args_in_order (sql : string) (args : list any) :
  unescapedCount sql = List.length args ->
  (forall a, In a args -> isSqlizer a = true -> exists q qa, ToSql_ a = Rendered q qa) ->
  exists text, ToSql_ (expr sql args) = Rendered text (flat_map renderedArgs args).
Proof.
  intros Hcount Hargs. cbn [ToSql_]. fold (prerender args).
  destruct (forallb (fun a => negb (isSqlizer a)) args) eqn:Hsimple.
  - rewrite (renderedArgs_scalars args Hsimple). eauto.
  - exact (exprLoop_args (String.length sql) sql args "" [] (le_n _) Hcount Hargs).
Qed.

Lemma expr_args_in_order_witness :
  exists text,
    ToSql_ (expr "(? OR ?) AND ? ??| ?"
                 [expr "name = ?" [Str "john"]; expr "age > ?" [Int64 18];
                  expr "tags" []; Slice [Str "a"]])
    = Rendered text [Str "john"; Int64 18; Slice [Str "a"]].
Proof.
  apply (expr_args_in_order "(? OR ?) AND ? ??| ?"
           [expr "name = ?" [Str "john"]; expr "age > ?" [Int64 18];
            expr "tags" []; Slice [Str "a"]]).
  - reflexivity.
  - intros a Hin Hsq. simpl in Hin.
    destruct Hin as [<- | [<- | [<- | [<- | []]]]];
      try (eexists; eexists; reflexivity); discriminate Hsq.
Defined.

Lemma is_qm_clean (c : ascii) (s : string) :
  count_qm (String c s) = 0 -> is_qm c = false /\ count_qm s = 0.
Proof. rewrite count_qm_cons. destruct (is_qm c); [discriminate | tauto]. Qed.

Lemma append_cons_assoc (buf : string) (c : ascii) (s : string) :
  (buf ++ String c "") ++ s = buf ++ String c s.
Proof. now rewrite append_assoc. Qed.

(** The bytes before the first ['?'] go to the buffer as they are. *)
Lemma exprLoop_clean_prefix (pre sp : string) (x : any * rendering)
      (ap : list (any * rendering)) (buf : string) (acc : list any) :
  count_qm pre = 0 ->
  exprLoop (pre ++ sp) (x :: ap) buf acc = exprLoop sp (x :: ap) (buf ++ pre) acc.
Proof.
  revert buf. induction pre as [|c pre IH]; intros buf Hclean.
  - now rewrite append_nil_r.
  - apply is_qm_clean in Hclean. destruct Hclean as [Hc Hpre].
    change (String c pre ++ sp) with (String c (pre ++ sp)).
    destruct x as [a ra]. cbn [exprLoop]. rewrite Hc.
    rewrite (IH (buf ++ String c "") Hpre). now rewrite append_cons_assoc.
Qed.

Lemma processEscapedSQL_clean_prefix (pre sp : string) :
  count_qm pre = 0 ->
  processEscapedSQL (pre ++ sp) = pre ++ processEscapedSQL sp.
Proof.
  induction pre as [|c pre IH]; intro Hclean; [reflexivity|].
  apply is_qm_clean in Hclean. destruct Hclean as [Hc Hpre].
  change (String c pre ++ sp) with (String c (pre ++ sp)).
  rewrite (processEscapedSQL_other c _ Hc), (IH Hpre). reflexivity.
Qed.

Lemma tail_head_clean (tail : string) :
  HasPrefix tail "?" = false ->
  match tail with
  | EmptyString => True
  | String c' _ => is_qm c' = false
  end.
Proof.
  destruct tail as [|c' rest]; [intros _; exact I|]. simpl. intro H.
  unfold is_qm, qm. now rewrite andb_true_r in H.
Qed.

(** An [expr] with one placeholder and a [Sqlizer] for it: the text of the
    argument in the place of the ['?'], its arguments, the rest as it is. *)
Lemma expr_one_sqlizer (pre tail : string) (s : any) (q : string) (qa : list any) :
  count_qm pre = 0 ->
  HasPrefix tail "?" = false ->
  isSqlizer s = true ->
  ToSql_ s = Rendered q qa ->
  ToSql_ (expr (pre ++ "?" ++ tail) [s]) = Rendered (pre ++ q ++ tail) qa.
Proof.
  intros Hpre Htail Hs Hrs. apply tail_head_clean in Htail.
  cbn [ToSql_ forallb map]. rewrite Hs, Hrs. cbn [negb andb].
  rewrite (exprLoop_clean_prefix pre ("?" ++ tail) _ _ "" [] Hpre).
  change ("?" ++ tail) with (String qm tail). cbn [exprLoop].
  change (is_qm qm) with true. cbv iota.
  destruct tail as [|c' rest].
  - rewrite Hs. cbn [exprLoop app]. now rewrite ?append_assoc, ?append_nil_r.
  - rewrite Htail, Hs. cbn [exprLoop app]. now rewrite ?append_assoc.
Qed.

(** X10. Whether an escaped ["??"] after the last placeholder is unescaped
    depends on the kind of the arguments.  With a [Sqlizer] argument the
    loop stops once the arguments are used up and copies the rest of the
    template as it is, pairs included; with bind values only, every pair of
    the template becomes one ['?']. *)
Theorem expr_escape_after_last_placeholder
        (pre tail : string) (s a : any) (q : string) (qa : list any) :
  count_qm pre = 0 ->
  HasPrefix tail "?" = false ->
  isSqlizer s = true ->
  ToSql_ s = Rendered q qa ->
  isSqlizer a = false ->
  ToSql_ (expr (pre ++ "?" ++ tail) [s]) = Rendered (pre ++ q ++ tail) qa
  /\ ToSql_ (expr (pre ++ "?" ++ tail) [a])
     = Rendered (pre ++ "?" ++ processEscapedSQL tail) [a].
Proof.
  intros Hpre Htail Hs Hrs Ha.
  split; [now apply expr_one_sqlizer|].
  apply tail_head_clean in Htail.
  cbn [ToSql_ forallb]. rewrite Ha. cbn [negb andb]. f_equal.
  rewrite (processEscapedSQL_clean_prefix pre _ Hpre). f_equal.
  change ("?" ++ tail) with (String qm tail).
  destruct tail as [|c' rest]; [reflexivity|].
  now rewrite (processEscapedSQL_qm_other qm c' rest eq_refl Htail).
Qed.

Lemma expr_escape_after_last_placeholder_witness :
  ToSql_ (expr "tags @> ? ?? 'x'" [expr "ARRAY[?]" [Str "a"]])
  = Rendered "tags @> ARRAY[?] ?? 'x'" [Str "a"]
  /\ ToSql_ (expr "tags @> ? ?? 'x'" [Str "a"])
     = Rendered "tags @> ? ? 'x'" [Str "a"].
Proof.
  apply (expr_escape_after_last_placeholder "tags @> " " ?? 'x'"
           (expr "ARRAY[?]" [Str "a"]) (Str "a") "ARRAY[?]" [Str "a"]);
    reflexivity.
Defined.

(** ** Conjunctions and concatenations *)

Lemma conjLoop_kept (parts : list any) (outs : list (string * list any)) :
  Forall2 (fun p o => ToSql_ p = Rendered (fst o) (snd o)) parts outs ->
  forall sqlParts args,
    conjLoop (map ToSql_ parts) sqlParts args
    = Ok ((sqlParts ++ map fst (keptParts outs))%list,
          (args ++ concat (map snd (keptParts outs)))%list).
Proof.
  induction 1 as [|p o parts outs Hp _ IH]; intros sqlParts args; simpl.
  - now rewrite !app_nil_r.
  - rewrite Hp. destruct (String.eqb (fst o) ""); simpl; rewrite IH.
    + reflexivity.
    + now rewrite <- !app_assoc.
Qed.

(** X11. A conjunction of parts that all render leaves out every part whose
    text is empty, together with its arguments, and joins the others.  If no
    part has a text, the result is the empty text without arguments, not the
    identity element: that one is returned only for an empty list of parts. *)
Theorem conj_skips_empty_parts
        (parts : list any) (outs : list (string * list any)) (sep defaultExpr : string) :
  Forall2 (fun p o => ToSql_ p = Rendered (fst o) (snd o)) parts outs ->
  parts <> [] ->
  ToSql_ (conj parts sep defaultExpr)
  = Rendered (match keptParts outs with
              | [] => ""
              | _ => if String.eqb sep AndSep
                     then Join (map fst (keptParts outs)) sep
                     else "(" ++ Join (map fst (keptParts outs)) sep ++ ")"
              end)
             (concat (map snd (keptParts outs))).
Proof.
  intros H Hne. pose proof (conjLoop_kept parts outs H [] []) as Hloop.
  simpl in Hloop. cbn [ToSql_].
  destruct parts as [|p parts]; [congruence|]. rewrite Hloop.
  destruct (keptParts outs) as [|o kept]; [reflexivity|].
  cbn [map]. destruct (String.eqb sep AndSep); reflexivity.
Qed.

Lemma conj_skips_empty_parts_witness :
  ToSql_ (AndExpr [part Nil [Int64 1]; expr "a = ?" [Int64 2]; expr "" []])
  = Rendered "a = ?" [Int64 2]
  /\ ToSql_ (OrExpr [part Nil []; expr "" []]) = Rendered "" [].
Proof.
  split.
  - apply (conj_skips_empty_parts
             [part Nil [Int64 1]; expr "a = ?" [Int64 2]; expr "" []]
             [("", []); ("a = ?", [Int64 2]); ("", [])] AndSep sqlTrue).
    + repeat constructor.
    + discriminate.
  - apply (conj_skips_empty_parts [part Nil []; expr "" []] [("", []); ("", [])]
                                  OrSep sqlFalse).
    + repeat constructor.
    + discriminate.
Defined.

Lemma concatLoop_failed (ce : list (any * rendering)) :
  forall acc accArgs sql args e,
    concatLoop ce acc accArgs = Failed sql args e -> sql = "" /\ args = [].
Proof.
  induction ce as [|[p rp] ce IH]; intros acc accArgs sql args e; simpl.
  - discriminate.
  - destruct p; try (intros [= <- <- _]; auto; fail); try apply IH;
      simpl; destruct rp; try (intros [= <- <- _]; auto; fail);
      try discriminate; apply IH.
Qed.

(** X12. A conjunction and a concatenation give no text and no argument
    when a part fails: the error of the first failing part comes alone.
    (An [expr] does return what it had built.) *)
Theorem conj_concat_no_text_on_error
        (parts : list any) (sep defaultExpr sql : string) (args : list any) (e : error) :
  ToSql_ (conj parts sep defaultExpr) = Failed sql args e
  \/ ToSql_ (concatExpr parts) = Failed sql args e ->
  sql = "" /\ args = [].
Proof.
  intros [H | H].
  - cbn [ToSql_] in H. destruct parts as [|p parts]; [discriminate|].
    destruct (conjLoop (map ToSql_ (p :: parts)) [] []) as [[sqlParts out]| e' |q].
    + destruct sqlParts; [discriminate|].
      destruct (String.eqb sep AndSep); discriminate.
    + now injection H as <- <- _.
    + discriminate.
  - cbn [ToSql_] in H. eapply concatLoop_failed. exact H.
Qed.

Lemma conj_concat_no_text_on_error_witness :
  ToSql_ (AndExpr [expr "a = ?" [Int64 1]; part (Int64 2) []]) = Failed "" [] ErrPartPred
  /\ ("" = "" /\ @nil any = []).
Proof.
  split; [reflexivity|].
  apply (conj_concat_no_text_on_error
           [expr "a = ?" [Int64 1]; part (Int64 2) []] AndSep sqlTrue "" [] ErrPartPred).
  left. reflexivity.
Defined.

Lemma concatLoop_acc (ce : list (any * rendering)) :
  forall acc accArgs,
    concatLoop ce acc accArgs
    = match concatLoop ce "" [] with
      | Rendered sql args => Rendered (acc ++ sql) (accArgs ++ args)
      | other => other
      end.
Proof.
  induction ce as [|[p rp] ce IH]; intros acc accArgs.
  - simpl. now rewrite append_nil_r, app_nil_r.
  - assert (Hstr : forall s,
               concatLoop ce (acc ++ s) accArgs
               = match concatLoop ce ("" ++ s) [] with
                 | Rendered sql args => Rendered (acc ++ sql) (accArgs ++ args)
                 | other => other
                 end).
    { intro s. rewrite (IH (acc ++ s) accArgs), (IH ("" ++ s) []).
      destruct (concatLoop ce "" []); try reflexivity.
      now rewrite append_assoc. }
    assert (Hsql : isSqlizer p = true ->
               concatLoop ((p, rp) :: ce) acc accArgs
               = match concatLoop ((p, rp) :: ce) "" [] with
                 | Rendered sql args => Rendered (acc ++ sql) (accArgs ++ args)
                 | other => other
                 end).
    { intro Hp. rewrite !(concatLoop_sqlizer p rp ce _ _ Hp).
      destruct rp as [pSql pArgs| |]; try reflexivity.
      rewrite (IH (acc ++ pSql) (accArgs ++ pArgs)%list), (IH ("" ++ pSql) ([] ++ pArgs)%list).
      destruct (concatLoop ce "" []); try reflexivity.
      now rewrite append_assoc, <- app_assoc. }
    destruct p; try (apply Hsql; reflexivity); try reflexivity; cbn [concatLoop]; apply Hstr.
Qed.

(** X13. Concatenation composes: if two lists of parts render, the list of
    both renders the first text followed by the second, with the arguments
    of the first followed by those of the second. *)
Theorem ConcatExpr_app (l1 l2 : list any) (s1 s2 : string) (a1 a2 : list any) :
  ToSql_ (ConcatExpr l1) = Rendered s1 a1 ->
  ToSql_ (ConcatExpr l2) = Rendered s2 a2 ->
  ToSql_ (ConcatExpr (l1 ++ l2)) = Rendered (s1 ++ s2) (a1 ++ a2).
Proof.
  unfold ConcatExpr. cbn [ToSql_]. rewrite map_app.
  generalize (map (fun a => (a, ToSql_ a)) l2) as ce2.
  generalize (map (fun a => (a, ToSql_ a)) l1) as ce1.
  intros ce1 ce2 H1 H2.
  assert (Happ : forall acc accArgs,
             concatLoop (ce1 ++ ce2) acc accArgs
             = match concatLoop ce1 acc accArgs with
               | Rendered sql args => concatLoop ce2 sql args
               | other => other
               end).
  { clear H1 H2. induction ce1 as [|[p rp] ce1 IH]; intros acc accArgs; [reflexivity|].
    cbn [app concatLoop].
    destruct p; try reflexivity; try apply IH;
      cbn [isSqlizer]; destruct rp; try reflexivity; apply IH. }
  rewrite Happ, H1, concatLoop_acc, H2. reflexivity.
Qed.

Lemma ConcatExpr_app_witness :
  ToSql_ (ConcatExpr ([expr "resource" []; Str "."] ++ [CedarStr "owner"]))
  = Rendered ("resource." ++ "owner") ([] ++ []).
Proof.
  apply (ConcatExpr_app [expr "resource" []; Str "."] [CedarStr "owner"]);
    reflexivity.
Defined.

(** ** What the reducer renders *)

(** One placeholder of the template, met by the loop of [expr.ToSql]. *)
Lemma exprLoop_placeholder (rest : string) (a : any) (ra : rendering)
      (ap : list (any * rendering)) (buf : string) (acc : list any) :
  match rest with
  | EmptyString => True
  | String c' _ => is_qm c' = false
  end ->
  exprLoop (String qm rest) ((a, ra) :: ap) buf acc
  = if isSqlizer a then
      match ra with
      | Rendered isql iargs => exprLoop rest ap (buf ++ isql) (acc ++ iargs)
      | Failed isql iargs e =>
          Failed (buf ++ isql ++ rest) ((acc ++ iargs) ++ map fst ap) e
      | Crashed p => Crashed p
      end
    else exprLoop rest ap (buf ++ "?") (acc ++ [a]).
Proof.
  intro Hrest. cbn [exprLoop]. change (is_qm qm) with true. cbv iota.
  destruct rest as [|c' rest']; [reflexivity|]. now rewrite Hrest.
Qed.

Lemma binary_template (op : string) :
  "? " ++ op ++ " ?" = String qm ((" " ++ op ++ " ") ++ String qm "").
Proof. cbn [append]. now rewrite append_assoc. Qed.

(** A template [? op ?] with an operator without ['?']: the two operands
    around the operator. *)
Lemma expr_binary_render (op : string) (x y : any)
      (tx ty : string) (ax ay : list any) :
  count_qm op = 0 ->
  slotRenders x tx ax ->
  slotRenders y ty ay ->
  ToSql_ (expr ("? " ++ op ++ " ?") [x; y])
  = Rendered (tx ++ " " ++ op ++ " " ++ ty) (ax ++ ay).
Proof.
  intros Hop Hx Hy. unfold slotRenders in *.
  assert (Hmid : count_qm (" " ++ op ++ " ") = 0)
    by (rewrite !count_qm_append, Hop; reflexivity).
  rewrite (binary_template op).
  cbn [ToSql_ forallb map].
  destruct (isSqlizer x) eqn:Hsx; destruct (isSqlizer y) eqn:Hsy; cbn [negb andb];
    try (rewrite (exprLoop_placeholder ((" " ++ op ++ " ") ++ String qm "")
                                       x (ToSql_ x) [(y, ToSql_ y)] "" []
                                       (eq_refl : is_qm " "%char = false)), Hsx;
         try rewrite Hx;
         rewrite (exprLoop_clean_prefix _ _ _ _ _ _ Hmid);
         rewrite (exprLoop_placeholder "" y (ToSql_ y) [] _ _ I), Hsy;
         try rewrite Hy;
         cbn [exprLoop app]).
  - now rewrite !append_assoc, append_nil_r.
  - destruct Hy as [-> ->]. now rewrite !append_assoc, append_nil_r.
  - destruct Hx as [-> ->]. now rewrite !append_assoc, append_nil_r.
  - destruct Hx as [-> ->]. destruct Hy as [-> ->]. f_equal.
    change ((" " ++ op ++ " ") ++ String qm "")
      with (String " "%char ((op ++ " ") ++ String qm "")).
    rewrite (processEscapedSQL_qm_other qm " "%char _ eq_refl eq_refl).
    change (String " "%char ((op ++ " ") ++ String qm ""))
      with ((" " ++ op ++ " ") ++ String qm "").
    rewrite (processEscapedSQL_clean_prefix _ _ Hmid).
    now rewrite !append_assoc.
Qed.

Lemma Compare_renders (op : string) (l r : result)
      (lt rt : string) (la ra : list any) :
  count_qm op = 0 ->
  unescapedCount ("? " ++ op ++ " ?") = 2 ->
  isValue l && isValue r = false ->
  operandRenders l lt la ->
  operandRenders r rt ra ->
  exists res,
    Compare l r ("? " ++ op ++ " ?") = Ok res
    /\ isValue res = false
    /\ result_ToSql res = Rendered (lt ++ " " ++ op ++ " " ++ rt) (la ++ ra).
Proof.
  intros Hop Harity Hboth Hl Hr. unfold Compare, operandRenders in *.
  assert (HExpr : forall x y, Expr ("? " ++ op ++ " ?") [x; y]
                              = Ok (expr ("? " ++ op ++ " ?") [x; y])).
  { intros x y. rewrite Expr_unescaped, Harity. reflexivity. }
  destruct (isValue l) eqn:Hvl.
  - destruct (isValue r) eqn:Hvr; [discriminate|].
    destruct Hl as (arg & Harg & -> & ->). destruct Hr as [Hsq Hrr].
    rewrite Harg. cbn [bind]. rewrite HExpr. cbn [bind].
    eexists. split; [reflexivity|]. split; [reflexivity|].
    unfold result_ToSql. cbn [sqlizer].
    apply expr_binary_render; [exact Hop | | ].
    + unfold slotRenders. rewrite (ValueToGoValue_scalar _ _ Harg). auto.
    + unfold slotRenders. now rewrite Hsq.
  - destruct Hl as [Hsql Hrl].
    destruct (isValue r) eqn:Hvr.
    + destruct Hr as (arg & Harg & -> & ->).
      rewrite Harg. cbn [bind]. rewrite HExpr. cbn [bind].
      eexists. split; [reflexivity|]. split; [reflexivity|].
      unfold result_ToSql. cbn [sqlizer].
      apply expr_binary_render; [exact Hop | | ].
      * unfold slotRenders. now rewrite Hsql.
      * unfold slotRenders. rewrite (ValueToGoValue_scalar _ _ Harg). auto.
    + destruct Hr as [Hsqr Hrr]. rewrite HExpr. cbn [bind].
      eexists. split; [reflexivity|]. split; [reflexivity|].
      unfold result_ToSql. cbn [sqlizer].
      apply expr_binary_render; [exact Hop | | ].
      * unfold slotRenders. now rewrite Hsql.
      * unfold slotRenders. now rewrite Hsqr.
Qed.

Lemma binaryDispatch_comparison (k : BinKind) (l r : result)
      (lt rt : string) (la ra : list any) :
  isComparison k = true ->
  isValue l && isValue r = false ->
  operandRenders l lt la ->
  operandRenders r rt ra ->
  exists res,
    binaryDispatch k l r = Ok res
    /\ isValue res = false
    /\ result_ToSql res
       = Rendered (lt ++ " " ++ getBinaryFields_op k ++ " " ++ rt) (la ++ ra).
Proof.
  intros Hk Hboth Hl Hr.
  destruct k; try discriminate;
    match goal with
    | |- context [getBinaryFields_op ?k'] =>
        exact (Compare_renders (getBinaryFields_op k') l r lt rt la ra
                               eq_refl eq_refl Hboth Hl Hr)
    end.
Qed.

Lemma mappedPath_fragment (mapper : option FieldMapper) (s : any) (field : string)
      (q : string) (qa : list any) :
  isSqlizer s = true ->
  ToSql_ s = Rendered q qa ->
  mappedPath mapper s field
  = (mapped <- mapPath mapper (q ++ "." ++ field) ;; Ok (mapped, qa)).
Proof.
  intros Hsq Hq. unfold mappedPath, ConcatExpr, mapPath.
  change (ToSql_ (concatExpr [s; Str "."; CedarStr field]))
    with (concatLoop [(s, ToSql_ s); (Str ".", ToSql_ (Str "."));
                      (CedarStr field, ToSql_ (CedarStr field))] "" []).
  rewrite (concatLoop_sqlizer s _ _ _ _ Hsq), Hq.
  cbn [concatLoop checked bind fst snd app append]. rewrite append_assoc.
  destruct mapper as [m|]; reflexivity.
Qed.

Section ReducerRenders.

Variable lib : Cedar.
Variable env : Env (EntityGetter lib).
Variable mapper : option FieldMapper.

(** X14. A comparison or an arithmetic node whose operands are not both
    concrete renders its left operand, the operator that [getBinaryFields]
    names for its kind, and its right operand, with single spaces between;
    a concrete operand is a ['?'] on its own side with its bind value, and
    the arguments come in the order of the text. *)
Theorem comparison_rendering (k : BinKind) (left right : Node) (l r : result)
        (lt rt : string) (la ra : list any) :
  isComparison k = true ->
  toSqlOrValue lib env mapper left = Ok l ->
  toSqlOrValue lib env mapper right = Ok r ->
  isValue l && isValue r = false ->
  operandRenders l lt la ->
  operandRenders r rt ra ->
  reducesTo lib env mapper (NodeBinary k left right)
            (lt ++ " " ++ getBinaryFields_op k ++ " " ++ rt) (la ++ ra).
Proof.
  intros Hk Hl Hr Hboth Hol Hor. unfold reducesTo.
  cbn [toSqlOrValue]. unfold toSqlBinary. rewrite Hl, Hr. cbn [bind].
  rewrite Hboth. now apply binaryDispatch_comparison.
Qed.

(** X15. Over an operand that reduces to a fragment, [!] wraps the text of
    the operand in [NOT (...)] and [isEmpty()] appends [IS NULL]; the
    arguments of the operand pass through unchanged. *)
Theorem not_isEmpty_rendering (arg : Node) (q : string) (qa : list any) :
  reducesTo lib env mapper arg q qa ->
  reducesTo lib env mapper (NodeTypeNot arg) ("NOT (" ++ q ++ ")") qa
  /\ reducesTo lib env mapper (NodeTypeIsEmpty arg) (q ++ " IS NULL") qa.
Proof.
  intros (r & Hr & Hv & Hq).
  destruct (toSqlOrValue_sound lib env mapper arg r Hr) as [_ Hsq].
  specialize (Hsq Hv). unfold result_ToSql in Hq.
  split.
  - exists (fragment (expr "NOT (?)" [sqlizer r])). split; [|split].
    + cbn [toSqlOrValue]. unfold toSqlNot. rewrite Hr. cbn [bind]. now rewrite Hv.
    + reflexivity.
    + exact (expr_one_sqlizer "NOT (" ")" _ q qa eq_refl eq_refl Hsq Hq).
  - exists (fragment (expr "? IS NULL" [sqlizer r])). split; [|split].
    + cbn [toSqlOrValue]. unfold toSqlEmpty. rewrite Hr. cbn [bind]. now rewrite Hv.
    + reflexivity.
    + exact (expr_one_sqlizer "" " IS NULL" _ q qa eq_refl eq_refl Hsq Hq).
Qed.

(** X16. An attribute access under an operand that reduces to a fragment
    hands the mapper the text that the operand rendered, a dot and the field
    name: under a nested access the mapper sees the path that it has already
    rewritten.  What the mapper returns is the text of the access, with the
    arguments of the operand; an error of the mapper is the error of the
    reduction. *)
Theorem access_rendering (arg : Node) (field : string) (q : string) (qa : list any) :
  reducesTo lib env mapper arg q qa ->
  match mapPath mapper (q ++ "." ++ field) with
  | Ok mapped => reducesTo lib env mapper (NodeTypeAccess arg field) mapped qa
  | Err e => toSqlOrValue lib env mapper (NodeTypeAccess arg field) = Err e
  | Panic p => toSqlOrValue lib env mapper (NodeTypeAccess arg field) = Panic p
  end.
Proof.
  intros (r & Hr & Hv & Hq).
  destruct (toSqlOrValue_sound lib env mapper arg r Hr) as [_ Hsq].
  specialize (Hsq Hv). unfold result_ToSql in Hq.
  assert (Hstep : toSqlOrValue lib env mapper (NodeTypeAccess arg field)
                  = (sa <- mappedPath mapper (sqlizer r) field ;;
                     valueToResult false VNil (newPart (Str (fst sa)) (snd sa)))).
  { cbn [toSqlOrValue]. unfold toAccess. rewrite Hr. cbn [bind]. now rewrite Hv. }
  rewrite (mappedPath_fragment mapper _ field q qa Hsq Hq) in Hstep.
  destruct (mapPath mapper (q ++ "." ++ field)) as [mapped|e|p]; cbn [bind] in Hstep.
  - exists (fragment (part (Str mapped) qa)). repeat split. exact Hstep.
  - exact Hstep.
  - exact Hstep.
Qed.

(** X17. [has] under an operand that reduces to a fragment builds a template
    from the mapped path: a path whose count of unescaped ['?'] differs from
    the number of arguments of the operand makes the constructor panic;
    otherwise the text is the mapped path with every ["??"] turned into one
    ['?'], followed by [IS NOT NULL], where an access keeps the path as the
    mapper returned it. *)
Theorem has_rendering (arg : Node) (field : string) (q : string) (qa : list any) :
  reducesTo lib env mapper arg q qa ->
  match mapPath mapper (q ++ "." ++ field) with
  | Ok mapped =>
      if Nat.eqb (unescapedCount mapped) (List.length qa)
      then reducesTo lib env mapper (NodeTypeHas arg field)
                     (processEscapedSQL mapped ++ " IS NOT NULL") qa
      else toSqlOrValue lib env mapper (NodeTypeHas arg field)
           = Panic (PanicExprArity (unescapedCount mapped) (List.length qa) mapped)
  | Err e => toSqlOrValue lib env mapper (NodeTypeHas arg field) = Err e
  | Panic p => toSqlOrValue lib env mapper (NodeTypeHas arg field) = Panic p
  end.
Proof.
  intros (r & Hr & Hv & Hq).
  destruct (toSqlOrValue_sound lib env mapper arg r Hr) as [[_ Hsc] Hsq].
  specialize (Hsq Hv). unfold result_ToSql in Hq. specialize (Hsc _ _ Hq).
  assert (Hstep : toSqlOrValue lib env mapper (NodeTypeHas arg field)
                  = (sa <- mappedPath mapper (sqlizer r) field ;;
                     inner <- Expr (fst sa) (snd sa) ;;
                     s <- Expr "? IS NOT NULL" [inner] ;;
                     valueToResult false VNil s)).
  { cbn [toSqlOrValue]. unfold toSqlHas. rewrite Hr. cbn [bind]. now rewrite Hv. }
  rewrite (mappedPath_fragment mapper _ field q qa Hsq Hq) in Hstep.
  destruct (mapPath mapper (q ++ "." ++ field)) as [mapped|e|p];
    cbn [bind fst snd] in Hstep; [|exact Hstep|exact Hstep].
  rewrite Expr_unescaped in Hstep.
  destruct (Nat.eqb (unescapedCount mapped) (List.length qa)); [|exact Hstep].
  cbn [bind] in Hstep.
  exists (fragment (expr "? IS NOT NULL" [expr mapped qa])). split; [|split].
  - exact Hstep.
  - reflexivity.
  - apply (expr_one_sqlizer "" " IS NOT NULL" (expr mapped qa)
                            (processEscapedSQL mapped) qa eq_refl eq_refl eq_refl).
    cbn [ToSql_].
    replace (forallb (fun a => negb (isSqlizer a)) qa) with true; [reflexivity|].
    symmetry. apply forallb_forall. intros x Hx.
    rewrite Forall_forall in Hsc. specialize (Hsc x Hx). unfold scalar in Hsc.
    now rewrite Hsc.
Qed.

(** X18. [in] puts its right operand first: with a right operand that reduces
    to a fragment the text is that of the right operand, the operator ['?']
    and the left operand, a concrete left operand being a ['?'] with its bind
    value last among the arguments. *)
Theorem in_rendering (left right : Node) (l r : result)
        (lt rt : string) (la ra : list any) :
  toSqlOrValue lib env mapper left = Ok l ->
  toSqlOrValue lib env mapper right = Ok r ->
  isValue r = false ->
  result_ToSql r = Rendered rt ra ->
  operandRenders l lt la ->
  reducesTo lib env mapper (NodeTypeIn left right) (rt ++ " ? " ++ lt) (ra ++ la).
Proof.
  intros Hl Hr Hvr Hq Hol.
  assert (Hstep : toSqlOrValue lib env mapper (NodeTypeIn left right)
                  = if isValue l then
                      leftArg <- Arg l ;;
                      s <- Expr "? ?? ?" [sqlizer r; leftArg] ;;
                      valueToResult false VNil s
                    else
                      s <- Expr "? ?? ?" [sqlizer r; sqlizer l] ;;
                      valueToResult false VNil s).
  { cbn [toSqlOrValue]. unfold toSqlIn. rewrite Hl, Hr. cbn [bind].
    rewrite Hvr, andb_false_r. reflexivity. }
  destruct (toSqlOrValue_sound lib env mapper right r Hr) as [_ Hsqr].
  specialize (Hsqr Hvr). unfold result_ToSql in Hq.
  unfold operandRenders in Hol.
  destruct (isValue l) eqn:Hvl.
  - destruct Hol as (arg & Harg & -> & ->). rewrite Harg in Hstep.
    cbn [bind] in Hstep.
    exists (fragment (expr "? ?? ?" [sqlizer r; arg])). split; [|split].
    + exact Hstep.
    + reflexivity.
    + unfold result_ToSql. cbn [sqlizer fragment ToSql_ forallb map].
      rewrite Hsqr, Hq. cbn [negb andb exprLoop is_qm].
      cbn. rewrite Hsqr, (ValueToGoValue_scalar _ _ Harg).
      now rewrite !append_assoc.
  - destruct Hol as [Hsql Hql].
    exists (fragment (expr "? ?? ?" [sqlizer r; sqlizer l])). split; [|split].
    + exact Hstep.
    + reflexivity.
    + unfold result_ToSql. cbn [sqlizer fragment ToSql_ forallb map].
      rewrite Hsqr, Hq, Hql. cbn. rewrite Hsqr, Hsql.
      now rewrite !append_assoc, ?append_nil_r.
Qed.

End ReducerRenders.

Lemma comparison_rendering_witness :
  reducesTo Demo.lib (Demo.env Demo.bob) None
            (NodeBinary KLessThanOrEqual (NodeValue (VLong 18))
                        (NodeTypeVariable "resource"))
            ("?" ++ " " ++ "<=" ++ " " ++ "resource") ([Int64 18] ++ []).
Proof.
  apply (comparison_rendering Demo.lib (Demo.env Demo.bob) None KLessThanOrEqual
           (NodeValue (VLong 18)) (NodeTypeVariable "resource")
           (concrete (VLong 18)) (mkResult false (eval_Variable "resource")
                                           (expr "resource" []))
           "?" "resource" [Int64 18] []).
  - reflexivity.
  - reflexivity.
  - reflexivity.
  - reflexivity.
  - exists (Int64 18). repeat split.
  - split; reflexivity.
Defined.

Lemma not_isEmpty_rendering_witness :
  reducesTo Demo.lib (Demo.env Demo.bob) None
            (NodeTypeNot (Demo.resource_attr "archived"))
            ("NOT (" ++ "resource.archived" ++ ")") []
  /\ reducesTo Demo.lib (Demo.env Demo.bob) None
               (NodeTypeIsEmpty (Demo.resource_attr "archived"))
               ("resource.archived" ++ " IS NULL") [].
Proof.
  apply (not_isEmpty_rendering Demo.lib (Demo.env Demo.bob) None
           (Demo.resource_attr "archived") "resource.archived" []).
  exists (fragment (part (Str "resource.archived") [])). repeat split.
Defined.

Lemma access_rendering_witness :
  reducesTo Demo.lib (Demo.env Demo.bob) (Some fileMapper_Map)
            (NodeTypeAccess (Demo.resource_attr "owner") "name")
            "files.owner.name" [].
Proof.
  apply (access_rendering Demo.lib (Demo.env Demo.bob) (Some fileMapper_Map)
           (Demo.resource_attr "owner") "name" "files.owner" []).
  exists (fragment (part (Str "files.owner") [])). repeat split.
Defined.

Lemma has_rendering_witness :
  reducesTo Demo.lib (Demo.env Demo.bob) None
            (NodeTypeHas (NodeTypeVariable "resource") "owner")
            (processEscapedSQL "resource.owner" ++ " IS NOT NULL") [].
Proof.
  apply (has_rendering Demo.lib (Demo.env Demo.bob) None
           (NodeTypeVariable "resource") "owner" "resource" []).
  exists (mkResult false (eval_Variable "resource") (expr "resource" [])).
  repeat split.
Defined.

Lemma in_rendering_witness :
  reducesTo Demo.lib (Demo.env Demo.bob) None
            (NodeTypeIn (NodeValue Demo.bob) (Demo.resource_attr "groups"))
            ("resource.groups" ++ " ? " ++ "?") ([] ++ [Str "bob"]).
Proof.
  apply (in_rendering Demo.lib (Demo.env Demo.bob) None
           (NodeValue Demo.bob) (Demo.resource_attr "groups")
           (concrete Demo.bob) (fragment (part (Str "resource.groups") []))
           "?" "resource.groups" [Str "bob"] []).
  - reflexivity.
  - reflexivity.
  - reflexivity.
  - reflexivity.
  - exists (Str "bob"). repeat split.
Defined.

(** ** The two shapes of a result *)

Lemma valueToResult_wellFormed (iv : bool) (v : Value) (s : any) (r : result) :
  valueToResult iv v s = Ok r ->
  (iv = true -> s = Nil) ->
  (iv = false -> isSqlizer s = true) ->
  wellFormed r.
Proof.
  unfold valueToResult, wellFormed. intros H Hnil Hsq.
  destruct (ToVariable v) as [name|] eqn:Hvar.
  - bind_inv. apply Expr_Ok in Ha. destruct Ha as [-> _]. reflexivity.
  - bind_inv. cbn [isValue sqlizer value]. destruct iv; auto.
Qed.

Lemma Expr_fragment_wellFormed (sql : string) (args : list any) (s : any) (r : result) :
  Expr sql args = Ok s ->
  valueToResult false VNil s = Ok r ->
  wellFormed r.
Proof.
  intros HE Hr. apply Expr_Ok in HE. destruct HE as [-> _].
  eapply valueToResult_wellFormed; [exact Hr | discriminate | reflexivity].
Qed.

Lemma binaryDispatch_wellFormed (k : BinKind) (l r res : result) :
  binaryDispatch k l r = Ok res -> wellFormed l -> wellFormed r -> wellFormed res.
Proof.
  intros H Hl Hr.
  destruct k; cbn [binaryDispatch] in H;
    try (unfold Compare in H;
         destruct (isValue l); [|destruct (isValue r)]; bind_inv;
         eapply Expr_fragment_wellFormed; eassumption);
    try (unfold JsonCompareText in H;
         destruct (isValue l); [discriminate|destruct (isValue r)]; bind_inv;
         eapply Expr_fragment_wellFormed; eassumption).
  - unfold And in H. bind_inv. destruct a; [now bind_inv|].
    destruct (isValue r) eqn:Hvr.
    + bind_inv. destruct a; [now bind_inv|].
      eapply valueToResult_wellFormed; [exact H | discriminate | reflexivity].
    + eapply valueToResult_wellFormed; [exact H | discriminate | reflexivity].
  - unfold Or in H. bind_inv. destruct a; [now bind_inv|].
    bind_inv. destruct a; [now bind_inv|].
    eapply valueToResult_wellFormed; [exact H | discriminate | reflexivity].
Qed.

Lemma mappedPath_default (s : any) (field : string) :
  mappedPath None s field = mappedPath (Some DefaultFieldMapper) s field.
Proof.
  unfold mappedPath, DefaultFieldMapper.
  destruct (checked (ToSql_ (ConcatExpr [s; Str "."; CedarStr field]))) as [[sql args]| |];
    reflexivity.
Qed.

Section ReducerShape.

Variable lib : Cedar.
Variable env : Env (EntityGetter lib).

(** X19. Whatever the node, the evaluator and the mapper, a result of the
    reducer has one of two shapes: a value, which then is no variable
    sentinel and carries no fragment, or a fragment that is a [Sqlizer].  A
    sentinel is never handed on as a concrete value, and the nil fragment of
    a value is never what a fragment result holds. *)
Theorem reducer_result_shape (mapper : option FieldMapper) (node : Node) (r : result) :
  toSqlOrValue lib env mapper node = Ok r ->
  wellFormed r.
Proof.
  revert r.
  induction node; intros r H; cbn [toSqlOrValue] in H;
    try (unfold evalOnly, toSqlVariable in H; bind_inv;
         eapply valueToResult_wellFormed; [eassumption | reflexivity | discriminate]).
  - unfold toAccess in H. bind_inv.
    destruct (isValue a) eqn:Hv; bind_inv.
    + eapply valueToResult_wellFormed; [eassumption | reflexivity | discriminate].
    + eapply valueToResult_wellFormed; [eassumption | discriminate | reflexivity].
  - unfold toSqlHas in H. bind_inv.
    destruct (isValue a) eqn:Hv; bind_inv.
    + eapply valueToResult_wellFormed; [eassumption | reflexivity | discriminate].
    + eapply Expr_fragment_wellFormed; eassumption.
  - unfold toSqlNot in H. bind_inv.
    destruct (isValue a) eqn:Hv; bind_inv.
    + eapply valueToResult_wellFormed; [eassumption | reflexivity | discriminate].
    + eapply Expr_fragment_wellFormed; eassumption.
  - unfold toSqlEmpty in H. bind_inv.
    destruct (isValue a) eqn:Hv; bind_inv.
    + eapply valueToResult_wellFormed; [eassumption | reflexivity | discriminate].
    + eapply Expr_fragment_wellFormed; eassumption.
  - unfold toSqlBinary in H. bind_inv.
    specialize (IHnode1 _ Ha). specialize (IHnode2 _ Ha0).
    destruct (isValue a && isValue a0); bind_inv.
    + eapply valueToResult_wellFormed; [eassumption | reflexivity | discriminate].
    + eapply binaryDispatch_wellFormed; eassumption.
  - unfold toSqlIn in H. bind_inv.
    destruct (isValue a && isValue a0); bind_inv.
    + eapply valueToResult_wellFormed; [eassumption | reflexivity | discriminate].
    + destruct (isValue a); [|destruct (isValue a0)]; bind_inv;
        eapply Expr_fragment_wellFormed; eassumption.
  - destruct (ToPartialError lib (NodeTypeExtensionCall name args)); [discriminate|].
    unfold evalOnly in H. bind_inv.
    eapply valueToResult_wellFormed; [eassumption | reflexivity | discriminate].
  - discriminate H.
Qed.

Lemma toSqlOrValue_default (node : Node) :
  toSqlOrValue lib env None node = toSqlOrValue lib env (Some DefaultFieldMapper) node.
Proof.
  induction node; cbn [toSqlOrValue]; try reflexivity.
  - unfold toAccess. rewrite IHnode.
    destruct (toSqlOrValue lib env (Some DefaultFieldMapper) node) as [r| |];
      cbn [bind]; try reflexivity.
    destruct (isValue r); [reflexivity|]. now rewrite mappedPath_default.
  - unfold toSqlHas. rewrite IHnode.
    destruct (toSqlOrValue lib env (Some DefaultFieldMapper) node) as [r| |];
      cbn [bind]; try reflexivity.
    destruct (isValue r); [reflexivity|]. now rewrite mappedPath_default.
  - unfold toSqlNot. now rewrite IHnode.
  - unfold toSqlEmpty. now rewrite IHnode.
  - unfold toSqlBinary. now rewrite IHnode1, IHnode2.
  - unfold toSqlIn. now rewrite IHnode1, IHnode2.
Qed.

(** X20. A nil mapper and [DefaultFieldMapper] are the same mapper: [ToSql]
    returns the same text, arguments, error or panic with either, on every
    node; and [AuthorizeSQL] on a request without a mapper is [AuthorizeSQL]
    on the request with [DefaultFieldMapper]. *)
Theorem nil_mapper_is_default :
  (forall node,
      ToSql lib env None node = ToSql lib env (Some DefaultFieldMapper) node)
  /\ (forall policies entities principal action context,
         AuthorizeSQL lib policies entities
                      (mkRequest principal action context None)
         = AuthorizeSQL lib policies entities
                        (mkRequest principal action context (Some DefaultFieldMapper))).
Proof.
  split.
  - intro node. unfold ToSql. now rewrite toSqlOrValue_default.
  - reflexivity.
Qed.

End ReducerShape.

Lemma reducer_result_shape_witness :
  wellFormed (mkResult false (eval_Variable "resource") (expr "resource" [])).
Proof.
  apply (reducer_result_shape Demo.lib (Demo.env Demo.bob) None
                              (NodeTypeVariable "resource")).
  reflexivity.
Defined.

(** ** The policy loop and the residual it builds *)

Section CombinerMore.

Variable lib : Cedar.
Variable env : Env (EntityGetter lib).

Lemma classify_app (pre post : list (PolicyID * Policy lib)) :
  forall b,
    classify lib env (pre ++ post)%list b
    = (b' <- classify lib env pre b ;; classify lib env post b').
Proof.
  induction pre as [|[pid p] pre IH]; intro b; [reflexivity|].
  cbn [app classify].
  destruct (classifyStep lib env b pid p) as [b1| |]; cbn [bind]; auto.
Qed.

Lemma classify_error (pre post : list (PolicyID * Policy lib))
      (pid : PolicyID) (p : Policy lib) (e : error) (b : buckets) :
  (forall pid' p', In (pid', p') pre -> exists sn, partial lib env (AST p') = Ok sn) ->
  partial lib env (AST p) = Err e ->
  classify lib env (pre ++ (pid, p) :: post)%list b = Err e.
Proof.
  intros Hpre Hp. rewrite classify_app.
  destruct (classify_total lib env pre Hpre b) as [b' ->].
  cbn [bind classify]. unfold classifyStep. now rewrite Hp.
Qed.

Lemma classifyStep_keeps_no_forbid (b b' : buckets) (pid : PolicyID) (p : Policy lib) :
  (Effect_ p = Forbid -> forall sn, partial lib env (AST p) = Ok sn -> fst sn = false) ->
  classifyStep lib env b pid p = Ok b' ->
  forbids b = [] -> forbids b' = [].
Proof.
  unfold classifyStep. intros Hno.
  destruct (partial lib env (AST p)) as [[sat rem]| |] eqn:Hp; cbn [bind fst snd];
    try discriminate.
  destruct (Effect_ p) eqn:Heff.
  - destruct sat, rem; intros [= <-]; auto.
  - pose proof (Hno eq_refl (sat, rem) eq_refl) as Hs. cbn [fst] in Hs. subst sat.
    destruct rem; intros [= <-]; auto.
Qed.

Lemma classify_keeps_no_forbid (policies : list (PolicyID * Policy lib)) :
  (forall pid p, In (pid, p) policies -> Effect_ p = Forbid ->
                 forall sn, partial lib env (AST p) = Ok sn -> fst sn = false) ->
  forall b b', classify lib env policies b = Ok b' ->
               forbids b = [] -> forbids b' = [].
Proof.
  induction policies as [|[pid p] rest IH]; intros Hno b b'; cbn [classify].
  - now intros [= <-].
  - destruct (classifyStep lib env b pid p) as [b1| |] eqn:Hstep; cbn [bind];
      try discriminate.
    intros Hrest Hb. eapply IH; [|exact Hrest|].
    + intros pid' p' Hin. apply (Hno pid' p'). now right.
    + eapply classifyStep_keeps_no_forbid; [|exact Hstep|exact Hb].
      apply (Hno pid p). now left.
Qed.

Lemma classifyStep_permits (b b' : buckets) (pid : PolicyID) (p : Policy lib) :
  classifyStep lib env b pid p = Ok b' ->
  permits b <> [] -> permits b' <> [].
Proof.
  unfold classifyStep. destruct (partial lib env (AST p)) as [[sat rem]| |]; simpl;
    try discriminate.
  destruct sat, rem, (Effect_ p); simpl; intros [= <-]; simpl; auto;
    intros Hne Happ; apply app_eq_nil in Happ; tauto.
Qed.

Lemma classify_permits (policies : list (PolicyID * Policy lib)) :
  forall b b', classify lib env policies b = Ok b' ->
               permits b <> [] -> permits b' <> [].
Proof.
  induction policies as [|[pid p] rest IH]; simpl; intros b b'.
  - now intros [= <-].
  - destruct (classifyStep lib env b pid p) as [b1| |] eqn:Hstep; simpl; try discriminate.
    intros Hrest Hne. eapply IH; [exact Hrest|].
    eapply classifyStep_permits; eauto.
Qed.

Lemma classify_satisfied_permit (policies : list (PolicyID * Policy lib))
      (pid : PolicyID) (p : Policy lib) :
  In (pid, p) policies ->
  Effect_ p = Permit ->
  partial lib env (AST p) = Ok (true, None) ->
  forall b b', classify lib env policies b = Ok b' -> permits b' <> [].
Proof.
  intros Hin Heff Hsat.
  induction policies as [|[pid0 p0] rest IH]; [destruct Hin|].
  simpl. intros b b'.
  destruct (classifyStep lib env b pid0 p0) as [b1| |] eqn:Hstep; simpl; try discriminate.
  intro Hrest. destruct Hin as [Heq | Hin].
  - injection Heq as -> ->.
    eapply classify_permits; [exact Hrest|].
    unfold classifyStep in Hstep. rewrite Hsat, Heff in Hstep. simpl in Hstep.
    injection Hstep as <-. simpl.
    intro Happ. apply app_eq_nil in Happ. destruct Happ; discriminate.
  - eapply IH; eauto.
Qed.

Variable mapper : option FieldMapper.

(** [false || n] and [true && n] over a node that reduces to a fragment. *)
Lemma or_false_fragment (n : Node) (r : result) :
  toSqlOrValue lib env mapper n = Ok r ->
  isValue r = false ->
  toSqlOrValue lib env mapper (NodeTypeOr ast_False n) = Ok r.
Proof.
  intros Hn Hv. unfold NodeTypeOr, ast_False. cbn [toSqlOrValue].
  unfold toSqlBinary. cbn [toSqlOrValue]. rewrite Hn.
  cbn. rewrite Hv. cbn. unfold Or. cbn. reflexivity.
Qed.

Lemma and_true_fragment (n : Node) (r : result) :
  toSqlOrValue lib env mapper n = Ok r ->
  isValue r = false ->
  toSqlOrValue lib env mapper (NodeTypeAnd ast_True n) = Ok r.
Proof.
  intros Hn Hv. unfold NodeTypeAnd, ast_True. cbn [toSqlOrValue].
  unfold toSqlBinary. cbn [toSqlOrValue]. rewrite Hn.
  cbn. rewrite Hv. cbn. unfold And. cbn. reflexivity.
Qed.

Lemma not_fragment (n : Node) (r : result) :
  toSqlOrValue lib env mapper n = Ok r ->
  isValue r = false ->
  toSqlOrValue lib env mapper (NodeTypeNot n)
  = Ok (fragment (expr "NOT (?)" [sqlizer r])).
Proof.
  intros Hn Hv. cbn [toSqlOrValue]. unfold toSqlNot. rewrite Hn. cbn [bind].
  now rewrite Hv.
Qed.

(** The residual of one permit remainder and no forbid remainder reduces to
    what the remainder reduces to. *)
Lemma permit_remainder_reduces (n : Node) (r : result) :
  eval_Eval lib (NodeTypeNot (NodeValue (VBoolean false))) env = Ok (VBoolean true) ->
  toSqlOrValue lib env mapper n = Ok r ->
  isValue r = false ->
  toSqlOrValue lib env mapper
               (NodeTypeAnd (NodeTypeAnd ast_True (NodeTypeOr ast_False n))
                            (NodeTypeNot ast_False))
  = Ok r.
Proof.
  intros Hnot Hn Hv.
  pose proof (and_true_fragment _ _ (or_false_fragment _ _ Hn Hv) Hv) as Hleft.
  unfold NodeTypeAnd at 1. cbn [toSqlOrValue]. unfold toSqlBinary.
  rewrite Hleft. cbn [bind].
  unfold ast_False at 1. cbn [toSqlOrValue]. unfold toSqlNot.
  cbn [toSqlOrValue valueToResult ToVariable bind isValue value].
  rewrite Hnot. cbn [bind valueToResult ToVariable isValue].
  rewrite Hv. cbn [andb binaryDispatch]. unfold And. rewrite Hv.
  reflexivity.
Qed.

(** The residual of one permit remainder and one forbid remainder reduces to
    the conjunction of the one and the negation of the other. *)
Lemma permit_forbid_remainders_reduce (n m : Node) (r s : result) :
  toSqlOrValue lib env mapper n = Ok r ->
  isValue r = false ->
  toSqlOrValue lib env mapper m = Ok s ->
  isValue s = false ->
  toSqlOrValue lib env mapper
               (NodeTypeAnd (NodeTypeAnd ast_True (NodeTypeOr ast_False n))
                            (NodeTypeNot (NodeTypeOr ast_False m)))
  = Ok (fragment (AndExpr [sqlizer r; expr "NOT (?)" [sqlizer s]])).
Proof.
  intros Hn Hvn Hm Hvm.
  pose proof (and_true_fragment _ _ (or_false_fragment _ _ Hn Hvn) Hvn) as Hleft.
  pose proof (not_fragment _ _ (or_false_fragment _ _ Hm Hvm) Hvm) as Hright.
  unfold NodeTypeAnd at 1. cbn [toSqlOrValue]. unfold toSqlBinary.
  fold (toSqlOrValue lib env mapper).
  change (NodeBinary KAnd ast_True (NodeTypeOr ast_False n))
    with (NodeTypeAnd ast_True (NodeTypeOr ast_False n)).
  rewrite Hleft. cbn [bind]. rewrite Hright. cbn [bind].
  rewrite Hvn. cbn [andb binaryDispatch]. unfold And. rewrite Hvn.
  reflexivity.
Qed.

End CombinerMore.

(** The mapper that [AuthorizeSQL] hands to [ToSql]. *)
Lemma AuthorizeSQL_classified (lib : Cedar) (policies : list (PolicyID * Policy lib))
      (entities : EntityGetter lib) (req : AuthorizeSQLRequest) (b : buckets) :
  classify lib (requestEnv lib entities req) policies emptyBuckets = Ok b ->
  AuthorizeSQL lib policies entities req
  = ToSql lib (requestEnv lib entities req) (Some (requestMapper req)) (finalNode b).
Proof. unfold AuthorizeSQL. cbv zeta. now intros ->. Qed.

(** X21. The policy loop stops at the first policy on which [partial] fails:
    [AuthorizeSQL] returns that error, with no text and no argument,
    whatever the policies before it decided (a satisfied forbid among them
    does not turn the error into ["1 = 0"]) and whatever follows. *)
Theorem AuthorizeSQL_partial_error
        (lib : Cedar) (pre post : list (PolicyID * Policy lib))
        (pid : PolicyID) (p : Policy lib)
        (entities : EntityGetter lib) (req : AuthorizeSQLRequest) (e : error) :
  (forall pid' p', In (pid', p') pre ->
                   exists sn, partial lib (requestEnv lib entities req) (AST p') = Ok sn) ->
  partial lib (requestEnv lib entities req) (AST p) = Err e ->
  AuthorizeSQL lib (pre ++ (pid, p) :: post) entities req = Failed "" [] e.
Proof.
  intros Hpre Hp. unfold AuthorizeSQL. cbv zeta.
  now rewrite (classify_error lib _ pre post pid p e emptyBuckets Hpre Hp).
Qed.

Lemma AuthorizeSQL_partial_error_witness :
  AuthorizeSQL Demo.lib
               ([("policy0", Demo.forbid (Demo.Residual ast_True))]
                  ++ ("policy1", Demo.permit (Demo.Residual (NodeValue (VLong 3))))
                  :: [("policy2", Demo.permit (Demo.Residual ast_True))])
               tt (Demo.request Demo.bob)
  = Failed "" [] (ErrType "Boolean").
Proof.
  apply (AuthorizeSQL_partial_error Demo.lib
           [("policy0", Demo.forbid (Demo.Residual ast_True))]
           [("policy2", Demo.permit (Demo.Residual ast_True))]
           "policy1" (Demo.permit (Demo.Residual (NodeValue (VLong 3))))
           tt (Demo.request Demo.bob) (ErrType "Boolean")).
  - intros pid' p' [[= <- <-] | []]. eexists. reflexivity.
  - reflexivity.
Defined.

(** X22. When partial evaluation goes through for every policy, no forbid
    policy is satisfied outright and some permit policy is, [AuthorizeSQL]
    returns ["1 = 1"] with no argument, whatever the other policies leave
    behind: the remainders, those of forbid policies included, are not
    looked at. *)
Theorem AuthorizeSQL_satisfied_permit
        (lib : Cedar) (policies : list (PolicyID * Policy lib))
        (entities : EntityGetter lib) (req : AuthorizeSQLRequest)
        (pid : PolicyID) (p : Policy lib) :
  (forall pid' p', In (pid', p') policies ->
                   exists sn, partial lib (requestEnv lib entities req) (AST p') = Ok sn) ->
  (forall pid' p', In (pid', p') policies -> Effect_ p' = Forbid ->
                   forall sn, partial lib (requestEnv lib entities req) (AST p') = Ok sn ->
                              fst sn = false) ->
  In (pid, p) policies ->
  Effect_ p = Permit ->
  partial lib (requestEnv lib entities req) (AST p) = Ok (true, None) ->
  AuthorizeSQL lib policies entities req = Rendered "1 = 1" [].
Proof.
  intros Hok Hno Hin Heff Hsat.
  destruct (classify_total lib _ policies Hok emptyBuckets) as [b Hb].
  rewrite (AuthorizeSQL_classified lib policies entities req b Hb).
  rewrite (finalNode_permit_satisfied b).
  - reflexivity.
  - exact (classify_keeps_no_forbid lib _ policies Hno _ _ Hb eq_refl).
  - exact (classify_satisfied_permit lib _ policies pid p Hin Heff Hsat _ _ Hb).
Qed.

Lemma AuthorizeSQL_satisfied_permit_witness :
  AuthorizeSQL Demo.lib
               [("policy0", Demo.forbid (Demo.Residual (Demo.resource_attr "locked")));
                ("policy1", Demo.permit (Demo.Residual ast_True))]
               tt (Demo.request Demo.bob)
  = Rendered "1 = 1" [].
Proof.
  apply (AuthorizeSQL_satisfied_permit Demo.lib
           [("policy0", Demo.forbid (Demo.Residual (Demo.resource_attr "locked")));
            ("policy1", Demo.permit (Demo.Residual ast_True))]
           tt (Demo.request Demo.bob)
           "policy1" (Demo.permit (Demo.Residual ast_True))).
  - intros pid' p' [[= <- <-] | [[= <- <-] | []]]; eexists; reflexivity.
  - intros pid' p' [[= <- <-] | [[= <- <-] | []]] Heff sn Hsn.
    + now injection Hsn as <-.
    + discriminate Heff.
  - right. left. reflexivity.
  - reflexivity.
  - reflexivity.
Defined.

(** X23. When the loop leaves one permit remainder and nothing else, and the
    remainder reduces to a fragment, [AuthorizeSQL] returns what the fragment
    renders: the constants that the residual wraps around the remainder
    ([true && (false || n)], [&& !false]) leave no trace in the text.  The
    evaluator is assumed to evaluate [!false] to [true]. *)
Theorem AuthorizeSQL_permit_remainder
        (lib : Cedar) (policies : list (PolicyID * Policy lib))
        (entities : EntityGetter lib) (req : AuthorizeSQLRequest)
        (pid : PolicyID) (n : Node) (r : result) :
  classify lib (requestEnv lib entities req) policies emptyBuckets
  = Ok (mkBuckets [] [] [(pid, n)] []) ->
  eval_Eval lib (NodeTypeNot (NodeValue (VBoolean false))) (requestEnv lib entities req)
  = Ok (VBoolean true) ->
  toSqlOrValue lib (requestEnv lib entities req) (Some (requestMapper req)) n = Ok r ->
  isValue r = false ->
  AuthorizeSQL lib policies entities req = result_ToSql r.
Proof.
  intros Hb Hnot Hn Hv.
  rewrite (AuthorizeSQL_classified lib policies entities req _ Hb).
  unfold finalNode. cbn [forbids permits permitsRemains forbidsRemains map snd
                         fold_left orInto andInto].
  unfold ToSql.
  rewrite (permit_remainder_reduces lib _ _ n r Hnot Hn Hv).
  now rewrite Hv.
Qed.

Lemma AuthorizeSQL_permit_remainder_witness :
  AuthorizeSQL Demo.lib
               [("policy0", Demo.permit (Demo.Residual (Demo.resource_attr "is_public")))]
               tt (Demo.request Demo.bob)
  = result_ToSql (fragment (part (Str "document.is_public") [])).
Proof.
  apply (AuthorizeSQL_permit_remainder Demo.lib
           [("policy0", Demo.permit (Demo.Residual (Demo.resource_attr "is_public")))]
           tt (Demo.request Demo.bob) "policy0" (Demo.resource_attr "is_public")
           (fragment (part (Str "document.is_public") []))).
  - reflexivity.
  - reflexivity.
  - reflexivity.
  - reflexivity.
Defined.

(** X24. When the loop leaves one permit remainder and one forbid remainder
    and nothing else, and both reduce to fragments, the text is that of the
    permit remainder, [AND NOT (], that of the forbid remainder and [)], and
    the arguments are those of the permit remainder followed by those of the
    forbid remainder. *)
Theorem AuthorizeSQL_permit_forbid_remainders
        (lib : Cedar) (policies : list (PolicyID * Policy lib))
        (entities : EntityGetter lib) (req : AuthorizeSQLRequest)
        (pid fid : PolicyID) (n m : Node)
        (q t : string) (qa ta : list any) :
  classify lib (requestEnv lib entities req) policies emptyBuckets
  = Ok (mkBuckets [] [] [(pid, n)] [(fid, m)]) ->
  reducesTo lib (requestEnv lib entities req) (Some (requestMapper req)) n q qa ->
  reducesTo lib (requestEnv lib entities req) (Some (requestMapper req)) m t ta ->
  q <> "" ->
  AuthorizeSQL lib policies entities req
  = Rendered (q ++ " AND NOT (" ++ t ++ ")") (qa ++ ta).
Proof.
  intros Hb (r & Hn & Hvn & Hq) (s & Hm & Hvm & Ht) Hne.
  rewrite (AuthorizeSQL_classified lib policies entities req _ Hb).
  unfold finalNode. cbn [forbids permits permitsRemains forbidsRemains map snd
                         fold_left orInto andInto].
  unfold ToSql.
  rewrite (permit_forbid_remainders_reduce lib _ _ n m r s Hn Hvn Hm Hvm).
  cbn [isValue fragment]. unfold result_ToSql in *. cbn [sqlizer fragment].
  destruct (toSqlOrValue_sound lib _ _ m s Hm) as [_ Hsq]. specialize (Hsq Hvm).
  pose proof (expr_one_sqlizer "NOT (" ")" (sqlizer s) t ta eq_refl eq_refl Hsq Ht)
    as Hnot.
  change ("NOT (" ++ "?" ++ ")") with "NOT (?)" in Hnot.
  remember (expr "NOT (?)" [sqlizer s]) as nf eqn:Hnf. clear Hnf.
  assert (Hq0 : String.eqb q "" = false) by now apply String.eqb_neq.
  unfold AndExpr. cbn [ToSql_ map]. rewrite Hq, Hnot.
  cbn [conjLoop]. rewrite Hq0. cbn [conjLoop String.eqb append app].
  cbn. now rewrite ?append_nil_r.
Qed.

Lemma AuthorizeSQL_permit_forbid_remainders_witness :
  AuthorizeSQL Demo.lib
               [("policy0", Demo.permit (Demo.Residual (Demo.resource_attr "owner")));
                ("policy1", Demo.forbid (Demo.Residual (Demo.resource_attr "is_public")))]
               tt (Demo.request Demo.bob)
  = Rendered ("document.owner" ++ " AND NOT (" ++ "document.is_public" ++ ")") ([] ++ []).
Proof.
  apply (AuthorizeSQL_permit_forbid_remainders Demo.lib
           [("policy0", Demo.permit (Demo.Residual (Demo.resource_attr "owner")));
            ("policy1", Demo.forbid (Demo.Residual (Demo.resource_attr "is_public")))]
           tt (Demo.request Demo.bob) "policy0" "policy1"
           (Demo.resource_attr "owner") (Demo.resource_attr "is_public")
           "document.owner" "document.is_public" [] []).
  - reflexivity.
  - exists (fragment (part (Str "document.owner") [])). repeat split.
  - exists (fragment (part (Str "document.is_public") [])). repeat split.
  - discriminate.
Defined.

(** ** Unknowns and the boolean connectives *)

Section ReducerConnectives.

Variable lib : Cedar.
Variable env : Env (EntityGetter lib).
Variable mapper : option FieldMapper.

(** X25. A variable that the evaluator leaves unknown is rendered by the
    name that its sentinel carries, not by the name in the node, as a
    template without arguments: every ["??"] of the name becomes one ['?'],
    and a name with a single ['?'] makes the constructor panic.  A variable
    with a known value is that value. *)
Theorem variable_rendering (name : string) (v : Value) :
  eval_Eval lib (NodeTypeVariable name) env = Ok v ->
  match ToVariable v with
  | Some id =>
      if Nat.eqb (unescapedCount id) 0
      then reducesTo lib env mapper (NodeTypeVariable name) (processEscapedSQL id) []
      else toSqlOrValue lib env mapper (NodeTypeVariable name)
           = Panic (PanicExprArity (unescapedCount id) 0 id)
  | None => toSqlOrValue lib env mapper (NodeTypeVariable name) = Ok (concrete v)
  end.
Proof.
  intro Hv.
  assert (Hstep : toSqlOrValue lib env mapper (NodeTypeVariable name)
                  = valueToResult true v Nil).
  { cbn [toSqlOrValue]. unfold toSqlVariable. now rewrite Hv. }
  unfold valueToResult in Hstep.
  destruct (ToVariable v) as [id|]; [|exact Hstep].
  rewrite Expr_unescaped in Hstep. cbn [List.length] in Hstep.
  destruct (Nat.eqb (unescapedCount id) 0); [|exact Hstep].
  exists (mkResult false v (expr id [])). repeat split. exact Hstep.
Qed.

(** X26. [&&] and [||] over two operands that reduce to fragments with
    non-empty texts: the two texts joined by [AND], without parentheses, or
    joined by [OR] inside parentheses; the arguments of the left operand
    come before those of the right one. *)
Theorem and_or_rendering (left right : Node) (lt rt : string) (la ra : list any) :
  reducesTo lib env mapper left lt la ->
  reducesTo lib env mapper right rt ra ->
  lt <> "" ->
  rt <> "" ->
  reducesTo lib env mapper (NodeTypeAnd left right) (lt ++ " AND " ++ rt) (la ++ ra)
  /\ reducesTo lib env mapper (NodeTypeOr left right)
               ("(" ++ lt ++ " OR " ++ rt ++ ")") (la ++ ra).
Proof.
  intros (l & Hl & Hvl & Hql) (r & Hr & Hvr & Hqr) Hlt Hrt.
  unfold result_ToSql in Hql, Hqr.
  assert (Hl0 : String.eqb lt "" = false) by now apply String.eqb_neq.
  assert (Hr0 : String.eqb rt "" = false) by now apply String.eqb_neq.
  split.
  - exists (fragment (AndExpr [sqlizer l; sqlizer r])). split; [|split].
    + unfold NodeTypeAnd. cbn [toSqlOrValue]. unfold toSqlBinary.
      rewrite Hl, Hr. cbn [bind]. rewrite Hvl. cbn [andb binaryDispatch].
      unfold And. rewrite Hvl, Hvr. reflexivity.
    + reflexivity.
    + unfold result_ToSql, AndExpr. cbn [sqlizer fragment ToSql_ map].
      rewrite Hql, Hqr. cbn [conjLoop]. rewrite Hl0, Hr0.
      cbn. now rewrite ?append_nil_r.
  - exists (fragment (OrExpr [sqlizer l; sqlizer r])). split; [|split].
    + unfold NodeTypeOr. cbn [toSqlOrValue]. unfold toSqlBinary.
      rewrite Hl, Hr. cbn [bind]. rewrite Hvl. cbn [andb binaryDispatch].
      unfold Or. rewrite Hvl, Hvr. reflexivity.
    + reflexivity.
    + unfold result_ToSql, OrExpr. cbn [sqlizer fragment ToSql_ map].
      rewrite Hql, Hqr. cbn [conjLoop]. rewrite Hl0, Hr0.
      cbn. now rewrite append_assoc.
Qed.

End ReducerConnectives.

Lemma variable_rendering_witness :
  reducesTo Demo.lib (Demo.env Demo.bob) None (NodeTypeVariable "resource")
            (processEscapedSQL "resource") [].
Proof.
  apply (variable_rendering Demo.lib (Demo.env Demo.bob) None "resource"
                            (eval_Variable "resource")).
  reflexivity.
Defined.

Lemma and_or_rendering_witness :
  reducesTo Demo.lib (Demo.env Demo.bob) (Some docMapper_Map)
            (NodeTypeAnd (Demo.resource_attr "owner") (Demo.resource_attr "is_public"))
            ("document.owner" ++ " AND " ++ "document.is_public") ([] ++ [])
  /\ reducesTo Demo.lib (Demo.env Demo.bob) (Some docMapper_Map)
               (NodeTypeOr (Demo.resource_attr "owner") (Demo.resource_attr "is_public"))
               ("(" ++ "document.owner" ++ " OR " ++ "document.is_public" ++ ")")
               ([] ++ []).
Proof.
  apply (and_or_rendering Demo.lib (Demo.env Demo.bob) (Some docMapper_Map)
           (Demo.resource_attr "owner") (Demo.resource_attr "is_public")
           "document.owner" "document.is_public" [] []).
  - exists (fragment (part (Str "document.owner") [])). repeat split.
  - exists (fragment (part (Str "document.is_public") [])). repeat split.
  - discriminate.
  - discriminate.
Defined.
